(** * poly-sdk: the dip-arbitrage engine and the orderbook analytics

    A shallow embedding of
      - [src/services/dip-arb-types.ts]   (records, defaults, helper functions),
      - [src/services/dip-arb-service.ts] (the [DipArbService] class),
      - [src/services/market-service.ts]  ([processOrderbooks], [detectArbitrage]),
    followed by the properties of the specification that concern them.

    Modelling conventions.  The code is embedded twice.

    The first embedding (this part of the file) covers the whole engine:
      - A JavaScript number that carries a price, a rate, a share count or a
        configured duration is an exact rational ([Q]).  Every division of the
        embedded code is guarded by a positivity test on its divisor, so what
        is abstracted away is binary64 rounding.  Equality of such numbers is
        [Qeq] ([==]).
      - [Date.now()] is an integer number of milliseconds ([Z]) and is an
        argument [now] of every operation that reads the clock; one handler
        invocation reads one clock value.
      - Counters are natural numbers.
      - The class instance is the record [DipArbService]; a method is a
        function from the instance to the new instance and the list of events
        it emits, in emission order.
      - An [await]ed collaborator (order placement, market discovery, the CTF
        client) is an argument giving what the call returned or that it threw;
        an [async] method runs to completion without interleaving.

    Rounding can change the branch a comparison takes, and an orderbook
    update can be handled while an order is awaited.  The second embedding
    (module [Binary64]) keeps both: numbers are binary64 values and
    [executeLeg1] / [executeLeg2] are split at their awaits.  The properties
    of signal detection, of the phase of a round and of arbitrage detection
    are stated over it. *)

From Stdlib Require Import ZArith QArith Qminmax Lqa Lia List String Bool.
From stdpp Require Import base list.
Import ListNotations.

Open Scope Q_scope.

(** ** JavaScript numbers as rationals *)

(** [x < y] on numbers; [x <= y] is [Qle_bool x y]. *)
Definition Qltb (x y : Q) : bool := negb (Qle_bool y x).

(** [x || d] on a number: [0] is the only falsy rational. *)
Definition num_or (x d : Q) : Q := if Qeq_bool x 0 then d else x.

(** [x || d] on an integer. *)
Definition int_or (x d : Z) : Z := if (x =? 0)%Z then d else x.

(** A truthy string is a non-empty one. *)
Definition truthy (s : string) : bool := negb (String.eqb s EmptyString).

(** ** dip-arb-types.ts *)

Inductive DipArbUnderlying := BTC | ETH | SOL | XRP.

Definition underlying_eqb (a b : DipArbUnderlying) : bool :=
  match a, b with
  | BTC, BTC | ETH, ETH | SOL, SOL | XRP, XRP => true
  | _, _ => false
  end.

Inductive DipArbSide := UP | DOWN.

Inductive DipArbPhase := waiting | leg1_filled | completed | expired.

Inductive SignalSource := dip | surge | mispricing.

Inductive Duration := D5m | D15m.

Inductive SettleStrategy := redeem | sell.

Record DipArbConfigInternal := {
  shares : Q;
  sumTarget : Q;
  dipThreshold : Q;
  windowMinutes : Q;
  slidingWindowMs : Q;
  maxSlippage : Q;
  minProfitRate : Q;
  leg2TimeoutSeconds : Q;
  enableSurge : bool;
  surgeThreshold : Q;
  autoMerge : bool;
  autoExecute : bool;
  executionCooldown : Q;
  debug : bool
}.

Definition DEFAULT_DIP_ARB_CONFIG : DipArbConfigInternal := {|
  shares := 20;
  sumTarget := 0.95;
  dipThreshold := 0.15;
  windowMinutes := 2;
  slidingWindowMs := 3000;
  maxSlippage := 0.02;
  minProfitRate := 0.03;
  leg2TimeoutSeconds := 300;
  enableSurge := true;
  surgeThreshold := 0.15;
  autoMerge := true;
  autoExecute := false;
  executionCooldown := 3000;
  debug := false
|}.

Record DipArbMarketConfig := {
  name : string;
  slug : string;
  conditionId : string;
  upTokenId : string;
  downTokenId : string;
  underlying : DipArbUnderlying;
  durationMinutes : Z;
  endTime : Z
}.

Record DipArbLegInfo := {
  leg_side : DipArbSide;
  leg_price : Q;
  leg_shares : Q;
  leg_timestamp : Z;
  leg_tokenId : string
}.

(** The source builds the round identifier as the string
    [`${slug}-${Date.now()}`]; the two components are kept apart here. *)
Definition RoundId : Type := string * Z.

Record DipArbRoundState := {
  roundId : RoundId;
  startTime : Z;
  round_endTime : Z;
  priceToBeat : Q;
  openPrices_up : Q;
  openPrices_down : Q;
  phase : DipArbPhase;
  leg1 : option DipArbLegInfo;
  leg2 : option DipArbLegInfo;
  round_totalCost : option Q;
  profit : option Q
}.

Record BtcInfo := {
  btcPrice : Q;
  btc_priceToBeat : Q;
  btcChangePercent : Q;
  estimatedWinRate : Q
}.

Record DipArbLeg1Signal := {
  s1_roundId : RoundId;
  dipSide : DipArbSide;
  s1_currentPrice : Q;
  openPrice : Q;
  dropPercent : Q;
  s1_targetPrice : Q;
  s1_shares : Q;
  s1_tokenId : string;
  oppositeAsk : Q;
  estimatedTotalCost : Q;
  estimatedProfitRate : Q;
  source : SignalSource;
  btcInfo : option BtcInfo
}.

Record DipArbLeg2Signal := {
  s2_roundId : RoundId;
  hedgeSide : DipArbSide;
  s2_leg1 : DipArbLegInfo;
  s2_currentPrice : Q;
  s2_targetPrice : Q;
  totalCost : Q;
  expectedProfitRate : Q;
  s2_shares : Q;
  s2_tokenId : string
}.

Inductive DipArbSignal :=
| Leg1Signal (s : DipArbLeg1Signal)
| Leg2Signal (s : DipArbLeg2Signal).

Definition isDipArbLeg1Signal (s : DipArbSignal) : bool :=
  match s with Leg1Signal _ => true | Leg2Signal _ => false end.

Inductive LegLabel := LblLeg1 | LblLeg2 | LblMerge.

(** [orderId], [txHash] and [executionTimeMs] only report on the call and
    are left out of the results below. *)
Record DipArbExecutionResult := {
  ex_success : bool;
  ex_leg : LegLabel;
  ex_roundId : RoundId;
  ex_side : option DipArbSide;
  ex_price : option Q;
  ex_shares : option Q;
  ex_error : option string
}.

Inductive RoundStatus := StCompleted | StExpired | StPartial.

Record DipArbRoundResult := {
  rr_roundId : RoundId;
  rr_status : RoundStatus;
  rr_leg1 : option DipArbLegInfo;
  rr_leg2 : option DipArbLegInfo;
  rr_totalCost : option Q;
  rr_profit : option Q;
  rr_profitRate : option Q;
  rr_merged : bool
}.

Record DipArbStats := {
  stats_startTime : Z;
  runningTimeMs : Z;
  roundsMonitored : nat;
  roundsCompleted : nat;
  roundsSuccessful : nat;
  roundsExpired : nat;
  signalsDetected : nat;
  leg1Filled : nat;
  leg2Filled : nat;
  totalSpent : Q;
  totalProfit : Q;
  avgProfitRate : Q
}.

Record DipArbNewRoundEvent := {
  nr_roundId : RoundId;
  nr_priceToBeat : Q;
  upOpen : Q;
  downOpen : Q;
  nr_startTime : Z;
  nr_endTime : Z
}.

Record DipArbAutoRotateConfig := {
  enabled : bool;
  underlyings : list DipArbUnderlying;
  duration : Duration;
  preloadMinutes : Q;
  autoSettle : bool;
  settleStrategy : SettleStrategy;
  redeemWaitMinutes : Q;
  redeemRetryIntervalSeconds : Q
}.

Definition DEFAULT_AUTO_ROTATE_CONFIG : DipArbAutoRotateConfig := {|
  enabled := false;
  underlyings := [BTC];
  duration := D15m;
  preloadMinutes := 2;
  autoSettle := true;
  settleStrategy := redeem;
  redeemWaitMinutes := 5;
  redeemRetryIntervalSeconds := 30
|}.

Record DipArbSettleResult := {
  st_success : bool;
  st_strategy : SettleStrategy;
  st_market : option DipArbMarketConfig;
  amountReceived : option Q;
  st_error : option string
}.

Record DipArbPendingRedemption := {
  pr_market : DipArbMarketConfig;
  pr_round : DipArbRoundState;
  marketEndTime : Z;
  addedAt : Z;
  retryCount : nat;
  lastRetryAt : option Z
}.

Inductive RotateReason := marketEnded | manual | rotateError.

Record DipArbRotateEvent := {
  previousMarket : option string;
  newMarket : string;
  reason : RotateReason;
  rot_timestamp : Z
}.

Definition createDipArbInitialStats (now : Z) : DipArbStats := {|
  stats_startTime := now;
  runningTimeMs := 0;
  roundsMonitored := 0;
  roundsCompleted := 0;
  roundsSuccessful := 0;
  roundsExpired := 0;
  signalsDetected := 0;
  leg1Filled := 0;
  leg2Filled := 0;
  totalSpent := 0;
  totalProfit := 0;
  avgProfitRate := 0
|}.

Definition createDipArbRoundState (now : Z) (rid : RoundId)
    (ptb upPrice downPrice : Q) (durationMin : Z) : DipArbRoundState := {|
  roundId := rid;
  startTime := now;
  round_endTime := (now + durationMin * 60 * 1000)%Z;
  priceToBeat := ptb;
  openPrices_up := upPrice;
  openPrices_down := downPrice;
  phase := waiting;
  leg1 := None;
  leg2 := None;
  round_totalCost := None;
  profit := None
|}.

Definition calculateDipArbProfitRate (cost : Q) : Q :=
  if Qle_bool 1 cost || Qle_bool cost 0 then 0 else (1 - cost) / cost.

Definition estimateUpWinRate (currentPrice ptb : Q) : Q :=
  if Qle_bool ptb 0 then 0.5
  else
    let priceChange := (currentPrice - ptb) / ptb in
    let sensitivity := 10 in
    let winRateShift := priceChange * sensitivity in
    Qmax 0.05 (Qmin 0.95 (0.5 + winRateShift)).

Definition detectMispricing (tokenPrice estimated : Q) : Q :=
  estimated - tokenPrice.

(** ** The service instance (dip-arb-service.ts, class [DipArbService]) *)

Record OrderbookLevel := { price : Q; size : Q }.

Record OrderbookSnapshot := {
  tokenId : string;
  bids : list OrderbookLevel;
  asks : list OrderbookLevel
}.

Record PricePoint := { timestamp : Z; upAsk : Q; downAsk : Q }.

Definition MAX_HISTORY_LENGTH : nat := 100.

(** A collaborator or a timer handle that is [null] or not is a boolean. *)
Record DipArbService := {
  hasTradingService : bool;
  hasCtf : bool;
  config : DipArbConfigInternal;
  autoRotateConfig : DipArbAutoRotateConfig;
  market : option DipArbMarketConfig;
  currentRound : option DipArbRoundState;
  isRunning : bool;
  isExecuting : bool;
  lastExecutionTime : Z;
  stats : DipArbStats;
  marketSubscription : bool;
  chainlinkSubscription : bool;
  rotateCheckInterval : bool;
  nextMarket : option DipArbMarketConfig;
  pendingRedemptions : list DipArbPendingRedemption;
  redeemCheckInterval : bool;
  upAsks : list OrderbookLevel;
  downAsks : list OrderbookLevel;
  priceHistory : list PricePoint;
  currentUnderlyingPrice : Q;
  leg1SignalEmitted : bool
}.

(** Field updates, one function per assigned field. *)

Definition set_runningTimeMs (v : Z) (r : DipArbStats) : DipArbStats :=
  {| stats_startTime := stats_startTime r; runningTimeMs := v;
     roundsMonitored := roundsMonitored r; roundsCompleted :=
     roundsCompleted r; roundsSuccessful := roundsSuccessful r;
     roundsExpired := roundsExpired r; signalsDetected := signalsDetected
     r; leg1Filled := leg1Filled r; leg2Filled := leg2Filled r; totalSpent
     := totalSpent r; totalProfit := totalProfit r; avgProfitRate :=
     avgProfitRate r |}.

Definition set_roundsMonitored (v : nat) (r : DipArbStats) : DipArbStats :=
  {| stats_startTime := stats_startTime r; runningTimeMs := runningTimeMs
     r; roundsMonitored := v; roundsCompleted := roundsCompleted r;
     roundsSuccessful := roundsSuccessful r; roundsExpired :=
     roundsExpired r; signalsDetected := signalsDetected r; leg1Filled :=
     leg1Filled r; leg2Filled := leg2Filled r; totalSpent := totalSpent r;
     totalProfit := totalProfit r; avgProfitRate := avgProfitRate r |}.

Definition set_roundsCompleted (v : nat) (r : DipArbStats) : DipArbStats :=
  {| stats_startTime := stats_startTime r; runningTimeMs := runningTimeMs
     r; roundsMonitored := roundsMonitored r; roundsCompleted := v;
     roundsSuccessful := roundsSuccessful r; roundsExpired :=
     roundsExpired r; signalsDetected := signalsDetected r; leg1Filled :=
     leg1Filled r; leg2Filled := leg2Filled r; totalSpent := totalSpent r;
     totalProfit := totalProfit r; avgProfitRate := avgProfitRate r |}.

Definition set_roundsSuccessful (v : nat) (r : DipArbStats) : DipArbStats :=
  {| stats_startTime := stats_startTime r; runningTimeMs := runningTimeMs
     r; roundsMonitored := roundsMonitored r; roundsCompleted :=
     roundsCompleted r; roundsSuccessful := v; roundsExpired :=
     roundsExpired r; signalsDetected := signalsDetected r; leg1Filled :=
     leg1Filled r; leg2Filled := leg2Filled r; totalSpent := totalSpent r;
     totalProfit := totalProfit r; avgProfitRate := avgProfitRate r |}.

Definition set_roundsExpired (v : nat) (r : DipArbStats) : DipArbStats :=
  {| stats_startTime := stats_startTime r; runningTimeMs := runningTimeMs
     r; roundsMonitored := roundsMonitored r; roundsCompleted :=
     roundsCompleted r; roundsSuccessful := roundsSuccessful r;
     roundsExpired := v; signalsDetected := signalsDetected r; leg1Filled
     := leg1Filled r; leg2Filled := leg2Filled r; totalSpent := totalSpent
     r; totalProfit := totalProfit r; avgProfitRate := avgProfitRate r |}.

Definition set_signalsDetected (v : nat) (r : DipArbStats) : DipArbStats :=
  {| stats_startTime := stats_startTime r; runningTimeMs := runningTimeMs
     r; roundsMonitored := roundsMonitored r; roundsCompleted :=
     roundsCompleted r; roundsSuccessful := roundsSuccessful r;
     roundsExpired := roundsExpired r; signalsDetected := v; leg1Filled :=
     leg1Filled r; leg2Filled := leg2Filled r; totalSpent := totalSpent r;
     totalProfit := totalProfit r; avgProfitRate := avgProfitRate r |}.

Definition set_leg1Filled (v : nat) (r : DipArbStats) : DipArbStats :=
  {| stats_startTime := stats_startTime r; runningTimeMs := runningTimeMs
     r; roundsMonitored := roundsMonitored r; roundsCompleted :=
     roundsCompleted r; roundsSuccessful := roundsSuccessful r;
     roundsExpired := roundsExpired r; signalsDetected := signalsDetected
     r; leg1Filled := v; leg2Filled := leg2Filled r; totalSpent :=
     totalSpent r; totalProfit := totalProfit r; avgProfitRate :=
     avgProfitRate r |}.

Definition set_leg2Filled (v : nat) (r : DipArbStats) : DipArbStats :=
  {| stats_startTime := stats_startTime r; runningTimeMs := runningTimeMs
     r; roundsMonitored := roundsMonitored r; roundsCompleted :=
     roundsCompleted r; roundsSuccessful := roundsSuccessful r;
     roundsExpired := roundsExpired r; signalsDetected := signalsDetected
     r; leg1Filled := leg1Filled r; leg2Filled := v; totalSpent :=
     totalSpent r; totalProfit := totalProfit r; avgProfitRate :=
     avgProfitRate r |}.

Definition set_totalSpent (v : Q) (r : DipArbStats) : DipArbStats :=
  {| stats_startTime := stats_startTime r; runningTimeMs := runningTimeMs
     r; roundsMonitored := roundsMonitored r; roundsCompleted :=
     roundsCompleted r; roundsSuccessful := roundsSuccessful r;
     roundsExpired := roundsExpired r; signalsDetected := signalsDetected
     r; leg1Filled := leg1Filled r; leg2Filled := leg2Filled r; totalSpent
     := v; totalProfit := totalProfit r; avgProfitRate := avgProfitRate r |}.

Definition set_totalProfit (v : Q) (r : DipArbStats) : DipArbStats :=
  {| stats_startTime := stats_startTime r; runningTimeMs := runningTimeMs
     r; roundsMonitored := roundsMonitored r; roundsCompleted :=
     roundsCompleted r; roundsSuccessful := roundsSuccessful r;
     roundsExpired := roundsExpired r; signalsDetected := signalsDetected
     r; leg1Filled := leg1Filled r; leg2Filled := leg2Filled r; totalSpent
     := totalSpent r; totalProfit := v; avgProfitRate := avgProfitRate r |}.

Definition set_phase (v : DipArbPhase) (r : DipArbRoundState) : DipArbRoundState :=
  {| roundId := roundId r; startTime := startTime r; round_endTime :=
     round_endTime r; priceToBeat := priceToBeat r; openPrices_up :=
     openPrices_up r; openPrices_down := openPrices_down r; phase := v;
     leg1 := leg1 r; leg2 := leg2 r; round_totalCost := round_totalCost r;
     profit := profit r |}.

Definition set_leg1 (v : option DipArbLegInfo) (r : DipArbRoundState) : DipArbRoundState :=
  {| roundId := roundId r; startTime := startTime r; round_endTime :=
     round_endTime r; priceToBeat := priceToBeat r; openPrices_up :=
     openPrices_up r; openPrices_down := openPrices_down r; phase := phase
     r; leg1 := v; leg2 := leg2 r; round_totalCost := round_totalCost r;
     profit := profit r |}.

Definition set_leg2 (v : option DipArbLegInfo) (r : DipArbRoundState) : DipArbRoundState :=
  {| roundId := roundId r; startTime := startTime r; round_endTime :=
     round_endTime r; priceToBeat := priceToBeat r; openPrices_up :=
     openPrices_up r; openPrices_down := openPrices_down r; phase := phase
     r; leg1 := leg1 r; leg2 := v; round_totalCost := round_totalCost r;
     profit := profit r |}.

Definition set_round_totalCost (v : option Q) (r : DipArbRoundState) : DipArbRoundState :=
  {| roundId := roundId r; startTime := startTime r; round_endTime :=
     round_endTime r; priceToBeat := priceToBeat r; openPrices_up :=
     openPrices_up r; openPrices_down := openPrices_down r; phase := phase
     r; leg1 := leg1 r; leg2 := leg2 r; round_totalCost := v; profit :=
     profit r |}.

Definition set_profit (v : option Q) (r : DipArbRoundState) : DipArbRoundState :=
  {| roundId := roundId r; startTime := startTime r; round_endTime :=
     round_endTime r; priceToBeat := priceToBeat r; openPrices_up :=
     openPrices_up r; openPrices_down := openPrices_down r; phase := phase
     r; leg1 := leg1 r; leg2 := leg2 r; round_totalCost := round_totalCost
     r; profit := v |}.

Definition set_config (v : DipArbConfigInternal) (r : DipArbService) : DipArbService :=
  {| hasTradingService := hasTradingService r; hasCtf := hasCtf r; config
     := v; autoRotateConfig := autoRotateConfig r; market := market r;
     currentRound := currentRound r; isRunning := isRunning r; isExecuting
     := isExecuting r; lastExecutionTime := lastExecutionTime r; stats :=
     stats r; marketSubscription := marketSubscription r;
     chainlinkSubscription := chainlinkSubscription r; rotateCheckInterval
     := rotateCheckInterval r; nextMarket := nextMarket r;
     pendingRedemptions := pendingRedemptions r; redeemCheckInterval :=
     redeemCheckInterval r; upAsks := upAsks r; downAsks := downAsks r;
     priceHistory := priceHistory r; currentUnderlyingPrice :=
     currentUnderlyingPrice r; leg1SignalEmitted := leg1SignalEmitted r |}.

Definition set_autoRotateConfig (v : DipArbAutoRotateConfig) (r : DipArbService) : DipArbService :=
  {| hasTradingService := hasTradingService r; hasCtf := hasCtf r; config
     := config r; autoRotateConfig := v; market := market r; currentRound
     := currentRound r; isRunning := isRunning r; isExecuting :=
     isExecuting r; lastExecutionTime := lastExecutionTime r; stats :=
     stats r; marketSubscription := marketSubscription r;
     chainlinkSubscription := chainlinkSubscription r; rotateCheckInterval
     := rotateCheckInterval r; nextMarket := nextMarket r;
     pendingRedemptions := pendingRedemptions r; redeemCheckInterval :=
     redeemCheckInterval r; upAsks := upAsks r; downAsks := downAsks r;
     priceHistory := priceHistory r; currentUnderlyingPrice :=
     currentUnderlyingPrice r; leg1SignalEmitted := leg1SignalEmitted r |}.

Definition set_market (v : option DipArbMarketConfig) (r : DipArbService) : DipArbService :=
  {| hasTradingService := hasTradingService r; hasCtf := hasCtf r; config
     := config r; autoRotateConfig := autoRotateConfig r; market := v;
     currentRound := currentRound r; isRunning := isRunning r; isExecuting
     := isExecuting r; lastExecutionTime := lastExecutionTime r; stats :=
     stats r; marketSubscription := marketSubscription r;
     chainlinkSubscription := chainlinkSubscription r; rotateCheckInterval
     := rotateCheckInterval r; nextMarket := nextMarket r;
     pendingRedemptions := pendingRedemptions r; redeemCheckInterval :=
     redeemCheckInterval r; upAsks := upAsks r; downAsks := downAsks r;
     priceHistory := priceHistory r; currentUnderlyingPrice :=
     currentUnderlyingPrice r; leg1SignalEmitted := leg1SignalEmitted r |}.

Definition set_currentRound (v : option DipArbRoundState) (r : DipArbService) : DipArbService :=
  {| hasTradingService := hasTradingService r; hasCtf := hasCtf r; config
     := config r; autoRotateConfig := autoRotateConfig r; market := market
     r; currentRound := v; isRunning := isRunning r; isExecuting :=
     isExecuting r; lastExecutionTime := lastExecutionTime r; stats :=
     stats r; marketSubscription := marketSubscription r;
     chainlinkSubscription := chainlinkSubscription r; rotateCheckInterval
     := rotateCheckInterval r; nextMarket := nextMarket r;
     pendingRedemptions := pendingRedemptions r; redeemCheckInterval :=
     redeemCheckInterval r; upAsks := upAsks r; downAsks := downAsks r;
     priceHistory := priceHistory r; currentUnderlyingPrice :=
     currentUnderlyingPrice r; leg1SignalEmitted := leg1SignalEmitted r |}.

Definition set_isRunning (v : bool) (r : DipArbService) : DipArbService :=
  {| hasTradingService := hasTradingService r; hasCtf := hasCtf r; config
     := config r; autoRotateConfig := autoRotateConfig r; market := market
     r; currentRound := currentRound r; isRunning := v; isExecuting :=
     isExecuting r; lastExecutionTime := lastExecutionTime r; stats :=
     stats r; marketSubscription := marketSubscription r;
     chainlinkSubscription := chainlinkSubscription r; rotateCheckInterval
     := rotateCheckInterval r; nextMarket := nextMarket r;
     pendingRedemptions := pendingRedemptions r; redeemCheckInterval :=
     redeemCheckInterval r; upAsks := upAsks r; downAsks := downAsks r;
     priceHistory := priceHistory r; currentUnderlyingPrice :=
     currentUnderlyingPrice r; leg1SignalEmitted := leg1SignalEmitted r |}.

Definition set_isExecuting (v : bool) (r : DipArbService) : DipArbService :=
  {| hasTradingService := hasTradingService r; hasCtf := hasCtf r; config
     := config r; autoRotateConfig := autoRotateConfig r; market := market
     r; currentRound := currentRound r; isRunning := isRunning r;
     isExecuting := v; lastExecutionTime := lastExecutionTime r; stats :=
     stats r; marketSubscription := marketSubscription r;
     chainlinkSubscription := chainlinkSubscription r; rotateCheckInterval
     := rotateCheckInterval r; nextMarket := nextMarket r;
     pendingRedemptions := pendingRedemptions r; redeemCheckInterval :=
     redeemCheckInterval r; upAsks := upAsks r; downAsks := downAsks r;
     priceHistory := priceHistory r; currentUnderlyingPrice :=
     currentUnderlyingPrice r; leg1SignalEmitted := leg1SignalEmitted r |}.

Definition set_lastExecutionTime (v : Z) (r : DipArbService) : DipArbService :=
  {| hasTradingService := hasTradingService r; hasCtf := hasCtf r; config
     := config r; autoRotateConfig := autoRotateConfig r; market := market
     r; currentRound := currentRound r; isRunning := isRunning r;
     isExecuting := isExecuting r; lastExecutionTime := v; stats := stats
     r; marketSubscription := marketSubscription r; chainlinkSubscription
     := chainlinkSubscription r; rotateCheckInterval :=
     rotateCheckInterval r; nextMarket := nextMarket r; pendingRedemptions
     := pendingRedemptions r; redeemCheckInterval := redeemCheckInterval
     r; upAsks := upAsks r; downAsks := downAsks r; priceHistory :=
     priceHistory r; currentUnderlyingPrice := currentUnderlyingPrice r;
     leg1SignalEmitted := leg1SignalEmitted r |}.

Definition set_stats (v : DipArbStats) (r : DipArbService) : DipArbService :=
  {| hasTradingService := hasTradingService r; hasCtf := hasCtf r; config
     := config r; autoRotateConfig := autoRotateConfig r; market := market
     r; currentRound := currentRound r; isRunning := isRunning r;
     isExecuting := isExecuting r; lastExecutionTime := lastExecutionTime
     r; stats := v; marketSubscription := marketSubscription r;
     chainlinkSubscription := chainlinkSubscription r; rotateCheckInterval
     := rotateCheckInterval r; nextMarket := nextMarket r;
     pendingRedemptions := pendingRedemptions r; redeemCheckInterval :=
     redeemCheckInterval r; upAsks := upAsks r; downAsks := downAsks r;
     priceHistory := priceHistory r; currentUnderlyingPrice :=
     currentUnderlyingPrice r; leg1SignalEmitted := leg1SignalEmitted r |}.

Definition set_marketSubscription (v : bool) (r : DipArbService) : DipArbService :=
  {| hasTradingService := hasTradingService r; hasCtf := hasCtf r; config
     := config r; autoRotateConfig := autoRotateConfig r; market := market
     r; currentRound := currentRound r; isRunning := isRunning r;
     isExecuting := isExecuting r; lastExecutionTime := lastExecutionTime
     r; stats := stats r; marketSubscription := v; chainlinkSubscription
     := chainlinkSubscription r; rotateCheckInterval :=
     rotateCheckInterval r; nextMarket := nextMarket r; pendingRedemptions
     := pendingRedemptions r; redeemCheckInterval := redeemCheckInterval
     r; upAsks := upAsks r; downAsks := downAsks r; priceHistory :=
     priceHistory r; currentUnderlyingPrice := currentUnderlyingPrice r;
     leg1SignalEmitted := leg1SignalEmitted r |}.

Definition set_chainlinkSubscription (v : bool) (r : DipArbService) : DipArbService :=
  {| hasTradingService := hasTradingService r; hasCtf := hasCtf r; config
     := config r; autoRotateConfig := autoRotateConfig r; market := market
     r; currentRound := currentRound r; isRunning := isRunning r;
     isExecuting := isExecuting r; lastExecutionTime := lastExecutionTime
     r; stats := stats r; marketSubscription := marketSubscription r;
     chainlinkSubscription := v; rotateCheckInterval :=
     rotateCheckInterval r; nextMarket := nextMarket r; pendingRedemptions
     := pendingRedemptions r; redeemCheckInterval := redeemCheckInterval
     r; upAsks := upAsks r; downAsks := downAsks r; priceHistory :=
     priceHistory r; currentUnderlyingPrice := currentUnderlyingPrice r;
     leg1SignalEmitted := leg1SignalEmitted r |}.

Definition set_rotateCheckInterval (v : bool) (r : DipArbService) : DipArbService :=
  {| hasTradingService := hasTradingService r; hasCtf := hasCtf r; config
     := config r; autoRotateConfig := autoRotateConfig r; market := market
     r; currentRound := currentRound r; isRunning := isRunning r;
     isExecuting := isExecuting r; lastExecutionTime := lastExecutionTime
     r; stats := stats r; marketSubscription := marketSubscription r;
     chainlinkSubscription := chainlinkSubscription r; rotateCheckInterval
     := v; nextMarket := nextMarket r; pendingRedemptions :=
     pendingRedemptions r; redeemCheckInterval := redeemCheckInterval r;
     upAsks := upAsks r; downAsks := downAsks r; priceHistory :=
     priceHistory r; currentUnderlyingPrice := currentUnderlyingPrice r;
     leg1SignalEmitted := leg1SignalEmitted r |}.

Definition set_nextMarket (v : option DipArbMarketConfig) (r : DipArbService) : DipArbService :=
  {| hasTradingService := hasTradingService r; hasCtf := hasCtf r; config
     := config r; autoRotateConfig := autoRotateConfig r; market := market
     r; currentRound := currentRound r; isRunning := isRunning r;
     isExecuting := isExecuting r; lastExecutionTime := lastExecutionTime
     r; stats := stats r; marketSubscription := marketSubscription r;
     chainlinkSubscription := chainlinkSubscription r; rotateCheckInterval
     := rotateCheckInterval r; nextMarket := v; pendingRedemptions :=
     pendingRedemptions r; redeemCheckInterval := redeemCheckInterval r;
     upAsks := upAsks r; downAsks := downAsks r; priceHistory :=
     priceHistory r; currentUnderlyingPrice := currentUnderlyingPrice r;
     leg1SignalEmitted := leg1SignalEmitted r |}.

Definition set_pendingRedemptions (v : list DipArbPendingRedemption) (r : DipArbService) : DipArbService :=
  {| hasTradingService := hasTradingService r; hasCtf := hasCtf r; config
     := config r; autoRotateConfig := autoRotateConfig r; market := market
     r; currentRound := currentRound r; isRunning := isRunning r;
     isExecuting := isExecuting r; lastExecutionTime := lastExecutionTime
     r; stats := stats r; marketSubscription := marketSubscription r;
     chainlinkSubscription := chainlinkSubscription r; rotateCheckInterval
     := rotateCheckInterval r; nextMarket := nextMarket r;
     pendingRedemptions := v; redeemCheckInterval := redeemCheckInterval
     r; upAsks := upAsks r; downAsks := downAsks r; priceHistory :=
     priceHistory r; currentUnderlyingPrice := currentUnderlyingPrice r;
     leg1SignalEmitted := leg1SignalEmitted r |}.

Definition set_redeemCheckInterval (v : bool) (r : DipArbService) : DipArbService :=
  {| hasTradingService := hasTradingService r; hasCtf := hasCtf r; config
     := config r; autoRotateConfig := autoRotateConfig r; market := market
     r; currentRound := currentRound r; isRunning := isRunning r;
     isExecuting := isExecuting r; lastExecutionTime := lastExecutionTime
     r; stats := stats r; marketSubscription := marketSubscription r;
     chainlinkSubscription := chainlinkSubscription r; rotateCheckInterval
     := rotateCheckInterval r; nextMarket := nextMarket r;
     pendingRedemptions := pendingRedemptions r; redeemCheckInterval := v;
     upAsks := upAsks r; downAsks := downAsks r; priceHistory :=
     priceHistory r; currentUnderlyingPrice := currentUnderlyingPrice r;
     leg1SignalEmitted := leg1SignalEmitted r |}.

Definition set_upAsks (v : list OrderbookLevel) (r : DipArbService) : DipArbService :=
  {| hasTradingService := hasTradingService r; hasCtf := hasCtf r; config
     := config r; autoRotateConfig := autoRotateConfig r; market := market
     r; currentRound := currentRound r; isRunning := isRunning r;
     isExecuting := isExecuting r; lastExecutionTime := lastExecutionTime
     r; stats := stats r; marketSubscription := marketSubscription r;
     chainlinkSubscription := chainlinkSubscription r; rotateCheckInterval
     := rotateCheckInterval r; nextMarket := nextMarket r;
     pendingRedemptions := pendingRedemptions r; redeemCheckInterval :=
     redeemCheckInterval r; upAsks := v; downAsks := downAsks r;
     priceHistory := priceHistory r; currentUnderlyingPrice :=
     currentUnderlyingPrice r; leg1SignalEmitted := leg1SignalEmitted r |}.

Definition set_downAsks (v : list OrderbookLevel) (r : DipArbService) : DipArbService :=
  {| hasTradingService := hasTradingService r; hasCtf := hasCtf r; config
     := config r; autoRotateConfig := autoRotateConfig r; market := market
     r; currentRound := currentRound r; isRunning := isRunning r;
     isExecuting := isExecuting r; lastExecutionTime := lastExecutionTime
     r; stats := stats r; marketSubscription := marketSubscription r;
     chainlinkSubscription := chainlinkSubscription r; rotateCheckInterval
     := rotateCheckInterval r; nextMarket := nextMarket r;
     pendingRedemptions := pendingRedemptions r; redeemCheckInterval :=
     redeemCheckInterval r; upAsks := upAsks r; downAsks := v;
     priceHistory := priceHistory r; currentUnderlyingPrice :=
     currentUnderlyingPrice r; leg1SignalEmitted := leg1SignalEmitted r |}.

Definition set_priceHistory (v : list PricePoint) (r : DipArbService) : DipArbService :=
  {| hasTradingService := hasTradingService r; hasCtf := hasCtf r; config
     := config r; autoRotateConfig := autoRotateConfig r; market := market
     r; currentRound := currentRound r; isRunning := isRunning r;
     isExecuting := isExecuting r; lastExecutionTime := lastExecutionTime
     r; stats := stats r; marketSubscription := marketSubscription r;
     chainlinkSubscription := chainlinkSubscription r; rotateCheckInterval
     := rotateCheckInterval r; nextMarket := nextMarket r;
     pendingRedemptions := pendingRedemptions r; redeemCheckInterval :=
     redeemCheckInterval r; upAsks := upAsks r; downAsks := downAsks r;
     priceHistory := v; currentUnderlyingPrice := currentUnderlyingPrice
     r; leg1SignalEmitted := leg1SignalEmitted r |}.

Definition set_currentUnderlyingPrice (v : Q) (r : DipArbService) : DipArbService :=
  {| hasTradingService := hasTradingService r; hasCtf := hasCtf r; config
     := config r; autoRotateConfig := autoRotateConfig r; market := market
     r; currentRound := currentRound r; isRunning := isRunning r;
     isExecuting := isExecuting r; lastExecutionTime := lastExecutionTime
     r; stats := stats r; marketSubscription := marketSubscription r;
     chainlinkSubscription := chainlinkSubscription r; rotateCheckInterval
     := rotateCheckInterval r; nextMarket := nextMarket r;
     pendingRedemptions := pendingRedemptions r; redeemCheckInterval :=
     redeemCheckInterval r; upAsks := upAsks r; downAsks := downAsks r;
     priceHistory := priceHistory r; currentUnderlyingPrice := v;
     leg1SignalEmitted := leg1SignalEmitted r |}.

Definition set_leg1SignalEmitted (v : bool) (r : DipArbService) : DipArbService :=
  {| hasTradingService := hasTradingService r; hasCtf := hasCtf r; config
     := config r; autoRotateConfig := autoRotateConfig r; market := market
     r; currentRound := currentRound r; isRunning := isRunning r;
     isExecuting := isExecuting r; lastExecutionTime := lastExecutionTime
     r; stats := stats r; marketSubscription := marketSubscription r;
     chainlinkSubscription := chainlinkSubscription r; rotateCheckInterval
     := rotateCheckInterval r; nextMarket := nextMarket r;
     pendingRedemptions := pendingRedemptions r; redeemCheckInterval :=
     redeemCheckInterval r; upAsks := upAsks r; downAsks := downAsks r;
     priceHistory := priceHistory r; currentUnderlyingPrice :=
     currentUnderlyingPrice r; leg1SignalEmitted := v |}.

(** ** Events ([EventEmitter.emit]) and awaited collaborators *)

Inductive Event :=
| EvStarted (m : DipArbMarketConfig)
| EvStopped
| EvNewRound (e : DipArbNewRoundEvent)
| EvSignal (s : DipArbSignal)
| EvExecution (r : DipArbExecutionResult)
| EvRoundComplete (r : DipArbRoundResult)
| EvSettled (r : DipArbSettleResult)
| EvRotate (r : DipArbRotateEvent).

(** What [tradingService.createMarketOrder] did: resolved with
    [success = true], resolved with [success = false], or rejected. *)
Inductive OrderOutcome := OrderFilled | OrderFailed | OrderThrew.

(** What the CTF client did for one pending redemption:
    [getMarketResolution] rejected; it answered [isResolved = false]; it
    answered [isResolved = true] and [redeemByTokenIds] resolved with the
    given [success] and parsed [usdcReceived]; or [redeemByTokenIds]
    rejected. *)
Inductive CtfOutcome :=
| ResolutionThrew
| NotResolved
| Redeemed (success : bool) (usdcReceived : option Q)
| RedeemThrew.

(** The instance right after the constructor. *)
Definition new_DipArbService (now : Z) (trading ctf : bool) : DipArbService := {|
  hasTradingService := trading;
  hasCtf := ctf;
  config := DEFAULT_DIP_ARB_CONFIG;
  autoRotateConfig := DEFAULT_AUTO_ROTATE_CONFIG;
  market := None;
  currentRound := None;
  isRunning := false;
  isExecuting := false;
  lastExecutionTime := 0;
  stats := createDipArbInitialStats now;
  marketSubscription := false;
  chainlinkSubscription := false;
  rotateCheckInterval := false;
  nextMarket := None;
  pendingRedemptions := [];
  redeemCheckInterval := false;
  upAsks := [];
  downAsks := [];
  priceHistory := [];
  currentUnderlyingPrice := 0;
  leg1SignalEmitted := false
|}.

(** ** Orderbook state and the price-history ring *)

(** [asks[0]?.price ?? d] *)
Definition bestAsk (l : list OrderbookLevel) (d : Q) : Q :=
  match l with [] => d | lvl :: _ => price lvl end.

(** [l.slice(-n)]: the last [n] elements. *)
Definition slice_last {A} (n : nat) (l : list A) : list A :=
  drop (length l - n) l.

Definition recordPriceHistory (now : Z) (st : DipArbService) : DipArbService :=
  let up := bestAsk (upAsks st) 0 in
  let down := bestAsk (downAsks st) 0 in
  if Qle_bool up 0 || Qle_bool down 0 then st
  else
    let h := priceHistory st ++ [{| timestamp := now; upAsk := up; downAsk := down |}] in
    if (MAX_HISTORY_LENGTH <? length h)%nat
    then set_priceHistory (slice_last MAX_HISTORY_LENGTH h) st
    else set_priceHistory h st.

Definition sideAsk (side : DipArbSide) (e : PricePoint) : Q :=
  match side with UP => upAsk e | DOWN => downAsk e end.

(** The loop [for (i = length - 1; i >= 0; i--)] of [getPriceFromHistory];
    [n] is [i + 1]. *)
Fixpoint scanHistory (h : list PricePoint) (targetTime : Q) (side : DipArbSide)
    (n : nat) : option Q :=
  match n with
  | O => None
  | S i =>
      match h !! i with
      | Some entry =>
          if Qle_bool (inject_Z (timestamp entry)) targetTime
          then Some (sideAsk side entry)
          else scanHistory h targetTime side i
      | None => scanHistory h targetTime side i
      end
  end.

Definition getPriceFromHistory (now : Z) (side : DipArbSide) (msAgo : Q)
    (st : DipArbService) : option Q :=
  let targetTime := inject_Z now - msAgo in
  scanHistory (priceHistory st) targetTime side (length (priceHistory st)).

(** ** Round management *)

Definition checkAndStartNewRound (now : Z) (st : DipArbService)
    : DipArbService * list Event :=
  match market st with
  | None => (st, [])
  | Some m =>
      let needsNew :=
        match currentRound st with
        | None => true
        | Some r =>
            match phase r with
            | completed | expired => true
            | _ => false
            end
        end in
      if needsNew && (endTime m <=? now)%Z then (st, [])
      else
        let '(st1, ev1) :=
          if needsNew then
            let upPrice := bestAsk (upAsks st) 0.5 in
            let downPrice := bestAsk (downAsks st) 0.5 in
            let ptb := num_or (currentUnderlyingPrice st) 0 in
            let rid := (slug m, now) in
            let r := createDipArbRoundState now rid ptb upPrice downPrice
                       (durationMinutes m) in
            let s := set_currentRound (Some r) st in
            let s := set_priceHistory [] s in
            let s := set_leg1SignalEmitted false s in
            let s := set_stats
                       (set_roundsMonitored (S (roundsMonitored (stats s))) (stats s)) s in
            (s, [EvNewRound {| nr_roundId := rid; nr_priceToBeat := ptb;
                               upOpen := upPrice; downOpen := downPrice;
                               nr_startTime := startTime r;
                               nr_endTime := round_endTime r |}])
          else (st, []) in
        match currentRound st1 with
        | Some r =>
            match phase r with
            | leg1_filled =>
                let since :=
                  match leg1 r with
                  | Some l => int_or (leg_timestamp l) (startTime r)
                  | None => startTime r
                  end in
                let elapsed := inject_Z (now - since) / 1000 in
                if Qltb (leg2TimeoutSeconds (config st1)) elapsed then
                  let s := set_currentRound (Some (set_phase expired r)) st1 in
                  let s := set_stats
                             (set_roundsExpired (S (roundsExpired (stats s))) (stats s)) s in
                  let s := set_stats
                             (set_roundsCompleted (S (roundsCompleted (stats s))) (stats s)) s in
                  (s, ev1 ++ [EvRoundComplete
                                {| rr_roundId := roundId r; rr_status := StExpired;
                                   rr_leg1 := leg1 r; rr_leg2 := None;
                                   rr_totalCost := None; rr_profit := None;
                                   rr_profitRate := None; rr_merged := false |}])
                else (st1, ev1)
            | _ => (st1, ev1)
            end
        | None => (st1, ev1)
        end
  end.

(** ** Signal detection *)

Definition createLeg1Signal (st : DipArbService) (side : DipArbSide)
    (price_ oppositeAsk_ : Q) (src : SignalSource) (drop_ : Q)
    (referencePrice : option Q) : option DipArbLeg1Signal :=
  match currentRound st, market st with
  | Some r, Some m =>
      let targetPrice := price_ * (1 + maxSlippage (config st)) in
      let estTotal := targetPrice + oppositeAsk_ in
      let estRate := calculateDipArbProfitRate estTotal in
      let open_ :=
        match referencePrice with
        | Some p => p
        | None => match side with UP => openPrices_up r | DOWN => openPrices_down r end
        end in
      Some {|
        s1_roundId := roundId r;
        dipSide := side;
        s1_currentPrice := price_;
        openPrice := open_;
        dropPercent := drop_;
        s1_targetPrice := targetPrice;
        s1_shares := shares (config st);
        s1_tokenId := match side with UP => upTokenId m | DOWN => downTokenId m end;
        oppositeAsk := oppositeAsk_;
        estimatedTotalCost := estTotal;
        estimatedProfitRate := estRate;
        source := src;
        btcInfo :=
          if Qltb 0 (priceToBeat r) && Qltb 0 (currentUnderlyingPrice st) then
            Some {| btcPrice := currentUnderlyingPrice st;
                    btc_priceToBeat := priceToBeat r;
                    btcChangePercent :=
                      (currentUnderlyingPrice st - priceToBeat r) / priceToBeat r * 100;
                    estimatedWinRate :=
                      estimateUpWinRate (currentUnderlyingPrice st) (priceToBeat r) |}
          else None
      |}
  | _, _ => None
  end.

Definition validateSignalProfitability (st : DipArbService)
    (s : DipArbLeg1Signal) : bool :=
  if Qle_bool (s1_currentPrice s) 0 || Qle_bool 1 (s1_currentPrice s) then false
  else if Qltb (dropPercent s) (dipThreshold (config st)) then false
  else true.

(** [const signal = createLeg1Signal(...);
     if (signal && validateSignalProfitability(signal)) return signal;] *)
Definition validated (st : DipArbService) (o : option DipArbLeg1Signal)
    : option DipArbLeg1Signal :=
  match o with
  | Some s => if validateSignalProfitability st s then Some s else None
  | None => None
  end.

(** [a] if it returned a signal, otherwise continue with [b]. *)
Definition orElse {A} (a b : option A) : option A :=
  match a with Some x => Some x | None => b end.

(** Pattern 1 for one side: the price [ago] of the sliding window against
    the current [price_]. *)
Definition dipPattern (st : DipArbService) (side : DipArbSide)
    (price_ opposite : Q) (ago : option Q) : option DipArbLeg1Signal :=
  match ago with
  | Some p =>
      if Qltb 0 p then
        let instantDrop := (p - price_) / p in
        if Qle_bool (dipThreshold (config st)) instantDrop
        then validated st (createLeg1Signal st side price_ opposite dip instantDrop (Some p))
        else None
      else None
  | None => None
  end.

(** Pattern 2: a surge of one side buys the other side. *)
Definition surgePattern (st : DipArbService) (upPrice downPrice : Q)
    (upAgo downAgo : option Q) : option DipArbLeg1Signal :=
  match enableSurge (config st), upAgo, downAgo with
  | true, Some ua, Some da =>
      orElse
        (if Qltb 0 ua then
           let upSurge := (upPrice - ua) / ua in
           if Qle_bool (surgeThreshold (config st)) upSurge
           then validated st (createLeg1Signal st DOWN downPrice upPrice surge upSurge (Some da))
           else None
         else None)
        (if Qltb 0 da then
           let downSurge := (downPrice - da) / da in
           if Qle_bool (surgeThreshold (config st)) downSurge
           then validated st (createLeg1Signal st UP upPrice downPrice surge downSurge (Some ua))
           else None
         else None)
  | _, _, _ => None
  end.

(** Pattern 3: mispricing against the oracle price. *)
Definition mispricingPattern (st : DipArbService) (r : DipArbRoundState)
    (upPrice downPrice : Q) : option DipArbLeg1Signal :=
  if Qltb 0 (priceToBeat r) && Qltb 0 (currentUnderlyingPrice st) then
    let est := estimateUpWinRate (currentUnderlyingPrice st) (priceToBeat r) in
    let upMispricing := detectMispricing upPrice est in
    let downMispricing := detectMispricing downPrice (1 - est) in
    orElse
      (if Qle_bool (dipThreshold (config st)) upMispricing
       then validated st (createLeg1Signal st UP upPrice downPrice mispricing upMispricing None)
       else None)
      (if Qle_bool (dipThreshold (config st)) downMispricing
       then validated st (createLeg1Signal st DOWN downPrice upPrice mispricing downMispricing None)
       else None)
  else None.

Definition detectLeg1Signal (now : Z) (st : DipArbService)
    : option DipArbLeg1Signal :=
  match currentRound st, market st with
  | Some r, Some _ =>
      let elapsed := inject_Z (now - startTime r) / 60000 in
      if Qltb (windowMinutes (config st)) elapsed then None
      else
        let upPrice := bestAsk (upAsks st) 1 in
        let downPrice := bestAsk (downAsks st) 1 in
        if Qle_bool 1 upPrice || Qle_bool 1 downPrice
           || Qle_bool (openPrices_up r) 0 || Qle_bool (openPrices_down r) 0
        then None
        else
          let upPriceAgo := getPriceFromHistory now UP (slidingWindowMs (config st)) st in
          let downPriceAgo := getPriceFromHistory now DOWN (slidingWindowMs (config st)) st in
          orElse (dipPattern st UP upPrice downPrice upPriceAgo)
         (orElse (dipPattern st DOWN downPrice upPrice downPriceAgo)
         (orElse (surgePattern st upPrice downPrice upPriceAgo downPriceAgo)
                 (mispricingPattern st r upPrice downPrice)))
  | _, _ => None
  end.

Definition opposite (s : DipArbSide) : DipArbSide :=
  match s with UP => DOWN | DOWN => UP end.

Definition detectLeg2Signal (st : DipArbService) : option DipArbLeg2Signal :=
  match currentRound st, market st with
  | Some r, Some m =>
      match leg1 r with
      | None => None
      | Some l1 =>
          let hedge := opposite (leg_side l1) in
          let currentPrice :=
            match hedge with
            | UP => bestAsk (upAsks st) 1
            | DOWN => bestAsk (downAsks st) 1
            end in
          if Qle_bool 1 currentPrice then None
          else
            let targetPrice := currentPrice * (1 + maxSlippage (config st)) in
            let total := leg_price l1 + targetPrice in
            if Qltb (sumTarget (config st)) total then None
            else
              Some {|
                s2_roundId := roundId r;
                hedgeSide := hedge;
                s2_leg1 := l1;
                s2_currentPrice := currentPrice;
                s2_targetPrice := targetPrice;
                totalCost := total;
                expectedProfitRate := calculateDipArbProfitRate total;
                s2_shares := shares (config st);
                s2_tokenId := match hedge with UP => upTokenId m | DOWN => downTokenId m end
              |}
      end
  | _, _ => None
  end.

Definition detectSignal (now : Z) (st : DipArbService) : option DipArbSignal :=
  match currentRound st, market st with
  | Some r, Some _ =>
      match phase r with
      | waiting => option_map Leg1Signal (detectLeg1Signal now st)
      | leg1_filled => option_map Leg2Signal (detectLeg2Signal st)
      | _ => None
      end
  | _, _ => None
  end.

(** ** Execution *)

Definition failedExecution (lbl : LegLabel) (rid : RoundId) (msg : string)
    : DipArbExecutionResult :=
  {| ex_success := false; ex_leg := lbl; ex_roundId := rid; ex_side := None;
     ex_price := None; ex_shares := None; ex_error := Some msg |}.

Definition executeLeg1 (now : Z) (order : OrderOutcome) (signal : DipArbLeg1Signal)
    (st : DipArbService) : DipArbService * DipArbExecutionResult :=
  match hasTradingService st, market st, currentRound st with
  | true, Some _, Some r =>
      match order with
      | OrderFilled =>
          let l := {| leg_side := dipSide signal;
                      leg_price := s1_targetPrice signal;
                      leg_shares := s1_shares signal;
                      leg_timestamp := now;
                      leg_tokenId := s1_tokenId signal |} in
          let r' := set_phase leg1_filled (set_leg1 (Some l) r) in
          let s := set_currentRound (Some r') st in
          let s := set_stats (set_leg1Filled (S (leg1Filled (stats s))) (stats s)) s in
          let s := set_lastExecutionTime now s in
          (set_isExecuting false s,
           {| ex_success := true; ex_leg := LblLeg1; ex_roundId := s1_roundId signal;
              ex_side := Some (dipSide signal);
              ex_price := Some (s1_targetPrice signal);
              ex_shares := Some (s1_shares signal); ex_error := None |})
      | OrderFailed =>
          (set_isExecuting false st,
           failedExecution LblLeg1 (s1_roundId signal) "Order failed")
      | OrderThrew =>
          (set_isExecuting false st,
           failedExecution LblLeg1 (s1_roundId signal) "exception")
      end
  | _, _, _ =>
      (st, failedExecution LblLeg1 (s1_roundId signal)
             "Trading service not available or no active round")
  end.

(** [merge()] only reads the instance, and its result is written to the
    [roundResult] object after [roundComplete] has been emitted; the event
    below is the object as emitted. *)
Definition executeLeg2 (now : Z) (order : OrderOutcome) (signal : DipArbLeg2Signal)
    (st : DipArbService) : DipArbService * list Event * DipArbExecutionResult :=
  match hasTradingService st, market st, currentRound st with
  | true, Some _, Some r =>
      match order with
      | OrderFilled =>
          let l := {| leg_side := hedgeSide signal;
                      leg_price := s2_targetPrice signal;
                      leg_shares := s2_shares signal;
                      leg_timestamp := now;
                      leg_tokenId := s2_tokenId signal |} in
          let pr := 1 - totalCost signal in
          let r' := set_profit (Some pr)
                      (set_round_totalCost (Some (totalCost signal))
                         (set_phase completed (set_leg2 (Some l) r))) in
          let s := set_currentRound (Some r') st in
          let s := set_stats (set_leg2Filled (S (leg2Filled (stats s))) (stats s)) s in
          let s := set_stats
                     (set_roundsSuccessful (S (roundsSuccessful (stats s))) (stats s)) s in
          let s := set_stats
                     (set_totalProfit (totalProfit (stats s) + pr * s2_shares signal)
                        (stats s)) s in
          let s := set_stats
                     (set_totalSpent (totalSpent (stats s) + totalCost signal * s2_shares signal)
                        (stats s)) s in
          let s := set_lastExecutionTime now s in
          (set_isExecuting false s,
           [EvRoundComplete
              {| rr_roundId := s2_roundId signal; rr_status := StCompleted;
                 rr_leg1 := leg1 r'; rr_leg2 := leg2 r';
                 rr_totalCost := round_totalCost r'; rr_profit := profit r';
                 rr_profitRate := Some (calculateDipArbProfitRate (totalCost signal));
                 rr_merged := false |}],
           {| ex_success := true; ex_leg := LblLeg2; ex_roundId := s2_roundId signal;
              ex_side := Some (hedgeSide signal);
              ex_price := Some (s2_targetPrice signal);
              ex_shares := Some (s2_shares signal); ex_error := None |})
      | OrderFailed =>
          (set_isExecuting false st, [],
           failedExecution LblLeg2 (s2_roundId signal) "Order failed")
      | OrderThrew =>
          (set_isExecuting false st, [],
           failedExecution LblLeg2 (s2_roundId signal) "exception")
      end
  | _, _, _ =>
      (st, [], failedExecution LblLeg2 (s2_roundId signal)
                 "Trading service not available or no active round")
  end.

(** ** Signal handling and the orderbook handler *)

Definition handleSignal (now : Z) (order : OrderOutcome) (signal : DipArbSignal)
    (st : DipArbService) : DipArbService * list Event :=
  let s := set_stats (set_signalsDetected (S (signalsDetected (stats st))) (stats st)) st in
  let ev := [EvSignal signal] in
  if autoExecute (config s) && negb (isExecuting s) then
    if Qle_bool (executionCooldown (config s)) (inject_Z (now - lastExecutionTime s)) then
      match signal with
      | Leg1Signal sg =>
          let '(s', res) := executeLeg1 now order sg s in
          (s', ev ++ [EvExecution res])
      | Leg2Signal sg =>
          let '(s', ev2, res) := executeLeg2 now order sg s in
          (s', ev ++ ev2 ++ [EvExecution res])
      end
    else (s, ev)
  else (s, ev).

(** [if (isUpToken) this.upAsks = ...; else if (isDownToken) this.downAsks = ...] *)
Definition updateAsks (m : DipArbMarketConfig) (book : OrderbookSnapshot)
    (st : DipArbService) : DipArbService :=
  if String.eqb (tokenId book) (upTokenId m) then set_upAsks (asks book) st
  else if String.eqb (tokenId book) (downTokenId m) then set_downAsks (asks book) st
  else st.

Definition handleOrderbookUpdate (now : Z) (order : OrderOutcome)
    (book : OrderbookSnapshot) (st : DipArbService) : DipArbService * list Event :=
  match market st with
  | None => (st, [])
  | Some m =>
      let s := updateAsks m book st in
      let s := recordPriceHistory now s in
      let '(s, ev1) := checkAndStartNewRound now s in
      match detectSignal now s with
      | Some signal =>
          let '(s', ev2) := handleSignal now order signal s in
          (s', ev1 ++ ev2)
      | None => (s, ev1)
      end
  end.

Definition underlyingName (u : DipArbUnderlying) : string :=
  match u with BTC => "BTC" | ETH => "ETH" | SOL => "SOL" | XRP => "XRP" end.

(** The [priceUpdate] event carries no state and is left out. *)
Definition handleChainlinkPriceUpdate (symbol : string) (p : Q)
    (st : DipArbService) : DipArbService :=
  match market st with
  | None => st
  | Some m =>
      if String.eqb symbol (String.append (underlyingName (underlying m)) "/USD")
      then set_currentUnderlyingPrice p st
      else st
  end.

(** ** Lifecycle *)

Inductive StartError := AlreadyRunning | MissingTokenIds.

(** [start] throws ([inl]) or resolves ([inr]).  Rotation check and
    redemption timers are not touched by [start]. *)
Definition start (now : Z) (m : DipArbMarketConfig) (st : DipArbService)
    : StartError + DipArbService * list Event :=
  if isRunning st then inl AlreadyRunning
  else if negb (truthy (upTokenId m)) || negb (truthy (downTokenId m))
  then inl MissingTokenIds
  else
    let s := set_market (Some m) st in
    let s := set_isRunning true s in
    let s := set_stats (createDipArbInitialStats now) s in
    let s := set_priceHistory [] s in
    let s := set_marketSubscription true s in
    let s := set_chainlinkSubscription true s in
    inr (s, [EvStarted m]).

Definition stopRotateCheck (st : DipArbService) : DipArbService :=
  if rotateCheckInterval st then set_rotateCheckInterval false st else st.

Definition stop (now : Z) (st : DipArbService) : DipArbService * list Event :=
  if negb (isRunning st) then (st, [])
  else
    let s := set_isRunning false st in
    let s := stopRotateCheck s in
    let s := if marketSubscription s then set_marketSubscription false s else s in
    let s := if chainlinkSubscription s then set_chainlinkSubscription false s else s in
    let s := set_stats
               (set_runningTimeMs (now - stats_startTime (stats s))%Z (stats s)) s in
    (s, [EvStopped]).

(** ** Auto-rotation *)

(** [scan] is what [scanUpcomingMarkets] resolved with. *)
Definition findNextMarket (scan : list DipArbMarketConfig) (st : DipArbService)
    : option DipArbMarketConfig :=
  let filtered :=
    List.filter (fun m => existsb (underlying_eqb (underlying m))
                            (underlyings (autoRotateConfig st))) scan in
  let available :=
    List.filter (fun m =>
                   match market st with
                   | Some cur => negb (String.eqb (conditionId m) (conditionId cur))
                   | None => true
                   end) filtered in
  match available with
  | m :: _ => Some m
  | [] => None
  end.

(** [startRotateCheck] arms the 30 s timer.  Its immediate, un-awaited call of
    [checkRotation] is a separate invocation of [checkRotation]. *)
Definition startRotateCheck (st : DipArbService) : DipArbService :=
  set_rotateCheckInterval true st.

Definition startRedeemCheck (st : DipArbService) : DipArbService :=
  set_redeemCheckInterval true st.

Definition stopRedeemCheck (st : DipArbService) : DipArbService :=
  if redeemCheckInterval st then set_redeemCheckInterval false st else st.

(** [cfg] is the configuration after the spread of the partial argument over
    the current one. *)
Definition enableAutoRotate (cfg : DipArbAutoRotateConfig) (st : DipArbService)
    : DipArbService :=
  let cfg' := {| enabled := true; underlyings := underlyings cfg;
                 duration := duration cfg; preloadMinutes := preloadMinutes cfg;
                 autoSettle := autoSettle cfg; settleStrategy := settleStrategy cfg;
                 redeemWaitMinutes := redeemWaitMinutes cfg;
                 redeemRetryIntervalSeconds := redeemRetryIntervalSeconds cfg |} in
  let s := startRotateCheck (set_autoRotateConfig cfg' st) in
  match settleStrategy cfg' with
  | redeem => startRedeemCheck s
  | sell => s
  end.

Definition disableAutoRotate (st : DipArbService) : DipArbService :=
  let c := autoRotateConfig st in
  let cfg' := {| enabled := false; underlyings := underlyings c;
                 duration := duration c; preloadMinutes := preloadMinutes c;
                 autoSettle := autoSettle c; settleStrategy := settleStrategy c;
                 redeemWaitMinutes := redeemWaitMinutes c;
                 redeemRetryIntervalSeconds := redeemRetryIntervalSeconds c |} in
  stopRedeemCheck (stopRotateCheck (set_autoRotateConfig cfg' st)).

Definition failedSettle (strategy : SettleStrategy) (msg : string)
    : DipArbSettleResult :=
  {| st_success := false; st_strategy := strategy; st_market := None;
     amountReceived := None; st_error := Some msg |}.

Definition sideBestAsk (st : DipArbService) (side : DipArbSide) (d : Q) : Q :=
  match side with UP => bestAsk (upAsks st) d | DOWN => bestAsk (downAsks st) d end.

(** [sell1] and [sell2] are the outcomes of the market sells of the two legs;
    the second is only consulted when the first did not throw. *)
Definition settleBySell (sell1 sell2 : OrderOutcome) (st : DipArbService)
    : DipArbSettleResult :=
  match hasTradingService st, market st, currentRound st with
  | true, Some _, Some r =>
      let after1 :=
        match leg1 r with
        | Some l =>
            match sell1 with
            | OrderFilled => Some (0 + leg_shares l * sideBestAsk st (leg_side l) 0.5)
            | OrderFailed => Some 0
            | OrderThrew => None
            end
        | None => Some 0
        end in
      let after2 :=
        match after1, leg2 r with
        | Some tot, Some l =>
            match sell2 with
            | OrderFilled => Some (tot + leg_shares l * sideBestAsk st (leg_side l) 0.5)
            | OrderFailed => Some tot
            | OrderThrew => None
            end
        | Some tot, None => Some tot
        | None, _ => None
        end in
      match after2 with
      | Some tot =>
          {| st_success := true; st_strategy := sell; st_market := None;
             amountReceived := Some tot; st_error := None |}
      | None => failedSettle sell "exception"
      end
  | _, _, _ => failedSettle sell "Trading service or market not available"
  end.

Definition addPendingRedemption (now : Z) (m : DipArbMarketConfig)
    (r : DipArbRoundState) (st : DipArbService) : DipArbService :=
  let pending := {| pr_market := m; pr_round := r; marketEndTime := endTime m;
                    addedAt := now; retryCount := 0; lastRetryAt := None |} in
  set_pendingRedemptions (pendingRedemptions st ++ [pending]) st.

(** The tail shared by the two rotation branches of [checkRotation] and by
    [rotateToNextMarket]: [stop()], then [start(newMarket)]. *)
Definition stopThenStart (now : Z) (newM : DipArbMarketConfig) (st : DipArbService)
    : StartError + DipArbService * list Event :=
  let '(s, ev1) := stop now st in
  match start now newM s with
  | inl e => inl e
  | inr (s', ev2) => inr (s', ev1 ++ ev2)
  end.

(** [rotateToNextMarket]: the result is the returned market (or [null]), the
    instance and the events; a throwing [start] leaves the stopped instance
    and the error. *)
Definition rotateToNextMarket (now : Z) (scan : list DipArbMarketConfig)
    (st : DipArbService)
    : option DipArbMarketConfig * DipArbService * list Event * option StartError :=
  if negb (enabled (autoRotateConfig st)) then (None, st, [], None)
  else
    match findNextMarket scan st with
    | None => (None, st, [], None)
    | Some next =>
        match stopThenStart now next st with
        | inl e => (None, fst (stop now st), snd (stop now st), Some e)
        | inr (s, ev) =>
            let event := {| previousMarket := option_map conditionId (market s);
                            newMarket := conditionId next;
                            reason := manual;
                            rot_timestamp := now |} in
            (Some next, s, ev ++ [EvRotate event], None)
        end
    end.

(** [checkRotation]: [scanPreload] and [scanSearch] are what the two possible
    calls of [scanUpcomingMarkets] resolve with, [sell1] and [sell2] the
    outcomes of the sells of the [sell] strategy. *)
Definition checkRotation (now : Z) (scanPreload scanSearch : list DipArbMarketConfig)
    (sell1 sell2 : OrderOutcome) (st : DipArbService)
    : DipArbService * list Event * option StartError :=
  match enabled (autoRotateConfig st), market st with
  | true, Some m =>
      let timeUntilEnd := (endTime m - now)%Z in
      let preloadMs := num_or (preloadMinutes (autoRotateConfig st)) 2 * 60 * 1000 in
      let s1 :=
        match nextMarket st with
        | None =>
            if Qle_bool (inject_Z timeUntilEnd) preloadMs
            then set_nextMarket (findNextMarket scanPreload st) st
            else st
        | Some _ => st
        end in
      if (timeUntilEnd <=? 0)%Z then
        let '(s2, ev2) :=
          match autoSettle (autoRotateConfig s1), currentRound s1 with
          | true, Some r =>
              match leg1 r with
              | Some _ =>
                  match settleStrategy (autoRotateConfig s1) with
                  | redeem => (addPendingRedemption now m r s1, [])
                  | sell => (s1, [EvSettled (settleBySell sell1 sell2 s1)])
                  end
              | None => (s1, [])
              end
          | _, _ => (s1, [])
          end in
        let rotate (newM : DipArbMarketConfig) (s : DipArbService) :=
          match stopThenStart now newM s with
          | inl e => (fst (stop now s), ev2 ++ snd (stop now s), Some e)
          | inr (s', ev) =>
              (startRotateCheck s',
               ev2 ++ ev ++ [EvRotate {| previousMarket := Some (conditionId m);
                                         newMarket := conditionId newM;
                                         reason := marketEnded;
                                         rot_timestamp := now |}],
               None)
          end in
        match nextMarket s2 with
        | Some newM => rotate newM (set_nextMarket None s2)
        | None =>
            match findNextMarket scanSearch s2 with
            | Some newM => rotate newM s2
            | None => (fst (stop now s2), ev2 ++ snd (stop now s2), None)
            end
        end
      else (s1, [], None)
  | _, _ => (st, [], None)
  end.

(** ** Pending redemptions *)

(** What one loop iteration of [processPendingRedemptions] decides for the
    queue entry it looks at. *)
Inductive ItemResult :=
| Skip
| Keep (p : DipArbPendingRedemption)
| Remove (r : DipArbSettleResult).

Definition processPending (now : Z) (ctfAvailable : bool)
    (ctf : DipArbPendingRedemption -> CtfOutcome) (waitMs : Q)
    (pending : DipArbPendingRedemption) : ItemResult :=
  let timeSinceEnd := (now - marketEndTime pending)%Z in
  if Qltb (inject_Z timeSinceEnd) waitMs then Skip
  else
    let p := {| pr_market := pr_market pending; pr_round := pr_round pending;
                marketEndTime := marketEndTime pending; addedAt := addedAt pending;
                retryCount := S (retryCount pending); lastRetryAt := Some now |} in
    if negb ctfAvailable then Keep p
    else
      let giveUp (msg : string) :=
        if (20 <? retryCount p)%nat
        then Remove {| st_success := false; st_strategy := redeem;
                       st_market := Some (pr_market p);
                       amountReceived := None; st_error := Some msg |}
        else Keep p in
      match ctf p with
      | NotResolved => giveUp "Market not resolved after max retries"%string
      | ResolutionThrew | RedeemThrew => giveUp "exception"%string
      | Redeemed ok usdc =>
          Remove {| st_success := ok; st_strategy := redeem;
                    st_market := Some (pr_market p);
                    amountReceived := usdc;
                    st_error := None |}
      end.

(** [if (settleResult.amountReceived) stats.totalProfit += amountReceived] *)
Definition creditRedemption (r : DipArbSettleResult) (st : DipArbService)
    : DipArbService :=
  match amountReceived r with
  | Some a =>
      if Qeq_bool a 0 then st
      else set_stats (set_totalProfit (totalProfit (stats st) + a) (stats st)) st
  | None => st
  end.

(** The loop [for (i = length - 1; i >= 0; i--)]; [n] is [i + 1],
    [splice(i, 1)] is [delete i]. *)
Fixpoint redeemLoop (now : Z) (ctf : DipArbPendingRedemption -> CtfOutcome)
    (waitMs : Q) (n : nat) (st : DipArbService) (ev : list Event)
    : DipArbService * list Event :=
  match n with
  | O => (st, ev)
  | S i =>
      match pendingRedemptions st !! i with
      | None => redeemLoop now ctf waitMs i st ev
      | Some pending =>
          match processPending now (hasCtf st) ctf waitMs pending with
          | Skip => redeemLoop now ctf waitMs i st ev
          | Keep p =>
              redeemLoop now ctf waitMs i
                (set_pendingRedemptions (<[i := p]> (pendingRedemptions st)) st) ev
          | Remove r =>
              redeemLoop now ctf waitMs i
                (creditRedemption r
                   (set_pendingRedemptions (delete i (pendingRedemptions st)) st))
                (ev ++ [EvSettled r])
          end
      end
  end.

(** [(this.autoRotateConfig.redeemWaitMinutes || 5) * 60 * 1000] *)
Definition redeemWaitMs (st : DipArbService) : Q :=
  num_or (redeemWaitMinutes (autoRotateConfig st)) 5 * 60 * 1000.

Definition processPendingRedemptions (now : Z)
    (ctf : DipArbPendingRedemption -> CtfOutcome) (st : DipArbService)
    : DipArbService * list Event :=
  match pendingRedemptions st with
  | [] => (st, [])
  | _ =>
      redeemLoop now ctf (redeemWaitMs st) (length (pendingRedemptions st)) st []
  end.


(** ** market-service.ts: orderbook analytics *)

Record Orderbook := {
  ob_bids : list OrderbookLevel;
  ob_asks : list OrderbookLevel
}.

Record EffectivePrices := {
  effectiveBuyYes : Q;
  effectiveBuyNo : Q;
  effectiveSellYes : Q;
  effectiveSellNo : Q
}.

Record BookSide := {
  bs_bid : Q;
  bs_ask : Q;
  bidSize : Q;
  askSize : Q;
  bidDepth : Q;
  askDepth : Q;
  spread : Q;
  bs_tokenId : option string
}.

Record OrderbookSummary := {
  askSum : Q;
  bidSum : Q;
  effectivePrices : EffectivePrices;
  effectiveLongCost : Q;
  effectiveShortRevenue : Q;
  longArbProfit : Q;
  shortArbProfit : Q;
  totalBidDepth : Q;
  totalAskDepth : Q;
  imbalanceRatio : Q;
  yesSpread : Q
}.

Record ProcessedOrderbook := {
  yes : BookSide;
  no : BookSide;
  summary : OrderbookSummary
}.

(** [levels[0]?.price || d] *)
Definition firstPrice (l : list OrderbookLevel) (d : Q) : Q :=
  match l with [] => d | lvl :: _ => num_or (price lvl) d end.

(** [levels[0]?.size || 0] *)
Definition firstSize (l : list OrderbookLevel) : Q :=
  match l with [] => 0 | lvl :: _ => num_or (size lvl) 0 end.

(** [levels.reduce((sum, l) => sum + l.price * l.size, 0)] *)
Definition depth (l : list OrderbookLevel) : Q :=
  fold_left (fun sum lvl => sum + price lvl * size lvl) l 0.

Definition processOrderbooks (yesBook noBook : Orderbook)
    (yesTokenId noTokenId : option string) : ProcessedOrderbook :=
  let yesBestBid := firstPrice (ob_bids yesBook) 0 in
  let yesBestAsk := firstPrice (ob_asks yesBook) 1 in
  let noBestBid := firstPrice (ob_bids noBook) 0 in
  let noBestAsk := firstPrice (ob_asks noBook) 1 in
  let yesBidDepth := depth (ob_bids yesBook) in
  let yesAskDepth := depth (ob_asks yesBook) in
  let noBidDepth := depth (ob_bids noBook) in
  let noAskDepth := depth (ob_asks noBook) in
  let eff := {|
    effectiveBuyYes := Qmin yesBestAsk (1 - noBestBid);
    effectiveBuyNo := Qmin noBestAsk (1 - yesBestBid);
    effectiveSellYes := Qmax yesBestBid (1 - noBestAsk);
    effectiveSellNo := Qmax noBestBid (1 - yesBestAsk) |} in
  let longCost := effectiveBuyYes eff + effectiveBuyNo eff in
  let shortRevenue := effectiveSellYes eff + effectiveSellNo eff in
  {| yes := {| bs_bid := yesBestBid; bs_ask := yesBestAsk;
               bidSize := firstSize (ob_bids yesBook);
               askSize := firstSize (ob_asks yesBook);
               bidDepth := yesBidDepth; askDepth := yesAskDepth;
               spread := yesBestAsk - yesBestBid; bs_tokenId := yesTokenId |};
     no := {| bs_bid := noBestBid; bs_ask := noBestAsk;
              bidSize := firstSize (ob_bids noBook);
              askSize := firstSize (ob_asks noBook);
              bidDepth := noBidDepth; askDepth := noAskDepth;
              spread := noBestAsk - noBestBid; bs_tokenId := noTokenId |};
     summary := {| askSum := yesBestAsk + noBestAsk;
                   bidSum := yesBestBid + noBestBid;
                   effectivePrices := eff;
                   effectiveLongCost := longCost;
                   effectiveShortRevenue := shortRevenue;
                   longArbProfit := 1 - longCost;
                   shortArbProfit := shortRevenue - 1;
                   totalBidDepth := yesBidDepth + noBidDepth;
                   totalAskDepth := yesAskDepth + noAskDepth;
                   imbalanceRatio :=
                     (yesBidDepth + noBidDepth) / (yesAskDepth + noAskDepth + 0.001);
                   yesSpread := yesBestAsk - yesBestBid |} |}.

Inductive ArbitrageType := long | short.

(** The [action] text is assembled from the two effective prices it
    quotes; they are kept as numbers. *)
Record ArbitrageOpportunity := {
  arb_type : ArbitrageType;
  arb_profit : Q;
  action : Q * Q;
  expectedProfit : Q
}.

Definition DEFAULT_ARB_THRESHOLD : Q := 0.005.

(** [orderbook] is what [getOrderbook(conditionId)] resolved with. *)
Definition detectArbitrage (orderbook : ProcessedOrderbook) (threshold : Q)
    : option ArbitrageOpportunity :=
  let eff := effectivePrices (summary orderbook) in
  if Qltb threshold (longArbProfit (summary orderbook)) then
    Some {| arb_type := long;
            arb_profit := longArbProfit (summary orderbook);
            action := (effectiveBuyYes eff, effectiveBuyNo eff);
            expectedProfit := longArbProfit (summary orderbook) |}
  else if Qltb threshold (shortArbProfit (summary orderbook)) then
    Some {| arb_type := short;
            arb_profit := shortArbProfit (summary orderbook);
            action := (effectiveSellYes eff, effectiveSellNo eff);
            expectedProfit := shortArbProfit (summary orderbook) |}
  else None.


(** The hedge side's current best ask, [1] when its ladder is empty. *)
Definition leg2AskNow (st : DipArbService) (l1 : DipArbLegInfo) : Q :=
  sideBestAsk st (opposite (leg_side l1)) 1.

(** ** What the specification calls the ring reference and a dip signal *)

(** [e] is the most recent entry of the price history with a timestamp at
    or before [now - slidingWindowMs]. *)
Definition ringReference (now : Z) (st : DipArbService) (e : PricePoint) : Prop :=
  let targetTime := inject_Z now - slidingWindowMs (config st) in
  exists i : nat,
    priceHistory st !! i = Some e
    /\ inject_Z (timestamp e) <= targetTime
    /\ forall (j : nat) (e' : PricePoint),
         (i < j)%nat -> priceHistory st !! j = Some e' ->
         targetTime < inject_Z (timestamp e').

(** The price [cur] dropped from [ref] by at least [dipThreshold]. *)
Definition dropped (st : DipArbService) (ref cur : Q) : Prop :=
  dipThreshold (config st) <= (ref - cur) / ref.

(** ** The queue after one pass of the redemption loop *)

(** What becomes of one entry: left as it is, kept with its retry recorded,
    or gone. *)
Definition stepItem (now : Z) (ctfAvailable : bool)
    (ctf : DipArbPendingRedemption -> CtfOutcome) (waitMs : Q)
    (p : DipArbPendingRedemption) : list DipArbPendingRedemption :=
  match processPending now ctfAvailable ctf waitMs p with
  | Skip => [p]
  | Keep p' => [p']
  | Remove _ => []
  end.


(** The mandatory wait of [p] is over at [now]. *)
Definition pastWait (waitMs : Q) (now : Z) (p : DipArbPendingRedemption) : Prop :=
  waitMs <= inject_Z (now - marketEndTime p).


Definition isRotate (e : Event) : bool :=
  match e with EvRotate _ => true | _ => false end.

Definition isSettled (e : Event) : bool :=
  match e with EvSettled _ => true | _ => false end.

(** ** Runs of the orderbook handler *)

(** One delivery of the realtime transport: the clock, what an order placed
    during the delivery would do, and the snapshot. *)
Definition Delivery : Type := Z * OrderOutcome * OrderbookSnapshot.

Fixpoint handleOrderbookUpdates (ds : list Delivery) (st : DipArbService)
    : DipArbService * list Event :=
  match ds with
  | [] => (st, [])
  | (now, order, book) :: rest =>
      let '(s, ev) := handleOrderbookUpdate now order book st in
      let '(s', ev') := handleOrderbookUpdates rest s in
      (s', ev ++ ev')
  end.

Definition roundId_eqb (a b : RoundId) : bool :=
  String.eqb (fst a) (fst b) && (snd a =? snd b)%Z.

(** The Leg1 signals of round [rid] among the emitted events. *)
Definition leg1SignalsOf (rid : RoundId) (evs : list Event) : list DipArbLeg1Signal :=
  flat_map (fun e =>
              match e with
              | EvSignal (Leg1Signal s) => if roundId_eqb (s1_roundId s) rid then [s] else []
              | _ => []
              end) evs.

(** The order of the phases: [waiting -> leg1_filled -> {completed, expired}],
    closed under reflexivity and transitivity. *)
Definition phase_forward (p q : DipArbPhase) : bool :=
  match p, q with
  | waiting, _ => true
  | leg1_filled, (leg1_filled | completed | expired) => true
  | completed, completed => true
  | expired, expired => true
  | _, _ => false
  end.

Definition terminal (p : DipArbPhase) : bool :=
  match p with completed | expired => true | _ => false end.

(** * The rest of the engine and of the market service *)

From Stdlib Require Import Qround Ascii DecimalString.

(** ** dip-arb-service.ts: merge and settle *)

(** What [ctf.merge] did: resolved with the given [success], or rejected. *)
Inductive MergeOutcome := MergeReturned (success : bool) | MergeThrew.

(** [Math.min] on two numbers. *)
Definition num_min (x y : Q) : Q := Qmin x y.

(** [this.currentRound.leg?.shares || 0] *)
Definition legShares (l : option DipArbLegInfo) : Q :=
  match l with Some x => num_or (leg_shares x) 0 | None => 0 end.

(** [merge()]: the round identifier of a missing round is the text
    ['unknown'], here the pair of that text and 0. *)
Definition merge (outcome : MergeOutcome) (st : DipArbService)
    : DipArbExecutionResult :=
  let rid := match currentRound st with
             | Some r => roundId r
             | None => ("unknown"%string, 0%Z)
             end in
  match hasCtf st, market st, currentRound st with
  | true, Some _, Some r =>
      let sh := num_min (legShares (leg1 r)) (legShares (leg2 r)) in
      if Qle_bool sh 0 then failedExecution LblMerge rid "No shares to merge"
      else
        match outcome with
        | MergeReturned ok =>
            {| ex_success := ok; ex_leg := LblMerge; ex_roundId := rid;
               ex_side := None; ex_price := None; ex_shares := Some sh;
               ex_error := None |}
        | MergeThrew => failedExecution LblMerge rid "exception"
        end
  | _, _, _ =>
      failedExecution LblMerge rid "CTF client not available or no completed round"
  end.

(** [settleByRedeem()]: [ctf] is what the CTF client does for the current
    market. *)
Definition settleByRedeem (ctf : CtfOutcome) (st : DipArbService)
    : DipArbSettleResult :=
  match hasCtf st, market st with
  | true, Some _ =>
      match ctf with
      | ResolutionThrew | RedeemThrew => failedSettle redeem "exception"
      | NotResolved => failedSettle redeem "Market not yet resolved"
      | Redeemed ok usdc =>
          {| st_success := ok; st_strategy := redeem; st_market := None;
             amountReceived := usdc; st_error := None |}
      end
  | _, _ => failedSettle redeem "CTF client or market not available"
  end.

(** [settle(strategy)] *)
Definition settle (strategy : SettleStrategy) (ctf : CtfOutcome)
    (sell1 sell2 : OrderOutcome) (st : DipArbService) : DipArbSettleResult :=
  match market st, currentRound st with
  | Some _, Some _ =>
      match strategy with
      | redeem => settleByRedeem ctf st
      | sell => settleBySell sell1 sell2 st
      end
  | _, _ => failedSettle strategy "No active market or round"
  end.

(** ** Well-formed statistics *)


Definition isExecution (e : Event) : bool :=
  match e with EvExecution _ => true | _ => false end.

Definition isSignal (e : Event) : bool :=
  match e with EvSignal _ => true | _ => false end.

Definition isNewRound (e : Event) : bool :=
  match e with EvNewRound _ => true | _ => false end.

(** ** Eligible successors and sale proceeds *)

(** A scanned market the rotation may move to: its underlying is
    configured and it is not the current market. *)
Definition eligible (st : DipArbService) (m : DipArbMarketConfig) : bool :=
  existsb (underlying_eqb (underlying m)) (underlyings (autoRotateConfig st))
  && match market st with
     | Some cur => negb (String.eqb (conditionId m) (conditionId cur))
     | None => true
     end.

(** What the sell strategy credits for one leg: shares times the current
    best ask of the leg's side when the sell order filled. *)
Definition proceeds (st : DipArbService) (l : option DipArbLegInfo)
    (o : OrderOutcome) : Q :=
  match l, o with
  | Some x, OrderFilled => leg_shares x * sideBestAsk st (leg_side x) 0.5
  | _, _ => 0
  end.

(** The entry [checkRotation] queues for the position of round [r]. *)
Definition pendingFor (now : Z) (m : DipArbMarketConfig) (r : DipArbRoundState)
    : DipArbPendingRedemption :=
  {| pr_market := m; pr_round := r; marketEndTime := endTime m;
     addedAt := now; retryCount := 0; lastRetryAt := None |}.

(** The preload window of [checkRotation], in milliseconds. *)
Definition preloadMs (st : DipArbService) : Q :=
  num_or (preloadMinutes (autoRotateConfig st)) 2 * 60 * 1000.

(** The [rotate] event of an automatic rotation from [m] to [newM]. *)
Definition marketEndedEvent (now : Z) (m newM : DipArbMarketConfig) : Event :=
  EvRotate {| previousMarket := Some (conditionId m);
              newMarket := conditionId newM;
              reason := marketEnded;
              rot_timestamp := now |}.

(** The amount a [settled] event reports, 0 when it reports none. *)
Definition settledAmount (e : Event) : Q :=
  match e with
  | EvSettled r => match amountReceived r with Some a => a | None => 0 end
  | _ => 0
  end.

Definition sumQ (l : list Q) : Q := fold_right Qplus 0 l.


(** ** dip-arb-service.ts: findAndStart *)

(** [findAndStart(options)]: [markets] is what [scanUpcomingMarkets]
    resolved with, [coin] the preferred underlying when one is given.  A
    throwing [start] rejects the call and leaves the instance as it was. *)
Definition findAndStart (now : Z) (coin : option DipArbUnderlying)
    (markets : list DipArbMarketConfig) (st : DipArbService)
    : option DipArbMarketConfig * DipArbService * list Event * option StartError :=
  match markets with
  | [] => (None, st, [], None)
  | first :: _ =>
      let bestMarket :=
        match coin with
        | Some c =>
            match List.find (fun m => underlying_eqb (underlying m) c) markets with
            | Some coinMarket => coinMarket
            | None => first
            end
        | None => first
        end in
      match start now bestMarket st with
      | inl e => (None, st, [], Some e)
      | inr (s, ev) => (Some bestMarket, s, ev, None)
      end
  end.

(** ** dip-arb-types.ts: the slug parsers *)

(** [toLowerCase] on the ASCII letters. *)
Definition lowerAscii (c : ascii) : ascii :=
  let n := nat_of_ascii c in
  if ((65 <=? n) && (n <=? 90))%nat then ascii_of_nat (n + 32) else c.

Fixpoint toLowerCase (s : string) : string :=
  match s with
  | EmptyString => EmptyString
  | String c s' => String (lowerAscii c) (toLowerCase s')
  end.

(** [s.startsWith(p)] *)
Fixpoint startsWith (s p : string) : bool :=
  match p with
  | EmptyString => true
  | String a p' =>
      match s with
      | EmptyString => false
      | String b s' => Ascii.eqb a b && startsWith s' p'
      end
  end.

(** [s.includes(p)] *)
Fixpoint includes (s p : string) : bool :=
  startsWith s p
  || match s with
     | EmptyString => false
     | String _ s' => includes s' p
     end.

Definition parseUnderlyingFromSlug (slug : string) : DipArbUnderlying :=
  let lower := toLowerCase slug in
  if startsWith lower "btc" then BTC
  else if startsWith lower "eth" then ETH
  else if startsWith lower "sol" then SOL
  else if startsWith lower "xrp" then XRP
  else BTC.

Definition parseDurationFromSlug (slug : string) : Z :=
  if includes slug "-5m-" then 5%Z
  else if includes slug "-15m-" then 15%Z
  else 15%Z.

(** ** market-service.ts: the slugs of scanCryptoShortTermMarkets *)

(** The text of an integer, as in a template literal. *)
Definition numberToString (z : Z) : string := NilZero.string_of_int (Z.to_int z).

Definition durationIntervals (d : Duration) : Z :=
  match d with D5m => 300%Z | D15m => 900%Z end.

Definition durationStr (d : Duration) : string :=
  match d with D5m => "5m" | D15m => "15m" end.

(** [coin === 'all' ? allCoins : [coin.toLowerCase()]]; [None] is ['all']. *)
Definition targetCoins (coin : option DipArbUnderlying) : list string :=
  match coin with
  | None => ["btc"; "eth"; "sol"; "xrp"]%string
  | Some c => [toLowerCase (underlyingName c)]
  end.

Definition targetDurations (duration : option Duration) : list Duration :=
  match duration with
  | None => [D5m; D15m]
  | Some d => [d]
  end.

Definition slugOf (coinName : string) (d : Duration) (slotStart : Z) : string :=
  (coinName ++ "-updown-" ++ durationStr d ++ "-" ++ numberToString slotStart)%string.

(** The loop [for (slotStart = minSlotStart; slotStart <= maxSlotStart;
    slotStart += intervalSeconds)] with its inner loop over the coins;
    [fuel] bounds the number of iterations. *)
Fixpoint slotLoop (fuel : nat) (slotStart maxSlotStart : Z) (d : Duration)
    (coins : list string) : list string :=
  match fuel with
  | O => []
  | S fuel' =>
      if (slotStart <=? maxSlotStart)%Z then
        map (fun coinName => slugOf coinName d slotStart) coins
        ++ slotLoop fuel' (slotStart + durationIntervals d) maxSlotStart d coins
      else []
  end.

Definition minSlotStart (nowMs : Z) (minMinutesUntilEnd : Q) (d : Duration) : Z :=
  let nowSeconds := (nowMs / 1000)%Z in
  let minEndSeconds := inject_Z nowSeconds + minMinutesUntilEnd * 60 in
  (Qfloor ((minEndSeconds - inject_Z (durationIntervals d))
           / inject_Z (durationIntervals d))
   * durationIntervals d)%Z.

Definition maxSlotStart (nowMs : Z) (maxMinutesUntilEnd : Q) (d : Duration) : Z :=
  let nowSeconds := (nowMs / 1000)%Z in
  let maxEndSeconds := inject_Z nowSeconds + maxMinutesUntilEnd * 60 in
  (Qceiling (maxEndSeconds / inject_Z (durationIntervals d)) * durationIntervals d)%Z.

(** The slugs [scanCryptoShortTermMarkets] asks the Gamma API for; the
    loop runs as long as [slotStart <= maxSlotStart], that is at most
    [(maxSlotStart - minSlotStart) / intervalSeconds + 1] times. *)
Definition slugsToFetch (nowMs : Z) (minMinutesUntilEnd maxMinutesUntilEnd : Q)
    (duration : option Duration) (coin : option DipArbUnderlying) : list string :=
  flat_map
    (fun d =>
       let lo := minSlotStart nowMs minMinutesUntilEnd d in
       let hi := maxSlotStart nowMs maxMinutesUntilEnd d in
       slotLoop (Z.to_nat ((hi - lo) / durationIntervals d + 1)) lo hi d
         (targetCoins coin))
    (targetDurations duration).

(** ** market-service.ts: market signals *)

(** [arbOpportunity] of [calculateRealtimeSpread]: ['LONG'], ['SHORT'] or ['']. *)
Inductive ArbOpportunity := ArbLONG | ArbSHORT | ArbNone.

Inductive TradeSide := BUY | SELL.

Record Trade := {
  tr_size : Q;
  tr_price : Q;
  tr_side : TradeSide;
  tr_outcome : string
}.

(** The two volume fields of the market that the detector reads;
    [volume24hr] is optional. *)
Record MarketVolume := {
  volume24hr : option Q;
  volume : Q
}.

Inductive MarketSignalType := volume_surge | depth_imbalance | whale_trade | momentum.

Inductive Severity := low | medium | high.

Inductive PressureDirection := BUY_PRESSURE | SELL_PRESSURE.

Inductive SignalDetails :=
| VolumeDetails (v24 avgDaily ratio : Q)
| DepthDetails (ratio bidDepthTotal askDepthTotal : Q) (direction : PressureDirection)
| WhaleDetails (tsize tprice usdValue : Q) (side : TradeSide) (outcome : string).

Record MarketSignal := {
  sig_type : MarketSignalType;
  severity : Severity;
  details : SignalDetails
}.

(** [detectMarketSignals]: [market] and [orderbook] are what [getMarket] and
    [getOrderbook] resolved with, [dataApi] the trades of the data API
    client, [None] when there is no client (the call then throws). *)
Definition detectMarketSignals (dataApi : option (list Trade)) (market : MarketVolume)
    (orderbook : ProcessedOrderbook) : option (list MarketSignal) :=
  match dataApi with
  | None => None
  | Some trades =>
      let volumeSignals :=
        match volume24hr market with
        | Some v24 =>
            if negb (Qeq_bool v24 0) && Qltb 0 (volume market) then
              let avgDaily := volume market / 7 in
              let ratio := v24 / avgDaily in
              if Qltb 2 ratio then
                [ {| sig_type := volume_surge;
                     severity := if Qltb 5 ratio then high
                                 else if Qltb 3 ratio then medium else low;
                     details := VolumeDetails v24 avgDaily ratio |} ]
              else []
            else []
        | None => []
        end in
      let ratio := imbalanceRatio (summary orderbook) in
      let depthSignals :=
        if Qltb 1.5 ratio || Qltb ratio 0.67 then
          [ {| sig_type := depth_imbalance;
               severity := if Qltb 3 ratio || Qltb ratio 0.33 then high else medium;
               details := DepthDetails ratio (totalBidDepth (summary orderbook))
                            (totalAskDepth (summary orderbook))
                            (if Qltb 1 ratio then BUY_PRESSURE else SELL_PRESSURE) |} ]
        else [] in
      let recentLargeTrades :=
        List.filter (fun t => Qltb 1000 (tr_size t * tr_price t)) trades in
      let whaleSignals :=
        map (fun t =>
               let value := tr_size t * tr_price t in
               {| sig_type := whale_trade;
                  severity := if Qltb 10000 value then high
                              else if Qltb 5000 value then medium else low;
                  details := WhaleDetails (tr_size t) (tr_price t) value
                               (tr_side t) (tr_outcome t) |})
            (firstn 3 recentLargeTrades) in
      Some (volumeSignals ++ depthSignals ++ whaleSignals)
  end.

(** What justifies a signal of [detectMarketSignals], by the details it
    carries. *)
Definition signalJustified (market : MarketVolume) (orderbook : ProcessedOrderbook)
    (trades : list Trade) (s : MarketSignal) : Prop :=
  match details s with
  | VolumeDetails v24 avg ratio =>
      sig_type s = volume_surge
      /\ volume24hr market = Some v24 /\ 0 < volume market
      /\ avg = volume market / 7 /\ ratio = v24 / avg /\ 2 < ratio
      /\ (severity s = high <-> 5 < ratio)
      /\ (severity s = low <-> ratio <= 3)
  | DepthDetails ratio b a dir =>
      sig_type s = depth_imbalance
      /\ ratio = imbalanceRatio (summary orderbook)
      /\ (1.5 < ratio \/ ratio < 0.67)
      /\ severity s <> low
      /\ (severity s = high <-> 3 < ratio \/ ratio < 0.33)
      /\ (dir = BUY_PRESSURE <-> 1.5 < ratio)
  | WhaleDetails sz p v sd oc =>
      sig_type s = whale_trade
      /\ (exists t, In t trades /\ sz = tr_size t /\ p = tr_price t
                    /\ sd = tr_side t /\ oc = tr_outcome t)
      /\ v = sz * p /\ 1000 < v
      /\ (severity s = high <-> 10000 < v)
      /\ (severity s = low <-> v <= 5000)
  end.

Definition isWhale (s : MarketSignal) : bool :=
  match sig_type s with whale_trade => true | _ => false end.

Definition isLargeTrade (t : Trade) : bool := Qltb 1000 (tr_size t * tr_price t).

(** [c] occurs in [s]. *)
Fixpoint hasChar (c : ascii) (s : string) : bool :=
  match s with
  | EmptyString => false
  | String x s' => Ascii.eqb x c || hasChar c s'
  end.

(** [DipArbDuration]: the minutes of a duration. *)
Definition durationMinutesOf (d : Duration) : Z :=
  match d with D5m => 5%Z | D15m => 15%Z end.

(** The details a whale-trade signal carries for the trade [t]. *)
Definition whaleDetailsOf (t : Trade) : SignalDetails :=
  WhaleDetails (tr_size t) (tr_price t) (tr_size t * tr_price t) (tr_side t)
    (tr_outcome t).

(** ** One tick of the redemption ticker, entry by entry *)






(** * The engine over binary64 numbers, split at its awaits

    The definitions above read a JavaScript number as an exact rational and
    run an [async] method in one step.  [Binary64] embeds the detection,
    round-management and execution code of [DipArbService], and the
    orderbook analytics of [market-service.ts], a second time:
      - a number is an IEEE-754 binary64 value ([PrimFloat.float]); [+], [-],
        [*], [/] round as in JavaScript, [a >= b] is [b <=? a], [a > b] is
        [b <? a], and a comparison with [NaN] is false;
      - [Date.now()] stays an integer ([Z]); it enters an arithmetic
        expression through [ofZ], which is exact below 2^53;
      - [executeLeg1] and [executeLeg2] are split where they [await] the
        order and the merge: the part before the [await] runs inside the
        handler that calls it, the part after it runs when the awaited call
        settles, on the instance as it is then.  An [await] of a promise
        that is already settled resumes before any other handler runs and
        is not a step of its own.
    The rotation and redemption fields of the instance are neither read nor
    written by this code and are left out of the record. *)

From Stdlib Require PrimFloat Uint63 FloatOps FloatAxioms SpecFloat.

Module Binary64.

Import PrimFloat.
#[local] Set Warnings "-inexact-float".
#[local] Open Scope float_scope.

(** ** JavaScript numbers *)

(** An integer number of milliseconds as a number. *)
Definition ofZ (z : Z) : float :=
  match z with
  | Z0 => 0
  | Zpos _ => of_uint63 (Uint63.of_Z z)
  | Zneg p => - of_uint63 (Uint63.of_Z (Zpos p))
  end.

(** [x || d] on numbers: [0], [-0] and [NaN] are falsy. *)
Definition num_or (x d : float) : float :=
  if (x =? 0) || is_nan x then d else x.

(** [Math.min(a, b)]: [NaN] if either is, and [-0] below [+0]. *)
Definition Math_min (a b : float) : float :=
  if is_nan a || is_nan b then nan
  else if a <? b then a
  else if b <? a then b
  else if get_sign a then a else b.

(** [Math.max(a, b)]: [NaN] if either is, and [+0] above [-0]. *)
Definition Math_max (a b : float) : float :=
  if is_nan a || is_nan b then nan
  else if a <? b then b
  else if b <? a then a
  else if get_sign a then b else a.

(** ** dip-arb-types.ts *)

Record DipArbConfigInternal := {
  shares : float;
  sumTarget : float;
  dipThreshold : float;
  windowMinutes : float;
  slidingWindowMs : float;
  maxSlippage : float;
  minProfitRate : float;
  leg2TimeoutSeconds : float;
  enableSurge : bool;
  surgeThreshold : float;
  autoMerge : bool;
  autoExecute : bool;
  executionCooldown : float;
  debug : bool
}.

Definition DEFAULT_DIP_ARB_CONFIG : DipArbConfigInternal := {|
  shares := 20;
  sumTarget := 0.95;
  dipThreshold := 0.15;
  windowMinutes := 2;
  slidingWindowMs := 3000;
  maxSlippage := 0.02;
  minProfitRate := 0.03;
  leg2TimeoutSeconds := 300;
  enableSurge := true;
  surgeThreshold := 0.15;
  autoMerge := true;
  autoExecute := false;
  executionCooldown := 3000;
  debug := false
|}.

Record DipArbLegInfo := {
  leg_side : DipArbSide;
  leg_price : float;
  leg_shares : float;
  leg_timestamp : Z;
  leg_tokenId : string
}.

Record DipArbRoundState := {
  roundId : RoundId;
  startTime : Z;
  round_endTime : Z;
  priceToBeat : float;
  openPrices_up : float;
  openPrices_down : float;
  phase : DipArbPhase;
  leg1 : option DipArbLegInfo;
  leg2 : option DipArbLegInfo;
  round_totalCost : option float;
  profit : option float
}.

Record BtcInfo := {
  btcPrice : float;
  btc_priceToBeat : float;
  btcChangePercent : float;
  estimatedWinRate : float
}.

Record DipArbLeg1Signal := {
  s1_roundId : RoundId;
  dipSide : DipArbSide;
  s1_currentPrice : float;
  openPrice : float;
  dropPercent : float;
  s1_targetPrice : float;
  s1_shares : float;
  s1_tokenId : string;
  oppositeAsk : float;
  estimatedTotalCost : float;
  estimatedProfitRate : float;
  source : SignalSource;
  btcInfo : option BtcInfo
}.

Record DipArbLeg2Signal := {
  s2_roundId : RoundId;
  hedgeSide : DipArbSide;
  s2_leg1 : DipArbLegInfo;
  s2_currentPrice : float;
  s2_targetPrice : float;
  totalCost : float;
  expectedProfitRate : float;
  s2_shares : float;
  s2_tokenId : string
}.

Inductive DipArbSignal :=
| Leg1Signal (s : DipArbLeg1Signal)
| Leg2Signal (s : DipArbLeg2Signal).

(** [orderId], [txHash] and [executionTimeMs] only report on the call and
    are left out of the results below. *)
Record DipArbExecutionResult := {
  ex_success : bool;
  ex_leg : LegLabel;
  ex_roundId : RoundId;
  ex_side : option DipArbSide;
  ex_price : option float;
  ex_shares : option float;
  ex_error : option string
}.

Record DipArbRoundResult := {
  rr_roundId : RoundId;
  rr_status : RoundStatus;
  rr_leg1 : option DipArbLegInfo;
  rr_leg2 : option DipArbLegInfo;
  rr_totalCost : option float;
  rr_profit : option float;
  rr_profitRate : option float;
  rr_merged : bool
}.

Record DipArbStats := {
  stats_startTime : Z;
  runningTimeMs : Z;
  roundsMonitored : nat;
  roundsCompleted : nat;
  roundsSuccessful : nat;
  roundsExpired : nat;
  signalsDetected : nat;
  leg1Filled : nat;
  leg2Filled : nat;
  totalSpent : float;
  totalProfit : float;
  avgProfitRate : float
}.

Record DipArbNewRoundEvent := {
  nr_roundId : RoundId;
  nr_priceToBeat : float;
  upOpen : float;
  downOpen : float;
  nr_startTime : Z;
  nr_endTime : Z
}.

Definition createDipArbInitialStats (now : Z) : DipArbStats := {|
  stats_startTime := now;
  runningTimeMs := 0;
  roundsMonitored := 0;
  roundsCompleted := 0;
  roundsSuccessful := 0;
  roundsExpired := 0;
  signalsDetected := 0;
  leg1Filled := 0;
  leg2Filled := 0;
  totalSpent := 0;
  totalProfit := 0;
  avgProfitRate := 0
|}.

Definition createDipArbRoundState (now : Z) (rid : RoundId)
    (ptb upPrice downPrice : float) (durationMin : Z) : DipArbRoundState := {|
  roundId := rid;
  startTime := now;
  round_endTime := (now + durationMin * 60 * 1000)%Z;
  priceToBeat := ptb;
  openPrices_up := upPrice;
  openPrices_down := downPrice;
  phase := waiting;
  leg1 := None;
  leg2 := None;
  round_totalCost := None;
  profit := None
|}.

(** [if (totalCost >= 1 || totalCost <= 0) return 0;
     return (1 - totalCost) / totalCost;] *)
Definition calculateDipArbProfitRate (cost : float) : float :=
  if (1 <=? cost) || (cost <=? 0) then 0 else (1 - cost) / cost.

Definition estimateUpWinRate (currentPrice ptb : float) : float :=
  if ptb <=? 0 then 0.5
  else
    let priceChange := (currentPrice - ptb) / ptb in
    let sensitivity := 10 in
    let winRateShift := priceChange * sensitivity in
    Math_max 0.05 (Math_min 0.95 (0.5 + winRateShift)).

Definition detectMispricing (tokenPrice estimated : float) : float :=
  estimated - tokenPrice.

(** ** The service instance *)

Record OrderbookLevel := { price : float; size : float }.

Record OrderbookSnapshot := {
  tokenId : string;
  bids : list OrderbookLevel;
  asks : list OrderbookLevel
}.

Record PricePoint := { timestamp : Z; upAsk : float; downAsk : float }.

Record DipArbService := {
  hasTradingService : bool;
  hasCtf : bool;
  config : DipArbConfigInternal;
  market : option DipArbMarketConfig;
  currentRound : option DipArbRoundState;
  isExecuting : bool;
  lastExecutionTime : Z;
  stats : DipArbStats;
  upAsks : list OrderbookLevel;
  downAsks : list OrderbookLevel;
  priceHistory : list PricePoint;
  currentUnderlyingPrice : float;
  leg1SignalEmitted : bool
}.

(** Field updates, one function per assigned field. *)

Definition set_roundsMonitored (v : nat) (r : DipArbStats) : DipArbStats :=
  {| stats_startTime := stats_startTime r; runningTimeMs := runningTimeMs r;
     roundsMonitored := v; roundsCompleted := roundsCompleted r;
     roundsSuccessful := roundsSuccessful r; roundsExpired := roundsExpired r;
     signalsDetected := signalsDetected r; leg1Filled := leg1Filled r;
     leg2Filled := leg2Filled r; totalSpent := totalSpent r;
     totalProfit := totalProfit r; avgProfitRate := avgProfitRate r |}.

Definition set_roundsCompleted (v : nat) (r : DipArbStats) : DipArbStats :=
  {| stats_startTime := stats_startTime r; runningTimeMs := runningTimeMs r;
     roundsMonitored := roundsMonitored r; roundsCompleted := v;
     roundsSuccessful := roundsSuccessful r; roundsExpired := roundsExpired r;
     signalsDetected := signalsDetected r; leg1Filled := leg1Filled r;
     leg2Filled := leg2Filled r; totalSpent := totalSpent r;
     totalProfit := totalProfit r; avgProfitRate := avgProfitRate r |}.

Definition set_roundsSuccessful (v : nat) (r : DipArbStats) : DipArbStats :=
  {| stats_startTime := stats_startTime r; runningTimeMs := runningTimeMs r;
     roundsMonitored := roundsMonitored r; roundsCompleted := roundsCompleted r;
     roundsSuccessful := v; roundsExpired := roundsExpired r;
     signalsDetected := signalsDetected r; leg1Filled := leg1Filled r;
     leg2Filled := leg2Filled r; totalSpent := totalSpent r;
     totalProfit := totalProfit r; avgProfitRate := avgProfitRate r |}.

Definition set_roundsExpired (v : nat) (r : DipArbStats) : DipArbStats :=
  {| stats_startTime := stats_startTime r; runningTimeMs := runningTimeMs r;
     roundsMonitored := roundsMonitored r; roundsCompleted := roundsCompleted r;
     roundsSuccessful := roundsSuccessful r; roundsExpired := v;
     signalsDetected := signalsDetected r; leg1Filled := leg1Filled r;
     leg2Filled := leg2Filled r; totalSpent := totalSpent r;
     totalProfit := totalProfit r; avgProfitRate := avgProfitRate r |}.

Definition set_signalsDetected (v : nat) (r : DipArbStats) : DipArbStats :=
  {| stats_startTime := stats_startTime r; runningTimeMs := runningTimeMs r;
     roundsMonitored := roundsMonitored r; roundsCompleted := roundsCompleted r;
     roundsSuccessful := roundsSuccessful r; roundsExpired := roundsExpired r;
     signalsDetected := v; leg1Filled := leg1Filled r; leg2Filled := leg2Filled r;
     totalSpent := totalSpent r; totalProfit := totalProfit r;
     avgProfitRate := avgProfitRate r |}.

Definition set_leg1Filled (v : nat) (r : DipArbStats) : DipArbStats :=
  {| stats_startTime := stats_startTime r; runningTimeMs := runningTimeMs r;
     roundsMonitored := roundsMonitored r; roundsCompleted := roundsCompleted r;
     roundsSuccessful := roundsSuccessful r; roundsExpired := roundsExpired r;
     signalsDetected := signalsDetected r; leg1Filled := v; leg2Filled := leg2Filled r;
     totalSpent := totalSpent r; totalProfit := totalProfit r;
     avgProfitRate := avgProfitRate r |}.

Definition set_leg2Filled (v : nat) (r : DipArbStats) : DipArbStats :=
  {| stats_startTime := stats_startTime r; runningTimeMs := runningTimeMs r;
     roundsMonitored := roundsMonitored r; roundsCompleted := roundsCompleted r;
     roundsSuccessful := roundsSuccessful r; roundsExpired := roundsExpired r;
     signalsDetected := signalsDetected r; leg1Filled := leg1Filled r; leg2Filled := v;
     totalSpent := totalSpent r; totalProfit := totalProfit r;
     avgProfitRate := avgProfitRate r |}.

Definition set_totalSpent (v : float) (r : DipArbStats) : DipArbStats :=
  {| stats_startTime := stats_startTime r; runningTimeMs := runningTimeMs r;
     roundsMonitored := roundsMonitored r; roundsCompleted := roundsCompleted r;
     roundsSuccessful := roundsSuccessful r; roundsExpired := roundsExpired r;
     signalsDetected := signalsDetected r; leg1Filled := leg1Filled r;
     leg2Filled := leg2Filled r; totalSpent := v; totalProfit := totalProfit r;
     avgProfitRate := avgProfitRate r |}.

Definition set_totalProfit (v : float) (r : DipArbStats) : DipArbStats :=
  {| stats_startTime := stats_startTime r; runningTimeMs := runningTimeMs r;
     roundsMonitored := roundsMonitored r; roundsCompleted := roundsCompleted r;
     roundsSuccessful := roundsSuccessful r; roundsExpired := roundsExpired r;
     signalsDetected := signalsDetected r; leg1Filled := leg1Filled r;
     leg2Filled := leg2Filled r; totalSpent := totalSpent r; totalProfit := v;
     avgProfitRate := avgProfitRate r |}.

Definition set_phase (v : DipArbPhase) (r : DipArbRoundState) : DipArbRoundState :=
  {| roundId := roundId r; startTime := startTime r; round_endTime := round_endTime r;
     priceToBeat := priceToBeat r; openPrices_up := openPrices_up r;
     openPrices_down := openPrices_down r; phase := v; leg1 := leg1 r; leg2 := leg2 r;
     round_totalCost := round_totalCost r; profit := profit r |}.

Definition set_leg1 (v : option DipArbLegInfo) (r : DipArbRoundState) : DipArbRoundState :=
  {| roundId := roundId r; startTime := startTime r; round_endTime := round_endTime r;
     priceToBeat := priceToBeat r; openPrices_up := openPrices_up r;
     openPrices_down := openPrices_down r; phase := phase r; leg1 := v; leg2 := leg2 r;
     round_totalCost := round_totalCost r; profit := profit r |}.

Definition set_leg2 (v : option DipArbLegInfo) (r : DipArbRoundState) : DipArbRoundState :=
  {| roundId := roundId r; startTime := startTime r; round_endTime := round_endTime r;
     priceToBeat := priceToBeat r; openPrices_up := openPrices_up r;
     openPrices_down := openPrices_down r; phase := phase r; leg1 := leg1 r; leg2 := v;
     round_totalCost := round_totalCost r; profit := profit r |}.

Definition set_round_totalCost (v : option float) (r : DipArbRoundState) : DipArbRoundState :=
  {| roundId := roundId r; startTime := startTime r; round_endTime := round_endTime r;
     priceToBeat := priceToBeat r; openPrices_up := openPrices_up r;
     openPrices_down := openPrices_down r; phase := phase r; leg1 := leg1 r;
     leg2 := leg2 r; round_totalCost := v; profit := profit r |}.

Definition set_profit (v : option float) (r : DipArbRoundState) : DipArbRoundState :=
  {| roundId := roundId r; startTime := startTime r; round_endTime := round_endTime r;
     priceToBeat := priceToBeat r; openPrices_up := openPrices_up r;
     openPrices_down := openPrices_down r; phase := phase r; leg1 := leg1 r;
     leg2 := leg2 r; round_totalCost := round_totalCost r; profit := v |}.

Definition set_config (v : DipArbConfigInternal) (r : DipArbService) : DipArbService :=
  {| hasTradingService := hasTradingService r; hasCtf := hasCtf r; config := v;
     market := market r; currentRound := currentRound r; isExecuting := isExecuting r;
     lastExecutionTime := lastExecutionTime r; stats := stats r; upAsks := upAsks r;
     downAsks := downAsks r; priceHistory := priceHistory r;
     currentUnderlyingPrice := currentUnderlyingPrice r;
     leg1SignalEmitted := leg1SignalEmitted r |}.

Definition set_market (v : option DipArbMarketConfig) (r : DipArbService) : DipArbService :=
  {| hasTradingService := hasTradingService r; hasCtf := hasCtf r; config := config r;
     market := v; currentRound := currentRound r; isExecuting := isExecuting r;
     lastExecutionTime := lastExecutionTime r; stats := stats r; upAsks := upAsks r;
     downAsks := downAsks r; priceHistory := priceHistory r;
     currentUnderlyingPrice := currentUnderlyingPrice r;
     leg1SignalEmitted := leg1SignalEmitted r |}.

Definition set_currentRound (v : option DipArbRoundState) (r : DipArbService) : DipArbService :=
  {| hasTradingService := hasTradingService r; hasCtf := hasCtf r; config := config r;
     market := market r; currentRound := v; isExecuting := isExecuting r;
     lastExecutionTime := lastExecutionTime r; stats := stats r; upAsks := upAsks r;
     downAsks := downAsks r; priceHistory := priceHistory r;
     currentUnderlyingPrice := currentUnderlyingPrice r;
     leg1SignalEmitted := leg1SignalEmitted r |}.

Definition set_isExecuting (v : bool) (r : DipArbService) : DipArbService :=
  {| hasTradingService := hasTradingService r; hasCtf := hasCtf r; config := config r;
     market := market r; currentRound := currentRound r; isExecuting := v;
     lastExecutionTime := lastExecutionTime r; stats := stats r; upAsks := upAsks r;
     downAsks := downAsks r; priceHistory := priceHistory r;
     currentUnderlyingPrice := currentUnderlyingPrice r;
     leg1SignalEmitted := leg1SignalEmitted r |}.

Definition set_lastExecutionTime (v : Z) (r : DipArbService) : DipArbService :=
  {| hasTradingService := hasTradingService r; hasCtf := hasCtf r; config := config r;
     market := market r; currentRound := currentRound r; isExecuting := isExecuting r;
     lastExecutionTime := v; stats := stats r; upAsks := upAsks r;
     downAsks := downAsks r; priceHistory := priceHistory r;
     currentUnderlyingPrice := currentUnderlyingPrice r;
     leg1SignalEmitted := leg1SignalEmitted r |}.

Definition set_stats (v : DipArbStats) (r : DipArbService) : DipArbService :=
  {| hasTradingService := hasTradingService r; hasCtf := hasCtf r; config := config r;
     market := market r; currentRound := currentRound r; isExecuting := isExecuting r;
     lastExecutionTime := lastExecutionTime r; stats := v; upAsks := upAsks r;
     downAsks := downAsks r; priceHistory := priceHistory r;
     currentUnderlyingPrice := currentUnderlyingPrice r;
     leg1SignalEmitted := leg1SignalEmitted r |}.

Definition set_upAsks (v : list OrderbookLevel) (r : DipArbService) : DipArbService :=
  {| hasTradingService := hasTradingService r; hasCtf := hasCtf r; config := config r;
     market := market r; currentRound := currentRound r; isExecuting := isExecuting r;
     lastExecutionTime := lastExecutionTime r; stats := stats r; upAsks := v;
     downAsks := downAsks r; priceHistory := priceHistory r;
     currentUnderlyingPrice := currentUnderlyingPrice r;
     leg1SignalEmitted := leg1SignalEmitted r |}.

Definition set_downAsks (v : list OrderbookLevel) (r : DipArbService) : DipArbService :=
  {| hasTradingService := hasTradingService r; hasCtf := hasCtf r; config := config r;
     market := market r; currentRound := currentRound r; isExecuting := isExecuting r;
     lastExecutionTime := lastExecutionTime r; stats := stats r; upAsks := upAsks r;
     downAsks := v; priceHistory := priceHistory r;
     currentUnderlyingPrice := currentUnderlyingPrice r;
     leg1SignalEmitted := leg1SignalEmitted r |}.

Definition set_priceHistory (v : list PricePoint) (r : DipArbService) : DipArbService :=
  {| hasTradingService := hasTradingService r; hasCtf := hasCtf r; config := config r;
     market := market r; currentRound := currentRound r; isExecuting := isExecuting r;
     lastExecutionTime := lastExecutionTime r; stats := stats r; upAsks := upAsks r;
     downAsks := downAsks r; priceHistory := v;
     currentUnderlyingPrice := currentUnderlyingPrice r;
     leg1SignalEmitted := leg1SignalEmitted r |}.

Definition set_currentUnderlyingPrice (v : float) (r : DipArbService) : DipArbService :=
  {| hasTradingService := hasTradingService r; hasCtf := hasCtf r; config := config r;
     market := market r; currentRound := currentRound r; isExecuting := isExecuting r;
     lastExecutionTime := lastExecutionTime r; stats := stats r; upAsks := upAsks r;
     downAsks := downAsks r; priceHistory := priceHistory r;
     currentUnderlyingPrice := v; leg1SignalEmitted := leg1SignalEmitted r |}.

Definition set_leg1SignalEmitted (v : bool) (r : DipArbService) : DipArbService :=
  {| hasTradingService := hasTradingService r; hasCtf := hasCtf r; config := config r;
     market := market r; currentRound := currentRound r; isExecuting := isExecuting r;
     lastExecutionTime := lastExecutionTime r; stats := stats r; upAsks := upAsks r;
     downAsks := downAsks r; priceHistory := priceHistory r;
     currentUnderlyingPrice := currentUnderlyingPrice r; leg1SignalEmitted := v |}.

Inductive Event :=
| EvNewRound (e : DipArbNewRoundEvent)
| EvSignal (s : DipArbSignal)
| EvExecution (r : DipArbExecutionResult)
| EvRoundComplete (r : DipArbRoundResult).

(** The instance right after the constructor and [start(m)], as far as the
    fields kept here go. *)
Definition started (now : Z) (trading ctf : bool) (m : DipArbMarketConfig)
    : DipArbService := {|
  hasTradingService := trading;
  hasCtf := ctf;
  config := DEFAULT_DIP_ARB_CONFIG;
  market := Some m;
  currentRound := None;
  isExecuting := false;
  lastExecutionTime := 0;
  stats := createDipArbInitialStats now;
  upAsks := [];
  downAsks := [];
  priceHistory := [];
  currentUnderlyingPrice := 0;
  leg1SignalEmitted := false
|}.

(** ** Orderbook state and the price-history ring *)

(** [asks[0]?.price ?? d] *)
Definition bestAsk (l : list OrderbookLevel) (d : float) : float :=
  match l with [] => d | lvl :: _ => price lvl end.

Definition sideBestAsk (st : DipArbService) (side : DipArbSide) (d : float) : float :=
  match side with
  | UP => bestAsk (upAsks st) d
  | DOWN => bestAsk (downAsks st) d
  end.

Definition recordPriceHistory (now : Z) (st : DipArbService) : DipArbService :=
  let up := bestAsk (upAsks st) 0 in
  let down := bestAsk (downAsks st) 0 in
  if (up <=? 0) || (down <=? 0) then st
  else
    let h := priceHistory st ++ [{| timestamp := now; upAsk := up; downAsk := down |}] in
    if (MAX_HISTORY_LENGTH <? length h)%nat
    then set_priceHistory (slice_last MAX_HISTORY_LENGTH h) st
    else set_priceHistory h st.

Definition sideAsk (side : DipArbSide) (e : PricePoint) : float :=
  match side with UP => upAsk e | DOWN => downAsk e end.

(** The loop [for (i = length - 1; i >= 0; i--)] of [getPriceFromHistory];
    [n] is [i + 1]. *)
Fixpoint scanHistory (h : list PricePoint) (targetTime : float) (side : DipArbSide)
    (n : nat) : option float :=
  match n with
  | O => None
  | S i =>
      match h !! i with
      | Some entry =>
          if ofZ (timestamp entry) <=? targetTime
          then Some (sideAsk side entry)
          else scanHistory h targetTime side i
      | None => scanHistory h targetTime side i
      end
  end.

Definition getPriceFromHistory (now : Z) (side : DipArbSide) (msAgo : float)
    (st : DipArbService) : option float :=
  let targetTime := ofZ now - msAgo in
  scanHistory (priceHistory st) targetTime side (length (priceHistory st)).

(** ** Round management *)

Definition checkAndStartNewRound (now : Z) (st : DipArbService)
    : DipArbService * list Event :=
  match market st with
  | None => (st, [])
  | Some m =>
      let needsNew :=
        match currentRound st with
        | None => true
        | Some r =>
            match phase r with
            | completed | expired => true
            | _ => false
            end
        end in
      if needsNew && (endTime m <=? now)%Z then (st, [])
      else
        let '(st1, ev1) :=
          if needsNew then
            let upPrice := bestAsk (upAsks st) 0.5 in
            let downPrice := bestAsk (downAsks st) 0.5 in
            let ptb := num_or (currentUnderlyingPrice st) 0 in
            let rid := (slug m, now) in
            let r := createDipArbRoundState now rid ptb upPrice downPrice
                       (durationMinutes m) in
            let s := set_currentRound (Some r) st in
            let s := set_priceHistory [] s in
            let s := set_leg1SignalEmitted false s in
            let s := set_stats
                       (set_roundsMonitored (S (roundsMonitored (stats s))) (stats s)) s in
            (s, [EvNewRound {| nr_roundId := rid; nr_priceToBeat := ptb;
                               upOpen := upPrice; downOpen := downPrice;
                               nr_startTime := startTime r;
                               nr_endTime := round_endTime r |}])
          else (st, []) in
        match currentRound st1 with
        | Some r =>
            match phase r with
            | leg1_filled =>
                let since :=
                  match leg1 r with
                  | Some l => int_or (leg_timestamp l) (startTime r)
                  | None => startTime r
                  end in
                let elapsed := ofZ (now - since) / 1000 in
                if leg2TimeoutSeconds (config st1) <? elapsed then
                  let s := set_currentRound (Some (set_phase expired r)) st1 in
                  let s := set_stats
                             (set_roundsExpired (S (roundsExpired (stats s))) (stats s)) s in
                  let s := set_stats
                             (set_roundsCompleted (S (roundsCompleted (stats s))) (stats s)) s in
                  (s, ev1 ++ [EvRoundComplete
                                {| rr_roundId := roundId r; rr_status := StExpired;
                                   rr_leg1 := leg1 r; rr_leg2 := None;
                                   rr_totalCost := None; rr_profit := None;
                                   rr_profitRate := None; rr_merged := false |}])
                else (st1, ev1)
            | _ => (st1, ev1)
            end
        | None => (st1, ev1)
        end
  end.

(** ** Signal detection *)

Definition createLeg1Signal (st : DipArbService) (side : DipArbSide)
    (price_ oppositeAsk_ : float) (src : SignalSource) (drop_ : float)
    (referencePrice : option float) : option DipArbLeg1Signal :=
  match currentRound st, market st with
  | Some r, Some m =>
      let targetPrice := price_ * (1 + maxSlippage (config st)) in
      let estTotal := targetPrice + oppositeAsk_ in
      let estRate := calculateDipArbProfitRate estTotal in
      let open_ :=
        match referencePrice with
        | Some p => p
        | None => match side with UP => openPrices_up r | DOWN => openPrices_down r end
        end in
      Some {|
        s1_roundId := roundId r;
        dipSide := side;
        s1_currentPrice := price_;
        openPrice := open_;
        dropPercent := drop_;
        s1_targetPrice := targetPrice;
        s1_shares := shares (config st);
        s1_tokenId := match side with UP => upTokenId m | DOWN => downTokenId m end;
        oppositeAsk := oppositeAsk_;
        estimatedTotalCost := estTotal;
        estimatedProfitRate := estRate;
        source := src;
        btcInfo :=
          if (0 <? priceToBeat r) && (0 <? currentUnderlyingPrice st) then
            Some {| btcPrice := currentUnderlyingPrice st;
                    btc_priceToBeat := priceToBeat r;
                    btcChangePercent :=
                      (currentUnderlyingPrice st - priceToBeat r) / priceToBeat r * 100;
                    estimatedWinRate :=
                      estimateUpWinRate (currentUnderlyingPrice st) (priceToBeat r) |}
          else None
      |}
  | _, _ => None
  end.

Definition validateSignalProfitability (st : DipArbService)
    (s : DipArbLeg1Signal) : bool :=
  if (s1_currentPrice s <=? 0) || (1 <=? s1_currentPrice s) then false
  else if dropPercent s <? dipThreshold (config st) then false
  else true.

(** [const signal = createLeg1Signal(...);
     if (signal && validateSignalProfitability(signal)) return signal;] *)
Definition validated (st : DipArbService) (o : option DipArbLeg1Signal)
    : option DipArbLeg1Signal :=
  match o with
  | Some s => if validateSignalProfitability st s then Some s else None
  | None => None
  end.

(** Pattern 1 for one side: the price [ago] of the sliding window against
    the current [price_]. *)
Definition dipPattern (st : DipArbService) (side : DipArbSide)
    (price_ opposite : float) (ago : option float) : option DipArbLeg1Signal :=
  match ago with
  | Some p =>
      if 0 <? p then
        let instantDrop := (p - price_) / p in
        if dipThreshold (config st) <=? instantDrop
        then validated st (createLeg1Signal st side price_ opposite dip instantDrop (Some p))
        else None
      else None
  | None => None
  end.

(** Pattern 2: a surge of one side buys the other side. *)
Definition surgePattern (st : DipArbService) (upPrice downPrice : float)
    (upAgo downAgo : option float) : option DipArbLeg1Signal :=
  match enableSurge (config st), upAgo, downAgo with
  | true, Some ua, Some da =>
      orElse
        (if 0 <? ua then
           let upSurge := (upPrice - ua) / ua in
           if surgeThreshold (config st) <=? upSurge
           then validated st (createLeg1Signal st DOWN downPrice upPrice surge upSurge (Some da))
           else None
         else None)
        (if 0 <? da then
           let downSurge := (downPrice - da) / da in
           if surgeThreshold (config st) <=? downSurge
           then validated st (createLeg1Signal st UP upPrice downPrice surge downSurge (Some ua))
           else None
         else None)
  | _, _, _ => None
  end.

(** Pattern 3: mispricing against the oracle price. *)
Definition mispricingPattern (st : DipArbService) (r : DipArbRoundState)
    (upPrice downPrice : float) : option DipArbLeg1Signal :=
  if (0 <? priceToBeat r) && (0 <? currentUnderlyingPrice st) then
    let est := estimateUpWinRate (currentUnderlyingPrice st) (priceToBeat r) in
    let upMispricing := detectMispricing upPrice est in
    let downMispricing := detectMispricing downPrice (1 - est) in
    orElse
      (if dipThreshold (config st) <=? upMispricing
       then validated st (createLeg1Signal st UP upPrice downPrice mispricing upMispricing None)
       else None)
      (if dipThreshold (config st) <=? downMispricing
       then validated st (createLeg1Signal st DOWN downPrice upPrice mispricing downMispricing None)
       else None)
  else None.

Definition detectLeg1Signal (now : Z) (st : DipArbService)
    : option DipArbLeg1Signal :=
  match currentRound st, market st with
  | Some r, Some _ =>
      let elapsed := ofZ (now - startTime r) / 60000 in
      if windowMinutes (config st) <? elapsed then None
      else
        let upPrice := bestAsk (upAsks st) 1 in
        let downPrice := bestAsk (downAsks st) 1 in
        if (1 <=? upPrice) || (1 <=? downPrice)
           || (openPrices_up r <=? 0) || (openPrices_down r <=? 0)
        then None
        else
          let upPriceAgo := getPriceFromHistory now UP (slidingWindowMs (config st)) st in
          let downPriceAgo := getPriceFromHistory now DOWN (slidingWindowMs (config st)) st in
          orElse (dipPattern st UP upPrice downPrice upPriceAgo)
         (orElse (dipPattern st DOWN downPrice upPrice downPriceAgo)
         (orElse (surgePattern st upPrice downPrice upPriceAgo downPriceAgo)
                 (mispricingPattern st r upPrice downPrice)))
  | _, _ => None
  end.

Definition detectLeg2Signal (st : DipArbService) : option DipArbLeg2Signal :=
  match currentRound st, market st with
  | Some r, Some m =>
      match leg1 r with
      | None => None
      | Some l1 =>
          let hedge := opposite (leg_side l1) in
          let currentPrice :=
            match hedge with
            | UP => bestAsk (upAsks st) 1
            | DOWN => bestAsk (downAsks st) 1
            end in
          if 1 <=? currentPrice then None
          else
            let targetPrice := currentPrice * (1 + maxSlippage (config st)) in
            let total := leg_price l1 + targetPrice in
            if sumTarget (config st) <? total then None
            else
              Some {|
                s2_roundId := roundId r;
                hedgeSide := hedge;
                s2_leg1 := l1;
                s2_currentPrice := currentPrice;
                s2_targetPrice := targetPrice;
                totalCost := total;
                expectedProfitRate := calculateDipArbProfitRate total;
                s2_shares := shares (config st);
                s2_tokenId := match hedge with UP => upTokenId m | DOWN => downTokenId m end
              |}
      end
  | _, _ => None
  end.

Definition detectSignal (now : Z) (st : DipArbService) : option DipArbSignal :=
  match currentRound st, market st with
  | Some r, Some _ =>
      match phase r with
      | waiting => option_map Leg1Signal (detectLeg1Signal now st)
      | leg1_filled => option_map Leg2Signal (detectLeg2Signal st)
      | _ => None
      end
  | _, _ => None
  end.

(** ** Execution, split at the awaits *)

Definition failedExecution (lbl : LegLabel) (rid : RoundId) (msg : string)
    : DipArbExecutionResult :=
  {| ex_success := false; ex_leg := lbl; ex_roundId := rid; ex_side := None;
     ex_price := None; ex_shares := None; ex_error := Some msg |}.

(** The leg a filled order records. *)
Definition leg1Fill (now : Z) (signal : DipArbLeg1Signal) : DipArbLegInfo :=
  {| leg_side := dipSide signal;
     leg_price := s1_targetPrice signal;
     leg_shares := s1_shares signal;
     leg_timestamp := now;
     leg_tokenId := s1_tokenId signal |}.

Definition leg2Fill (now : Z) (signal : DipArbLeg2Signal) : DipArbLegInfo :=
  {| leg_side := hedgeSide signal;
     leg_price := s2_targetPrice signal;
     leg_shares := s2_shares signal;
     leg_timestamp := now;
     leg_tokenId := s2_tokenId signal |}.

(** [executeLeg1] up to [await createMarketOrder(...)]: the result it
    returns at once, or the instance while the order is awaited. *)
Definition executeLeg1_begin (signal : DipArbLeg1Signal) (st : DipArbService)
    : DipArbExecutionResult + DipArbService :=
  match hasTradingService st, market st, currentRound st with
  | true, Some _, Some _ => inr (set_isExecuting true st)
  | _, _, _ =>
      inl (failedExecution LblLeg1 (s1_roundId signal)
             "Trading service not available or no active round")
  end.

(** [executeLeg1] from the moment the order settles: [st] is the instance
    at that moment and [this.currentRound] is read from it.  With no round
    the assignment throws and the [catch] clause answers. *)
Definition executeLeg1_settled (now : Z) (order : OrderOutcome)
    (signal : DipArbLeg1Signal) (st : DipArbService)
    : DipArbService * DipArbExecutionResult :=
  match order with
  | OrderFilled =>
      match currentRound st with
      | Some r =>
          let r' := set_phase leg1_filled (set_leg1 (Some (leg1Fill now signal)) r) in
          let s := set_currentRound (Some r') st in
          let s := set_stats (set_leg1Filled (S (leg1Filled (stats s))) (stats s)) s in
          let s := set_lastExecutionTime now s in
          (set_isExecuting false s,
           {| ex_success := true; ex_leg := LblLeg1; ex_roundId := s1_roundId signal;
              ex_side := Some (dipSide signal);
              ex_price := Some (s1_targetPrice signal);
              ex_shares := Some (s1_shares signal); ex_error := None |})
      | None =>
          (set_isExecuting false st,
           failedExecution LblLeg1 (s1_roundId signal) "exception")
      end
  | OrderFailed =>
      (set_isExecuting false st,
       failedExecution LblLeg1 (s1_roundId signal) "Order failed")
  | OrderThrew =>
      (set_isExecuting false st,
       failedExecution LblLeg1 (s1_roundId signal) "exception")
  end.

Definition executeLeg2_begin (signal : DipArbLeg2Signal) (st : DipArbService)
    : DipArbExecutionResult + DipArbService :=
  match hasTradingService st, market st, currentRound st with
  | true, Some _, Some _ => inr (set_isExecuting true st)
  | _, _, _ =>
      inl (failedExecution LblLeg2 (s2_roundId signal)
             "Trading service not available or no active round")
  end.

(** [leg?.shares || 0] *)
Definition legShares (l : option DipArbLegInfo) : float :=
  match l with Some i => num_or (leg_shares i) 0 | None => 0 end.

(** Whether [merge()] gets as far as [await this.ctf.merge(...)]; if not
    it returns at once. *)
Definition mergeAwaitsCtf (st : DipArbService) : bool :=
  match hasCtf st, market st, currentRound st with
  | true, Some _, Some r =>
      let shares := Math_min (legShares (leg1 r)) (legShares (leg2 r)) in
      negb (shares <=? 0)
  | _, _, _ => false
  end.

Definition leg2Success (signal : DipArbLeg2Signal) : DipArbExecutionResult :=
  {| ex_success := true; ex_leg := LblLeg2; ex_roundId := s2_roundId signal;
     ex_side := Some (hedgeSide signal);
     ex_price := Some (s2_targetPrice signal);
     ex_shares := Some (s2_shares signal); ex_error := None |}.

(** [executeLeg2] from the moment the order settles, up to its [return] or
    to the [await] inside [merge()]; in the second case no result is
    returned yet and [isExecuting] stays set.  [merge()] only reads the
    instance, and what it answers is written to the [roundResult] object
    after [roundComplete] has been emitted; the event below is the object
    as emitted. *)
Definition executeLeg2_settled (now : Z) (order : OrderOutcome)
    (signal : DipArbLeg2Signal) (st : DipArbService)
    : DipArbService * list Event * option DipArbExecutionResult :=
  match order with
  | OrderFilled =>
      match currentRound st with
      | Some r =>
          let pr := 1 - totalCost signal in
          let r' := set_profit (Some pr)
                      (set_round_totalCost (Some (totalCost signal))
                         (set_phase completed
                            (set_leg2 (Some (leg2Fill now signal)) r))) in
          let s := set_currentRound (Some r') st in
          let s := set_stats (set_leg2Filled (S (leg2Filled (stats s))) (stats s)) s in
          let s := set_stats
                     (set_roundsSuccessful (S (roundsSuccessful (stats s))) (stats s)) s in
          let s := set_stats
                     (set_totalProfit (totalProfit (stats s) + pr * s2_shares signal)
                        (stats s)) s in
          let s := set_stats
                     (set_totalSpent (totalSpent (stats s) + totalCost signal * s2_shares signal)
                        (stats s)) s in
          let s := set_lastExecutionTime now s in
          let ev := [EvRoundComplete
                       {| rr_roundId := s2_roundId signal; rr_status := StCompleted;
                          rr_leg1 := leg1 r'; rr_leg2 := leg2 r';
                          rr_totalCost := round_totalCost r'; rr_profit := profit r';
                          rr_profitRate :=
                            Some (calculateDipArbProfitRate (totalCost signal));
                          rr_merged := false |}] in
          if autoMerge (config s) && mergeAwaitsCtf s then (s, ev, None)
          else (set_isExecuting false s, ev, Some (leg2Success signal))
      | None =>
          (set_isExecuting false st, [],
           Some (failedExecution LblLeg2 (s2_roundId signal) "exception"))
      end
  | OrderFailed =>
      (set_isExecuting false st, [],
       Some (failedExecution LblLeg2 (s2_roundId signal) "Order failed"))
  | OrderThrew =>
      (set_isExecuting false st, [],
       Some (failedExecution LblLeg2 (s2_roundId signal) "exception"))
  end.

(** [executeLeg2] from the moment [ctf.merge] settles, whatever it did. *)
Definition executeLeg2_merged (signal : DipArbLeg2Signal) (st : DipArbService)
    : DipArbService * DipArbExecutionResult :=
  (set_isExecuting false st, leg2Success signal).

(** ** Signal handling and the orderbook handler *)

(** The call an execution started by [handleSignal] is waiting for. *)
Inductive Awaited :=
| Leg1Order (signal : DipArbLeg1Signal)
| Leg2Order (signal : DipArbLeg2Signal)
| Leg2Merge (signal : DipArbLeg2Signal).

(** [handleSignal] up to the first [await] that has to wait: the instance,
    the events emitted so far and the call now awaited, if any. *)
Definition handleSignal (now : Z) (signal : DipArbSignal) (st : DipArbService)
    : DipArbService * list Event * option Awaited :=
  let s := set_stats (set_signalsDetected (S (signalsDetected (stats st))) (stats st)) st in
  let ev := [EvSignal signal] in
  if autoExecute (config s) && negb (isExecuting s) then
    if executionCooldown (config s) <=? ofZ (now - lastExecutionTime s) then
      match signal with
      | Leg1Signal sg =>
          match executeLeg1_begin sg s with
          | inl res => (s, ev ++ [EvExecution res], None)
          | inr s' => (s', ev, Some (Leg1Order sg))
          end
      | Leg2Signal sg =>
          match executeLeg2_begin sg s with
          | inl res => (s, ev ++ [EvExecution res], None)
          | inr s' => (s', ev, Some (Leg2Order sg))
          end
      end
    else (s, ev, None)
  else (s, ev, None).

(** The rest of [handleSignal] when the awaited call [a] settles at [now]
    on the instance [st]; [order] is what [createMarketOrder] did (not
    looked at for a merge). *)
Definition handleSignal_resume (now : Z) (order : OrderOutcome) (a : Awaited)
    (st : DipArbService) : DipArbService * list Event * option Awaited :=
  match a with
  | Leg1Order sg =>
      let '(s, res) := executeLeg1_settled now order sg st in
      (s, [EvExecution res], None)
  | Leg2Order sg =>
      let '(s, ev, res) := executeLeg2_settled now order sg st in
      match res with
      | Some r => (s, ev ++ [EvExecution r], None)
      | None => (s, ev, Some (Leg2Merge sg))
      end
  | Leg2Merge sg =>
      let '(s, res) := executeLeg2_merged sg st in
      (s, [EvExecution res], None)
  end.

(** [if (isUpToken) this.upAsks = ...; else if (isDownToken) this.downAsks = ...] *)
Definition updateAsks (m : DipArbMarketConfig) (book : OrderbookSnapshot)
    (st : DipArbService) : DipArbService :=
  if String.eqb (tokenId book) (upTokenId m) then set_upAsks (asks book) st
  else if String.eqb (tokenId book) (downTokenId m) then set_downAsks (asks book) st
  else st.

(** The instance on which [detectSignal] runs during the delivery of
    [book]: asks stored, history recorded, round management done. *)
Definition afterRoundManagement (now : Z) (book : OrderbookSnapshot)
    (st : DipArbService) : DipArbService * list Event :=
  match market st with
  | None => (st, [])
  | Some m => checkAndStartNewRound now (recordPriceHistory now (updateAsks m book st))
  end.

(** [handleSignal(signal)] is called without [await]: the handler returns
    when [handleSignal] first waits. *)
Definition handleOrderbookUpdate (now : Z) (book : OrderbookSnapshot)
    (st : DipArbService) : DipArbService * list Event * option Awaited :=
  match market st with
  | None => (st, [], None)
  | Some m =>
      let s := updateAsks m book st in
      let s := recordPriceHistory now s in
      let '(s, ev1) := checkAndStartNewRound now s in
      match detectSignal now s with
      | Some signal =>
          let '(s', ev2, a) := handleSignal now signal s in
          (s', ev1 ++ ev2, a)
      | None => (s, ev1, None)
      end
  end.

(** ** Runs: deliveries and settlements in any order *)

Inductive Step :=
| Delivers (now : Z) (book : OrderbookSnapshot)
| Settles (now : Z) (order : OrderOutcome).

(** The instance together with the call awaited by the execution that
    [handleSignal] started, if one is under way ([handleSignal] starts none
    while [isExecuting] is set).  A settlement with nothing awaited does
    nothing. *)
Definition step (x : Step) (c : DipArbService * option Awaited)
    : DipArbService * option Awaited * list Event :=
  match x with
  | Delivers now book =>
      let '(s, ev, a) := handleOrderbookUpdate now book (fst c) in
      (s, orElse a (snd c), ev)
  | Settles now order =>
      match snd c with
      | Some a =>
          let '(s, ev, a') := handleSignal_resume now order a (fst c) in
          (s, a', ev)
      | None => (fst c, None, [])
      end
  end.

Fixpoint run (xs : list Step) (c : DipArbService * option Awaited)
    : DipArbService * option Awaited * list Event :=
  match xs with
  | [] => (c, [])
  | x :: rest =>
      let '(c1, ev1) := step x c in
      let '(c2, ev2) := run rest c1 in
      (c2, ev1 ++ ev2)
  end.

(** The signals among the emitted events, in order. *)
Definition signalsOf (evs : list Event) : list DipArbSignal :=
  flat_map (fun e => match e with EvSignal s => [s] | _ => [] end) evs.

(** ** What the specification calls the ring reference and a dip signal *)

(** [e] is the most recent entry of the price history with a timestamp at
    or before [now - slidingWindowMs]. *)
Definition ringReference (now : Z) (st : DipArbService) (e : PricePoint) : Prop :=
  let targetTime := ofZ now - slidingWindowMs (config st) in
  exists i : nat,
    priceHistory st !! i = Some e
    /\ (ofZ (timestamp e) <=? targetTime) = true
    /\ forall (j : nat) (e' : PricePoint),
         (i < j)%nat -> priceHistory st !! j = Some e' ->
         (ofZ (timestamp e') <=? targetTime) = false.

(** Inside the admission window, both best asks below 1, both open prices
    positive. *)
Definition admissible (now : Z) (st : DipArbService) (r : DipArbRoundState) : Prop :=
  (ofZ (now - startTime r) / 60000 <=? windowMinutes (config st)) = true
  /\ (bestAsk (upAsks st) 1 <? 1) = true
  /\ (bestAsk (downAsks st) 1 <? 1) = true
  /\ (0 <? openPrices_up r) = true
  /\ (0 <? openPrices_down r) = true.

(** The relative drop from [ref] to [cur], as the code computes it. *)
Definition instantDrop (ref cur : float) : float := (ref - cur) / ref.

(** The price [cur] dropped from [ref] by at least [dipThreshold]. *)
Definition dropped (st : DipArbService) (ref cur : float) : bool :=
  dipThreshold (config st) <=? instantDrop ref cur.

(** [s] is the dip signal for [side] bought at [cur] against the reference
    [ref], the other side asking [other]. *)
Definition isDipSignal (st : DipArbService) (side : DipArbSide)
    (ref cur other : float) (s : DipArbLeg1Signal) : Prop :=
  dipSide s = side
  /\ source s = dip
  /\ s1_currentPrice s = cur
  /\ openPrice s = ref
  /\ dropPercent s = instantDrop ref cur
  /\ s1_targetPrice s = cur * (1 + maxSlippage (config st))
  /\ oppositeAsk s = other
  /\ estimatedTotalCost s = s1_targetPrice s + other.

(** The forward moves of the phase within one round. *)
Inductive phase_step : DipArbPhase -> DipArbPhase -> Prop :=
| Leg1Fills : phase_step waiting leg1_filled
| Leg2Fills : phase_step leg1_filled completed
| Leg2TimesOut : phase_step leg1_filled expired.

(** ** market-service.ts: orderbook analytics *)

Record Orderbook := {
  ob_bids : list OrderbookLevel;
  ob_asks : list OrderbookLevel
}.

Record EffectivePrices := {
  effectiveBuyYes : float;
  effectiveBuyNo : float;
  effectiveSellYes : float;
  effectiveSellNo : float
}.

Record BookSide := {
  bs_bid : float;
  bs_ask : float;
  bidSize : float;
  askSize : float;
  bidDepth : float;
  askDepth : float;
  spread : float;
  bs_tokenId : option string
}.

Record OrderbookSummary := {
  askSum : float;
  bidSum : float;
  effectivePrices : EffectivePrices;
  effectiveLongCost : float;
  effectiveShortRevenue : float;
  longArbProfit : float;
  shortArbProfit : float;
  totalBidDepth : float;
  totalAskDepth : float;
  imbalanceRatio : float;
  yesSpread : float
}.

Record ProcessedOrderbook := {
  yes : BookSide;
  no : BookSide;
  summary : OrderbookSummary
}.

(** [levels[0]?.price || d] *)
Definition firstPrice (l : list OrderbookLevel) (d : float) : float :=
  match l with [] => d | lvl :: _ => num_or (price lvl) d end.

(** [levels[0]?.size || 0] *)
Definition firstSize (l : list OrderbookLevel) : float :=
  match l with [] => 0 | lvl :: _ => num_or (size lvl) 0 end.

(** [levels.reduce((sum, l) => sum + l.price * l.size, 0)] *)
Definition depth (l : list OrderbookLevel) : float :=
  fold_left (fun sum lvl => sum + price lvl * size lvl) l 0.

Definition processOrderbooks (yesBook noBook : Orderbook)
    (yesTokenId noTokenId : option string) : ProcessedOrderbook :=
  let yesBestBid := firstPrice (ob_bids yesBook) 0 in
  let yesBestAsk := firstPrice (ob_asks yesBook) 1 in
  let noBestBid := firstPrice (ob_bids noBook) 0 in
  let noBestAsk := firstPrice (ob_asks noBook) 1 in
  let yesBidDepth := depth (ob_bids yesBook) in
  let yesAskDepth := depth (ob_asks yesBook) in
  let noBidDepth := depth (ob_bids noBook) in
  let noAskDepth := depth (ob_asks noBook) in
  let eff := {|
    effectiveBuyYes := Math_min yesBestAsk (1 - noBestBid);
    effectiveBuyNo := Math_min noBestAsk (1 - yesBestBid);
    effectiveSellYes := Math_max yesBestBid (1 - noBestAsk);
    effectiveSellNo := Math_max noBestBid (1 - yesBestAsk) |} in
  let longCost := effectiveBuyYes eff + effectiveBuyNo eff in
  let shortRevenue := effectiveSellYes eff + effectiveSellNo eff in
  {| yes := {| bs_bid := yesBestBid; bs_ask := yesBestAsk;
               bidSize := firstSize (ob_bids yesBook);
               askSize := firstSize (ob_asks yesBook);
               bidDepth := yesBidDepth; askDepth := yesAskDepth;
               spread := yesBestAsk - yesBestBid; bs_tokenId := yesTokenId |};
     no := {| bs_bid := noBestBid; bs_ask := noBestAsk;
              bidSize := firstSize (ob_bids noBook);
              askSize := firstSize (ob_asks noBook);
              bidDepth := noBidDepth; askDepth := noAskDepth;
              spread := noBestAsk - noBestBid; bs_tokenId := noTokenId |};
     summary := {| askSum := yesBestAsk + noBestAsk;
                   bidSum := yesBestBid + noBestBid;
                   effectivePrices := eff;
                   effectiveLongCost := longCost;
                   effectiveShortRevenue := shortRevenue;
                   longArbProfit := 1 - longCost;
                   shortArbProfit := shortRevenue - 1;
                   totalBidDepth := yesBidDepth + noBidDepth;
                   totalAskDepth := yesAskDepth + noAskDepth;
                   imbalanceRatio :=
                     (yesBidDepth + noBidDepth) / (yesAskDepth + noAskDepth + 0.001);
                   yesSpread := yesBestAsk - yesBestBid |} |}.

(** The [action] text is assembled from the two effective prices it
    quotes; they are kept as numbers. *)
Record ArbitrageOpportunity := {
  arb_type : ArbitrageType;
  arb_profit : float;
  action : float * float;
  expectedProfit : float
}.

Definition DEFAULT_ARB_THRESHOLD : float := 0.005.

(** [orderbook] is what [getOrderbook(conditionId)] resolved with. *)
Definition detectArbitrage (orderbook : ProcessedOrderbook) (threshold : float)
    : option ArbitrageOpportunity :=
  let eff := effectivePrices (summary orderbook) in
  if threshold <? longArbProfit (summary orderbook) then
    Some {| arb_type := long;
            arb_profit := longArbProfit (summary orderbook);
            action := (effectiveBuyYes eff, effectiveBuyNo eff);
            expectedProfit := longArbProfit (summary orderbook) |}
  else if threshold <? shortArbProfit (summary orderbook) then
    Some {| arb_type := short;
            arb_profit := shortArbProfit (summary orderbook);
            action := (effectiveSellYes eff, effectiveSellNo eff);
            expectedProfit := shortArbProfit (summary orderbook) |}
  else None.

(** [calculateRealtimeSpread] *)
Record RealtimeSpreadAnalysis := {
  rs_timestamp : Z;
  yesBid : float;
  yesAsk : float;
  noBid : float;
  noAsk : float;
  rs_askSum : float;
  rs_bidSum : float;
  askSpread : float;
  bidSpread : float;
  rs_longArbProfit : float;
  rs_shortArbProfit : float;
  arbOpportunity : ArbOpportunity;
  arbProfitPercent : float
}.

Definition calculateRealtimeSpread (now : Z) (orderbook : ProcessedOrderbook)
    : RealtimeSpreadAnalysis :=
  let s := summary orderbook in
  let '(opp, pct) :=
    if 0.001 <? longArbProfit s then (ArbLONG, longArbProfit s * 100)
    else if 0.001 <? shortArbProfit s then (ArbSHORT, shortArbProfit s * 100)
    else (ArbNone, 0) in
  {| rs_timestamp := now;
     yesBid := bs_bid (yes orderbook); yesAsk := bs_ask (yes orderbook);
     noBid := bs_bid (no orderbook); noAsk := bs_ask (no orderbook);
     rs_askSum := askSum s; rs_bidSum := bidSum s;
     askSpread := askSum s - 1; bidSpread := bidSum s - 1;
     rs_longArbProfit := longArbProfit s; rs_shortArbProfit := shortArbProfit s;
     arbOpportunity := opp; arbProfitPercent := pct |}.

(** ** Well-formed rounds *)

(** The legs a round holds in each phase. *)
Definition roundConsistent (r : DipArbRoundState) : Prop :=
  match phase r with
  | waiting => leg1 r = None /\ leg2 r = None
  | leg1_filled | expired => leg1 r <> None /\ leg2 r = None
  | completed => leg1 r <> None /\ leg2 r <> None
  end.

End Binary64.
(** ** Concrete markets, books and instances used by the examples *)

Module Demo.

Definition btcMarket : DipArbMarketConfig := {|
  name := "Bitcoin Up or Down";
  slug := "btc-updown-15m-1767165300";
  conditionId := "0xbtc1";
  upTokenId := "up-1";
  downTokenId := "down-1";
  underlying := BTC;
  durationMinutes := 15;
  endTime := 900000
|}.

Definition ethMarket : DipArbMarketConfig := {|
  name := "Ethereum Up or Down";
  slug := "eth-updown-15m-1767166200";
  conditionId := "0xeth2";
  upTokenId := "up-2";
  downTokenId := "down-2";
  underlying := ETH;
  durationMinutes := 15;
  endTime := 1800000
|}.

Definition btcNext : DipArbMarketConfig := {|
  name := "Bitcoin Up or Down (next)";
  slug := "btc-updown-15m-1767166200";
  conditionId := "0xbtc2";
  upTokenId := "up-3";
  downTokenId := "down-3";
  underlying := BTC;
  durationMinutes := 15;
  endTime := 1800000
|}.

Definition upBook (p : Q) : OrderbookSnapshot :=
  {| tokenId := "up-1"; bids := []; asks := [{| price := p; size := 100 |}] |}.

Definition downBook (p : Q) : OrderbookSnapshot :=
  {| tokenId := "down-1"; bids := []; asks := [{| price := p; size := 100 |}] |}.

Definition emptyDownBook : OrderbookSnapshot :=
  {| tokenId := "down-1"; bids := []; asks := [] |}.

(** The instance after [start(m)] at time 0, with a trading service and a
    CTF client; the instance itself if [start] throws. *)
Definition started (m : DipArbMarketConfig) : DipArbService :=
  match start 0 m (new_DipArbService 0 true true) with
  | inr (s, _) => s
  | inl _ => new_DipArbService 0 true true
  end.

Definition withAutoExecute (st : DipArbService) : DipArbService :=
  let c := config st in
  set_config {| shares := shares c; sumTarget := sumTarget c;
                dipThreshold := dipThreshold c; windowMinutes := windowMinutes c;
                slidingWindowMs := slidingWindowMs c; maxSlippage := maxSlippage c;
                minProfitRate := minProfitRate c;
                leg2TimeoutSeconds := leg2TimeoutSeconds c;
                enableSurge := enableSurge c; surgeThreshold := surgeThreshold c;
                autoMerge := autoMerge c; autoExecute := true;
                executionCooldown := executionCooldown c; debug := debug c |} st.

(** The UP ask falls from 0.50 to 0.35 within 3.5 s of a round that opened
    at 0.50 / 0.50; the DOWN ask then moves. *)
Definition dipDeliveries (downAfter : Q) : list Delivery :=
  [ (1000%Z, OrderFilled, upBook 0.50);
    (1001%Z, OrderFilled, downBook 0.50);
    (4500%Z, OrderFilled, upBook 0.35);
    (4600%Z, OrderFilled, downBook downAfter) ].

(** Monitoring only (the default configuration). *)
Definition afterDip (downAfter : Q) : DipArbService * list Event :=
  handleOrderbookUpdates (dipDeliveries downAfter) (started btcMarket).

(** With [autoExecute]: Leg1 is bought at 4500. *)
Definition afterLeg1 : DipArbService :=
  fst (handleOrderbookUpdates
         [ (1000%Z, OrderFilled, upBook 0.50);
           (1001%Z, OrderFilled, downBook 0.50);
           (4500%Z, OrderFilled, upBook 0.35) ]
         (withAutoExecute (started btcMarket))).

(** ... and Leg2 at 8000, when the DOWN ask is [down]. *)
Definition afterLeg2 (down : Q) : DipArbService * list Event :=
  handleOrderbookUpdate 8000 OrderFilled (downBook down) afterLeg1.

(** A stale Leg1 signal of the completed round. *)
Definition staleLeg1Signal : DipArbLeg1Signal := {|
  s1_roundId := ("btc-updown-15m-1767165300"%string, 1000%Z);
  dipSide := UP;
  s1_currentPrice := 0.35;
  openPrice := 0.50;
  dropPercent := 0.30;
  s1_targetPrice := 0.357;
  s1_shares := 20;
  s1_tokenId := "up-1";
  oppositeAsk := 0.50;
  estimatedTotalCost := 0.857;
  estimatedProfitRate := calculateDipArbProfitRate 0.857;
  source := dip;
  btcInfo := None
|}.

(** A round opened while the oracle reads 100000; the oracle then reads
    101000 and the first complete pair of asks arrives 1 ms after the
    round opened. *)
Definition mispricedUpdate : DipArbService * list Event :=
  let s := handleChainlinkPriceUpdate "BTC/USD" 100000 (started btcMarket) in
  let s := fst (handleOrderbookUpdate 1000 OrderFilled (upBook 0.40) s) in
  let s := handleChainlinkPriceUpdate "BTC/USD" 101000 s in
  handleOrderbookUpdate 1001 OrderFilled (downBook 0.55) s.

Definition mispricedBefore : DipArbService :=
  let s := handleChainlinkPriceUpdate "BTC/USD" 100000 (started btcMarket) in
  let s := fst (handleOrderbookUpdate 1000 OrderFilled (upBook 0.40) s) in
  let s := handleChainlinkPriceUpdate "BTC/USD" 101000 s in
  recordPriceHistory 1001 (set_downAsks (asks (downBook 0.55)) s).




(** The instance on which the detector runs during the delivery [last]
    that follows the deliveries [ds]. *)
Definition beforeDetect (ds : list Delivery) (last : Delivery) : DipArbService :=
  let st := fst (handleOrderbookUpdates ds (started btcMarket)) in
  let '(now, _, book) := last in
  fst (checkAndStartNewRound now (recordPriceHistory now (updateAsks btcMarket book st))).

(** The UP ask falls to 0.35 while the DOWN ladder is empty. *)
Definition dipWithoutDownAsks : DipArbService :=
  beforeDetect [ (1000%Z, OrderFilled, upBook 0.50);
                 (1001%Z, OrderFilled, downBook 0.50);
                 (4400%Z, OrderFilled, emptyDownBook) ]
               (4500%Z, OrderFilled, upBook 0.35).

(** The UP ask falls to 0.35 and the DOWN ask rises to 0.70. *)
Definition dipWithExpensiveHedge : DipArbService :=
  beforeDetect [ (1000%Z, OrderFilled, upBook 0.50);
                 (1001%Z, OrderFilled, downBook 0.50);
                 (4500%Z, OrderFilled, upBook 0.35) ]
               (4600%Z, OrderFilled, downBook 0.70).

(** The UP ask falls to 0.35, the DOWN ask stays at 0.50. *)
Definition dipState : DipArbService :=
  beforeDetect [ (1000%Z, OrderFilled, upBook 0.50);
                 (1001%Z, OrderFilled, downBook 0.50) ]
               (4500%Z, OrderFilled, upBook 0.35).

(** The entry recorded at 1001. *)
Definition openingEntry : PricePoint :=
  {| timestamp := 1001; upAsk := 0.50; downAsk := 0.50 |}.

Definition withRotation (st : DipArbService) : DipArbService :=
  enableAutoRotate DEFAULT_AUTO_ROTATE_CONFIG st.

(** The instance of the completed round above with auto-rotation enabled,
    and the rotation tick that finds the market ended and a successor. *)
Definition rotating : DipArbService := withRotation (fst (afterLeg2 0.55)).

Definition afterRotation : DipArbService * list Event * option StartError :=
  checkRotation 900500 [btcNext] [btcNext] OrderFilled OrderFilled rotating.

Definition afterManualRotation
    : option DipArbMarketConfig * DipArbService * list Event * option StartError :=
  rotateToNextMarket 600000 [btcMarket; ethMarket; btcNext] rotating.

(** The round, market and Leg1 of an instance that has them. *)
Definition roundOf (st : DipArbService) : DipArbRoundState :=
  match currentRound st with
  | Some r => r
  | None => createDipArbRoundState 0 (EmptyString, 0%Z) 0 0 0 0
  end.

Definition marketOf (st : DipArbService) : DipArbMarketConfig :=
  match market st with Some m => m | None => btcMarket end.

Definition leg1Of (st : DipArbService) : DipArbLegInfo :=
  match leg1 (roundOf st) with
  | Some l => l
  | None => {| leg_side := UP; leg_price := 0; leg_shares := 0;
               leg_timestamp := 0; leg_tokenId := EmptyString |}
  end.

End Demo.


(** ** More instances for the examples *)

Module DemoExtra.

Import Demo.


(** The UP ask falls from 0.50 to 0.01 with [dipThreshold = 1]. *)
Definition fullThreshold : DipArbService :=
  let st := beforeDetect [ (1000%Z, OrderFilled, upBook 0.50);
                           (1001%Z, OrderFilled, downBook 0.50) ]
                         (4500%Z, OrderFilled, upBook 0.01) in
  let c := config st in
  set_config {| shares := shares c; sumTarget := sumTarget c;
                dipThreshold := 1; windowMinutes := windowMinutes c;
                slidingWindowMs := slidingWindowMs c; maxSlippage := maxSlippage c;
                minProfitRate := minProfitRate c;
                leg2TimeoutSeconds := leg2TimeoutSeconds c;
                enableSurge := enableSurge c; surgeThreshold := surgeThreshold c;
                autoMerge := autoMerge c; autoExecute := autoExecute c;
                executionCooldown := executionCooldown c; debug := debug c |} st.

(** The Leg2 of an instance that has one. *)
Definition leg2Of (st : DipArbService) : DipArbLegInfo :=
  match leg2 (roundOf st) with
  | Some l => l
  | None => {| leg_side := DOWN; leg_price := 0; leg_shares := 0;
               leg_timestamp := 0; leg_tokenId := EmptyString |}
  end.

(** Books with a long opportunity of 0.05. *)
Definition longYesBook : Orderbook :=
  {| ob_bids := [{| price := 0.40; size := 10 |}];
     ob_asks := [{| price := 0.45; size := 10 |}] |}.

Definition longNoBook : Orderbook :=
  {| ob_bids := [{| price := 0.45; size := 10 |}];
     ob_asks := [{| price := 0.50; size := 10 |}] |}.

(** Four large trades and a small one. *)
Definition someTrades : list Trade :=
  [ {| tr_size := 30000; tr_price := 0.5; tr_side := BUY; tr_outcome := "Up" |};
    {| tr_size := 100; tr_price := 0.5; tr_side := SELL; tr_outcome := "Up" |};
    {| tr_size := 4000; tr_price := 0.5; tr_side := SELL; tr_outcome := "Down" |};
    {| tr_size := 12000; tr_price := 0.5; tr_side := BUY; tr_outcome := "Down" |};
    {| tr_size := 50000; tr_price := 0.5; tr_side := BUY; tr_outcome := "Up" |} ].

(** An instance that was never started. *)
Definition idle : DipArbService := new_DipArbService 0 true true.

End DemoExtra.

(** ** The same markets over binary64 numbers *)

Module Demo64.

Import PrimFloat Binary64.
#[local] Set Warnings "-inexact-float".
#[local] Open Scope float_scope.

Definition upBook (p : float) : OrderbookSnapshot :=
  {| tokenId := "up-1"; bids := []; asks := [{| price := p; size := 100 |}] |}.

Definition downBook (p : float) : OrderbookSnapshot :=
  {| tokenId := "down-1"; bids := []; asks := [{| price := p; size := 100 |}] |}.

Definition withConfig (slippage target : float) (auto : bool) (st : DipArbService)
    : DipArbService :=
  let c := config st in
  set_config {| shares := shares c; sumTarget := target;
                dipThreshold := dipThreshold c; windowMinutes := windowMinutes c;
                slidingWindowMs := slidingWindowMs c; maxSlippage := slippage;
                minProfitRate := minProfitRate c;
                leg2TimeoutSeconds := leg2TimeoutSeconds c;
                enableSurge := enableSurge c; surgeThreshold := surgeThreshold c;
                autoMerge := autoMerge c; autoExecute := auto;
                executionCooldown := executionCooldown c; debug := debug c |} st.

(** The default configuration with [autoExecute], on the BTC market, with a
    trading service and a CTF client. *)
Definition trading : DipArbService :=
  withConfig 0.02 0.95 true (started 0 true true Demo.btcMarket).

(** Monitoring only. *)
Definition monitoring : DipArbService := started 0 true true Demo.btcMarket.

(** A round opens at 0.50 / 0.50, the UP ask falls to 0.35 within 3.5 s,
    the Leg1 order is placed and fills 10 ms later. *)
Definition leg1Steps : list Step :=
  [ Delivers 1000 (upBook 0.50);
    Delivers 1001 (downBook 0.50);
    Delivers 4500 (upBook 0.35);
    Settles 4510 OrderFilled ].

Definition afterLeg1 : DipArbService := fst (fst (run leg1Steps (trading, None))).

(** Leg1 held at 0.4 with no slippage allowed. *)
Definition holdingAt04 : DipArbService :=
  fst (fst (run [ Delivers 1000 (upBook 0.80);
                  Delivers 1001 (downBook 0.80);
                  Delivers 4500 (upBook 0.40);
                  Settles 4510 OrderFilled ]
                (withConfig 0 0.95 true (started 0 true true Demo.btcMarket), None))).

(** The instance once a round is open at 0.60 / 0.40. *)
Definition openAt06 : DipArbService :=
  fst (fst (run [ Delivers 1000 (upBook 0.60); Delivers 1001 (downBook 0.40) ]
                (monitoring, None))).

Definition openAt05 : DipArbService :=
  fst (fst (run [ Delivers 1000 (upBook 0.50); Delivers 1001 (downBook 0.50) ]
                (monitoring, None))).

(** The entries recorded at 1001. *)
Definition openingEntry : PricePoint :=
  {| timestamp := 1001; upAsk := 0.50; downAsk := 0.50 |}.

(** The Leg2 order is placed at 8000; before it settles the round times
    out (more than 300 s after Leg1) and, one update later, a new round
    opens; then the order fills. *)
Definition lateLeg2Steps : list Step :=
  [ Delivers 8000 (downBook 0.55);
    Delivers 400000 (downBook 0.55);
    Delivers 400001 (downBook 0.55);
    Settles 400002 OrderFilled ].

Definition roundOf (st : DipArbService) : DipArbRoundState :=
  match currentRound st with
  | Some r => r
  | None => createDipArbRoundState 0 (EmptyString, 0%Z) 0 0 0 0
  end.

Definition leg1Of (st : DipArbService) : DipArbLegInfo :=
  match leg1 (roundOf st) with
  | Some l => l
  | None => {| leg_side := UP; leg_price := 0; leg_shares := 0;
               leg_timestamp := 0; leg_tokenId := EmptyString |}
  end.

(** The Leg2 signal of a DOWN ask of 0.55 while Leg1 is held at 0.357. *)
Definition leg2SignalAt055 : DipArbLeg2Signal := {|
  s2_roundId := ("btc-updown-15m-1767165300"%string, 1000%Z);
  hedgeSide := DOWN;
  s2_leg1 := leg1Of afterLeg1;
  s2_currentPrice := 0.55;
  s2_targetPrice := 0.55 * (1 + 0.02);
  totalCost := 0.35 * (1 + 0.02) + 0.55 * (1 + 0.02);
  expectedProfitRate :=
    calculateDipArbProfitRate (0.35 * (1 + 0.02) + 0.55 * (1 + 0.02));
  s2_shares := 20;
  s2_tokenId := "down-1"
|}.

Definition book (bid ask : float) : Orderbook :=
  {| ob_bids := [{| price := bid; size := 10 |}];
     ob_asks := [{| price := ask; size := 10 |}] |}.

Definition asksOnly (ask : float) : Orderbook :=
  {| ob_bids := []; ob_asks := [{| price := ask; size := 10 |}] |}.

End Demo64.
(** * Properties *)

Lemma Qltb_lt (x y : Q) : Qltb x y = true <-> x < y.
Proof.
  unfold Qltb. rewrite negb_true_iff.
  destruct (Qle_bool y x) eqn:E.
  - apply Qle_bool_iff in E. split; [discriminate | lra].
  - split; [intros _ | reflexivity].
    destruct (Qlt_le_dec x y) as [L | L]; [exact L |].
    apply Qle_bool_iff in L. congruence.
Qed.

Lemma Qltb_ge (x y : Q) : Qltb x y = false <-> y <= x.
Proof.
  unfold Qltb. rewrite negb_false_iff. apply Qle_bool_iff.
Qed.

Lemma Qle_bool_gt (x y : Q) : Qle_bool x y = false <-> y < x.
Proof.
  rewrite <- Qltb_lt. unfold Qltb. rewrite negb_true_iff. reflexivity.
Qed.

(** Boolean tests on numbers as propositions. *)
Ltac qprop :=
  repeat match goal with
  | H : Qle_bool _ _ = true |- _ => apply Qle_bool_iff in H
  | H : Qle_bool _ _ = false |- _ => apply Qle_bool_gt in H
  | H : Qltb _ _ = true |- _ => apply Qltb_lt in H
  | H : Qltb _ _ = false |- _ => apply Qltb_ge in H
  | H : (_ || _)%bool = true |- _ => apply orb_true_iff in H
  | H : (_ || _)%bool = false |- _ => apply orb_false_iff in H; destruct H
  | H : (_ && _)%bool = true |- _ => apply andb_true_iff in H; destruct H
  end.

(** ** Orderbook analytics *)

Module MarketService.

(** Scenario 4 of the specification: a long opportunity of 0.05. *)
Example scenario_long_arbitrage :
  let yesBook := {| ob_bids := [{| price := 0.40; size := 10 |}];
                    ob_asks := [{| price := 0.45; size := 10 |}] |} in
  let noBook := {| ob_bids := [{| price := 0.45; size := 10 |}];
                   ob_asks := [{| price := 0.50; size := 10 |}] |} in
  let ob := processOrderbooks yesBook noBook None None in
  option_map arb_type (detectArbitrage ob DEFAULT_ARB_THRESHOLD) = Some long
  /\ longArbProfit (summary ob) == 0.05
  /\ option_map action (detectArbitrage ob DEFAULT_ARB_THRESHOLD) = Some (0.45, 0.50).
Proof. repeat split; reflexivity. Qed.

(** Scenario 6 of the specification: mirrored prices, no arbitrage. *)
Example scenario_effective_price_mirror :
  let yesBook := {| ob_bids := [{| price := 0.45; size := 10 |}];
                    ob_asks := [{| price := 0.60; size := 10 |}] |} in
  let noBook := {| ob_bids := [{| price := 0.35; size := 10 |}];
                   ob_asks := [{| price := 0.50; size := 10 |}] |} in
  let ob := processOrderbooks yesBook noBook None None in
  effectiveBuyYes (effectivePrices (summary ob)) = 0.60
  /\ effectiveBuyNo (effectivePrices (summary ob)) = 0.50
  /\ detectArbitrage ob DEFAULT_ARB_THRESHOLD = None.
Proof. repeat split; reflexivity. Qed.

(** An empty ask ladder, or a best ask of [0], counts as an ask of [1]; an
    empty bid ladder as a bid of [0]. *)
Lemma firstPrice_empty (d : Q) : firstPrice [] d = d.
Proof. reflexivity. Qed.

(** The default threshold of [detectArbitrage] is 0.005. *)
Lemma default_threshold : DEFAULT_ARB_THRESHOLD == 5 # 1000.
Proof. reflexivity. Qed.

End MarketService.

(** ** Leg2 admission *)

Module Leg2.

Import Demo.

Lemma calculateDipArbProfitRate_inside (c : Q) :
  0 < c -> c < 1 -> calculateDipArbProfitRate c = (1 - c) / c.
Proof.
  intros H0 H1. unfold calculateDipArbProfitRate.
  destruct (Qle_bool 1 c) eqn:A; qprop; [lra |].
  destruct (Qle_bool c 0) eqn:B; qprop; [lra | reflexivity].
Qed.

(** C1, as stated, fails on the code.  With Leg1 bought at 0.357 and a
    DOWN ask of 0.59 the sum 0.947 is within [sumTarget = 0.95], yet no
    signal is produced (0.357 + 0.59 * 1.02 = 0.9588); and with a DOWN ask
    of 0.55 the signal's [totalCost] is 0.918, not 0.357 + 0.55. *)
Lemma leg2_gate_uses_slippage_price :
  (let st := set_downAsks (asks (downBook 0.59)) afterLeg1 in
   let l1 := leg1Of st in
   option_map phase (currentRound st) = Some leg1_filled
   /\ option_map leg1 (currentRound st) = Some (Some l1)
   /\ leg2AskNow st l1 < 1
   /\ leg_price l1 + leg2AskNow st l1 <= sumTarget (config st)
   /\ detectSignal 8000 st = None)
  /\ (let st := set_downAsks (asks (downBook 0.55)) afterLeg1 in
      let l1 := leg1Of st in
      option_map leg1 (currentRound st) = Some (Some l1)
      /\ match detectSignal 8000 st with
         | Some (Leg2Signal s) =>
             totalCost s == 0.918
             /\ ~ totalCost s == leg_price l1 + leg2AskNow st l1
         | _ => False
         end).
Proof.
  vm_compute. repeat split; try discriminate.
Qed.

End Leg2.

(** ** Statistics counters *)

Module Statistics.

Import Demo.

(** C2.  The ordering roundsSuccessful <= roundsCompleted is not kept by a
    successful Leg2: [executeLeg2] increments [roundsSuccessful] and leaves
    [roundsCompleted] alone, while round expiry increments both
    [roundsExpired] and [roundsCompleted].  After one round that bought
    Leg1 at 4500 and Leg2 at 8000 the counters read monitored = 1,
    successful = 1, completed = 0. *)
Theorem successful_round_not_counted_completed :
  let st := fst (afterLeg2 0.55) in
  option_map phase (currentRound st) = Some completed
  /\ roundsMonitored (stats st) = 1%nat
  /\ roundsSuccessful (stats st) = 1%nat
  /\ roundsCompleted (stats st) = 0%nat
  /\ ~ (roundsSuccessful (stats st) <= roundsCompleted (stats st))%nat.
Proof.
  vm_compute. repeat split; lia.
Qed.

(** [executeLeg2] never changes [roundsCompleted] ... *)
Lemma executeLeg2_roundsCompleted (now : Z) (o : OrderOutcome)
    (sg : DipArbLeg2Signal) (st : DipArbService) :
  roundsCompleted (stats (fst (fst (executeLeg2 now o sg st))))
  = roundsCompleted (stats st).
Proof.
  unfold executeLeg2.
  destruct (hasTradingService st), (market st), (currentRound st), o; reflexivity.
Qed.

(** ... and a filled Leg2 order increments [roundsSuccessful]. *)
Lemma executeLeg2_roundsSuccessful (now : Z) (sg : DipArbLeg2Signal)
    (st : DipArbService) (m : DipArbMarketConfig) (r : DipArbRoundState) :
  hasTradingService st = true -> market st = Some m -> currentRound st = Some r ->
  roundsSuccessful (stats (fst (fst (executeLeg2 now OrderFilled sg st))))
  = S (roundsSuccessful (stats st)).
Proof.
  intros Ht Hm Hr. unfold executeLeg2. rewrite Ht, Hm, Hr. reflexivity.
Qed.

(** The sibling path: an expiring round is counted as completed. *)
Lemma expiry_counts_completed :
  let st := fst (handleOrderbookUpdate 305000 OrderFilled (downBook 0.70) afterLeg1) in
  option_map phase (currentRound st) = Some expired
  /\ roundsExpired (stats st) = 1%nat
  /\ roundsCompleted (stats st) = 1%nat
  /\ roundsSuccessful (stats st) = 0%nat.
Proof. vm_compute. repeat split. Qed.

End Statistics.

(** ** At most one Leg1 signal per round *)

Module Latch.

Import Demo.

(** C3.  Two consecutive orderbook updates of the same waiting round (the
    UP ask at 0.35 against 0.50 three seconds earlier, monitoring only) each
    emit a Leg1 signal for that round; [leg1SignalEmitted] is still false
    afterwards. *)
Theorem leg1_signal_emitted_twice :
  let '(st, evs) := afterDip 0.55 in
  let rid := ("btc-updown-15m-1767165300"%string, 1000%Z) in
  option_map roundId (currentRound st) = Some rid
  /\ option_map phase (currentRound st) = Some waiting
  /\ length (leg1SignalsOf rid evs) = 2%nat
  /\ signalsDetected (stats st) = 2%nat
  /\ roundsMonitored (stats st) = 1%nat
  /\ leg1SignalEmitted st = false.
Proof. vm_compute. repeat split. Qed.

(** No method sets the latch: the handler leaves it false. *)
Lemma handleSignal_latch (now : Z) (o : OrderOutcome) (sg : DipArbSignal)
    (st : DipArbService) :
  leg1SignalEmitted (fst (handleSignal now o sg st)) = leg1SignalEmitted st.
Proof.
  unfold handleSignal, executeLeg1, executeLeg2.
  destruct (autoExecute _ && negb _)%bool; [| reflexivity].
  destruct (Qle_bool _ _); [| reflexivity].
  destruct sg; simpl;
    destruct (hasTradingService st), (market st), (currentRound st), o; reflexivity.
Qed.

End Latch.

(** ** The phase of a round *)

Module Phase.

Import Demo.

(** Recording a price point touches the history only. *)
Lemma recordPriceHistory_frame (now : Z) (st : DipArbService) :
  currentRound (recordPriceHistory now st) = currentRound st
  /\ market (recordPriceHistory now st) = market st
  /\ stats (recordPriceHistory now st) = stats st.
Proof.
  unfold recordPriceHistory.
  destruct (_ || _)%bool; [auto |].
  destruct (_ <? _)%nat; auto.
Qed.

(** C5, as stated, fails on the code: the public [executeLeg1], called with
    a stale signal on the completed round of the run above, puts the round
    back into leg1_filled. *)
Lemma executeLeg1_reopens_completed_round :
  let st := fst (afterLeg2 0.55) in
  let st' := fst (executeLeg1 9000 OrderFilled staleLeg1Signal st) in
  option_map phase (currentRound st) = Some completed
  /\ option_map phase (currentRound st') = Some leg1_filled
  /\ option_map roundId (currentRound st') = option_map roundId (currentRound st)
  /\ phase_forward completed leg1_filled = false.
Proof. vm_compute. repeat split. Qed.

End Phase.

(** ** Leg1 admission *)

Module Leg1.

Import Demo.

(** *** The sliding-window lookup *)

Lemma scanHistory_none (h : list PricePoint) (t : Q) (side : DipArbSide) (n : nat) :
  Forall (fun e => t < inject_Z (timestamp e)) h ->
  scanHistory h t side n = None.
Proof.
  intros Hall. induction n as [| i IH]; [reflexivity |].
  simpl. destruct (h !! i) as [e |] eqn:E; [| exact IH].
  assert (He : t < inject_Z (timestamp e)).
  { rewrite Forall_forall in Hall. apply Hall.
    apply list_elem_of_lookup. exists i. exact E. }
  destruct (Qle_bool (inject_Z (timestamp e)) t) eqn:C; [qprop; lra | exact IH].
Qed.

(** ... and nothing when every entry is younger than the window. *)
Lemma getPriceFromHistory_none (now : Z) (side : DipArbSide) (st : DipArbService) :
  Forall (fun e => inject_Z now - slidingWindowMs (config st) < inject_Z (timestamp e))
         (priceHistory st) ->
  getPriceFromHistory now side (slidingWindowMs (config st)) st = None.
Proof. intros H. apply scanHistory_none. exact H. Qed.

(** Every recorded entry holds two positive asks. *)
Lemma recordPriceHistory_positive (now : Z) (st : DipArbService) :
  Forall (fun e => 0 < upAsk e /\ 0 < downAsk e) (priceHistory st) ->
  Forall (fun e => 0 < upAsk e /\ 0 < downAsk e)
         (priceHistory (recordPriceHistory now st)).
Proof.
  intros H. unfold recordPriceHistory.
  destruct (Qle_bool (bestAsk (upAsks st) 0) 0) eqn:A; [exact H |].
  destruct (Qle_bool (bestAsk (downAsks st) 0) 0) eqn:B; [exact H |].
  qprop. simpl.
  assert (H' : Forall (fun e => 0 < upAsk e /\ 0 < downAsk e)
                 (priceHistory st ++
                    [{| timestamp := now; upAsk := bestAsk (upAsks st) 0;
                        downAsk := bestAsk (downAsks st) 0 |}])).
  { apply Forall_app. split; [exact H |]. constructor; [| constructor]. simpl. auto. }
  destruct (_ <? _)%nat; simpl; [| exact H'].
  unfold slice_last. apply Forall_drop. exact H'.
Qed.

Lemma checkAndStartNewRound_history (now : Z) (st : DipArbService) :
  priceHistory (fst (checkAndStartNewRound now st)) = priceHistory st
  \/ priceHistory (fst (checkAndStartNewRound now st)) = [].
Proof.
  unfold checkAndStartNewRound.
  destruct (market st); [| auto].
  destruct (currentRound st) as [r |] eqn:Hr.
  - destruct (phase r) eqn:Hp; simpl.
    + rewrite Hr, Hp. auto.
    + rewrite Hr, Hp. destruct (Qltb _ _); simpl; auto.
    + destruct (_ <=? _)%Z; simpl; auto.
    + destruct (_ <=? _)%Z; simpl; auto.
  - simpl. destruct (_ <=? _)%Z; simpl; auto.
Qed.

Lemma handleSignal_history (now : Z) (o : OrderOutcome) (sg : DipArbSignal)
    (st : DipArbService) :
  priceHistory (fst (handleSignal now o sg st)) = priceHistory st.
Proof.
  unfold handleSignal, executeLeg1, executeLeg2.
  destruct (autoExecute _ && negb _)%bool; [| reflexivity].
  destruct (Qle_bool _ _); [| reflexivity].
  destruct sg; simpl;
    destruct (hasTradingService st), (market st), (currentRound st), o; reflexivity.
Qed.

(** On every instance the orderbook handler can reach, the ring holds
    positive asks only. *)
Lemma handleOrderbookUpdate_history_positive (now : Z) (o : OrderOutcome)
    (book : OrderbookSnapshot) (st : DipArbService) :
  Forall (fun e => 0 < upAsk e /\ 0 < downAsk e) (priceHistory st) ->
  Forall (fun e => 0 < upAsk e /\ 0 < downAsk e)
         (priceHistory (fst (handleOrderbookUpdate now o book st))).
Proof.
  intros H. unfold handleOrderbookUpdate.
  destruct (market st) as [m |]; [| exact H].
  assert (H0 : Forall (fun e => 0 < upAsk e /\ 0 < downAsk e)
                 (priceHistory (updateAsks m book st))).
  { unfold updateAsks. destruct (String.eqb _ _); [exact H |].
    destruct (String.eqb _ _); exact H. }
  apply (recordPriceHistory_positive now) in H0.
  destruct (checkAndStartNewRound_history now
              (recordPriceHistory now (updateAsks m book st))) as [E | E];
    destruct (checkAndStartNewRound now _) as [s ev1]; simpl in E;
    (destruct (detectSignal now s) as [sg |];
     [ pose proof (handleSignal_history now o sg s) as Hh;
       destruct (handleSignal now o sg s) as [s' ev2]; simpl in Hh |- *;
       rewrite Hh, E
     | simpl; rewrite E ]);
    first [exact H0 | constructor].
Qed.

(** *** The detector in the waiting phase *)

(** C4, as stated, fails on the code.  (a) The UP ask fell from 0.50 to
    0.35 against the ring reference, inside the admission window, but the
    DOWN ladder is empty: no signal.  (b) The same dip with a DOWN ask of
    0.70: the signal is emitted with estimatedTotalCost = 1.057 and
    estimatedProfitRate = 0, not (1 - 1.057) / 1.057. *)
Lemma dip_signal_guards_and_profit_rate :
  (let st := dipWithoutDownAsks in
   let up := bestAsk (upAsks st) 1 in
   option_map phase (currentRound st) = Some waiting
   /\ inject_Z (4500 - startTime (roundOf st)) / 60000 <= windowMinutes (config st)
   /\ ringReference 4500 st openingEntry
   /\ dropped st (upAsk openingEntry) up
   /\ 0 < up /\ up < 1
   /\ detectSignal 4500 st = None)
  /\ (let st := dipWithExpensiveHedge in
      match detectSignal 4600 st with
      | Some (Leg1Signal s) =>
          dipSide s = UP /\ source s = dip
          /\ estimatedTotalCost s == 1.057
          /\ estimatedProfitRate s == 0
          /\ ~ estimatedProfitRate s == (1 - estimatedTotalCost s) / estimatedTotalCost s
      | _ => False
      end).
Proof.
  split.
  - split; [vm_compute; reflexivity |].
    split; [vm_compute; discriminate |].
    split.
    { exists 0%nat. split; [vm_compute; reflexivity |].
      split; [vm_compute; discriminate |].
      intros j e' Hj He'. exfalso.
      destruct j as [| j]; [lia |]. vm_compute in He'. destruct j; discriminate. }
    split; [vm_compute; discriminate |].
    split; [vm_compute; reflexivity |].
    split; vm_compute; reflexivity.
  - vm_compute. repeat split; discriminate.
Qed.

(** *** No history reference *)

Lemma validated_source (st : DipArbService) (side : DipArbSide) (p o : Q)
    (src : SignalSource) (d : Q) (ref : option Q) (s : DipArbLeg1Signal) :
  validated st (createLeg1Signal st side p o src d ref) = Some s ->
  source s = src /\ dipSide s = side /\ dropPercent s = d.
Proof.
  unfold validated, createLeg1Signal.
  destruct (currentRound st), (market st); try discriminate.
  destruct (validateSignalProfitability _ _); [| discriminate].
  intros H. inversion H. simpl. auto.
Qed.

Lemma mispricingPattern_source (st : DipArbService) (r : DipArbRoundState)
    (up down : Q) (s : DipArbLeg1Signal) :
  mispricingPattern st r up down = Some s ->
  source s = mispricing
  /\ 0 < priceToBeat r /\ 0 < currentUnderlyingPrice st
  /\ dipThreshold (config st) <= dropPercent s.
Proof.
  unfold mispricingPattern.
  destruct (Qltb 0 (priceToBeat r)) eqn:A; [| discriminate].
  destruct (Qltb 0 (currentUnderlyingPrice st)) eqn:B; [| discriminate].
  simpl. qprop.
  destruct (Qle_bool _ (detectMispricing up _)) eqn:C.
  - destruct (validated st (createLeg1Signal st UP _ _ _ _ _)) as [s1 |] eqn:V.
    + simpl. intros H. inversion H; subst s1.
      destruct (validated_source _ _ _ _ _ _ _ _ V) as [H1 [_ H3]].
      rewrite H3. qprop. auto.
    + simpl.
      destruct (Qle_bool _ (detectMispricing down _)) eqn:D; [| discriminate].
      intros V2. destruct (validated_source _ _ _ _ _ _ _ _ V2) as [H1 [_ H3]].
      rewrite H3. qprop. auto.
  - simpl.
    destruct (Qle_bool _ (detectMispricing down _)) eqn:D; [| discriminate].
    intros V2. destruct (validated_source _ _ _ _ _ _ _ _ V2) as [H1 [_ H3]].
    rewrite H3. qprop. auto.
Qed.

(** C6, as stated, fails on the code: the only history entry is the one
    just recorded (age 0 < slidingWindowMs = 3000), and the detector
    returns a signal, from the mispricing pattern (oracle 101000 against a
    price-to-beat of 100000, UP asking 0.40). *)
Lemma mispricing_signal_without_history :
  let st := mispricedBefore in
  option_map phase (currentRound st) = Some waiting
  /\ Forall (fun e => inject_Z 1001 - slidingWindowMs (config st) < inject_Z (timestamp e))
            (priceHistory st)
  /\ getPriceFromHistory 1001 UP (slidingWindowMs (config st)) st = None
  /\ getPriceFromHistory 1001 DOWN (slidingWindowMs (config st)) st = None
  /\ match detectLeg1Signal 1001 st with
     | Some s => source s = mispricing /\ dipSide s = UP /\ dropPercent s == 0.2
     | None => False
     end.
Proof.
  split; [vm_compute; reflexivity |].
  split; [vm_compute; repeat constructor |].
  vm_compute. repeat split.
Qed.

(** C6 (amended).  If no price-history entry has a timestamp at or before
    now - slidingWindowMs, the waiting-phase detector produces no dip and
    no surge signal: it returns null or a signal of the mispricing
    pattern, and it returns null whenever the price-to-beat or the current
    oracle price is not positive. *)
Theorem no_reference_no_dip_or_surge (now : Z) (st : DipArbService) :
  Forall (fun e => inject_Z now - slidingWindowMs (config st) < inject_Z (timestamp e))
         (priceHistory st) ->
  (forall s, detectLeg1Signal now st = Some s ->
     source s = mispricing
     /\ exists r, currentRound st = Some r
          /\ 0 < priceToBeat r /\ 0 < currentUnderlyingPrice st
          /\ dipThreshold (config st) <= dropPercent s)
  /\ (forall r, currentRound st = Some r ->
        priceToBeat r <= 0 \/ currentUnderlyingPrice st <= 0 ->
        detectLeg1Signal now st = None).
Proof.
  intros Hall.
  assert (Hmain : forall s, detectLeg1Signal now st = Some s ->
            source s = mispricing
            /\ exists r, currentRound st = Some r
                 /\ 0 < priceToBeat r /\ 0 < currentUnderlyingPrice st
                 /\ dipThreshold (config st) <= dropPercent s).
  { intros s. unfold detectLeg1Signal.
    destruct (currentRound st) as [r |]; [| discriminate].
    destruct (market st); [| discriminate].
    destruct (Qltb _ _); [discriminate |].
    destruct (_ || _)%bool; [discriminate |].
    rewrite !(getPriceFromHistory_none now _ st Hall). simpl.
    unfold surgePattern.
    destruct (enableSurge (config st)); simpl; intros H;
      destruct (mispricingPattern_source st r _ _ s H) as [H1 H2];
      (split; [exact H1 | exists r; split; [reflexivity | exact H2]]). }
  split; [exact Hmain |].
  intros r Hr Hbad.
  destruct (detectLeg1Signal now st) as [s |] eqn:E; [| reflexivity].
  destruct (Hmain s eq_refl) as [_ [r' [Hr' [Hp [Hc _]]]]].
  rewrite Hr in Hr'. inversion Hr'; subst r'. lra.
Qed.

(** The theorem at the instance whose only entry was recorded 500 ms ago
    and that has no oracle price. *)
Lemma no_reference_no_dip_or_surge_witness :
  let st := beforeDetect [ (1000%Z, OrderFilled, upBook 0.50) ]
                         (1500%Z, OrderFilled, downBook 0.30) in
  detectLeg1Signal 1500 st = None.
Proof.
  intros st.
  assert (Hall : Forall (fun e => inject_Z 1500 - slidingWindowMs (config st)
                                  < inject_Z (timestamp e)) (priceHistory st))
    by (vm_compute; repeat constructor).
  destruct (no_reference_no_dip_or_surge 1500 st Hall) as [_ H].
  apply (H (roundOf st)); [vm_compute; reflexivity |].
  left. vm_compute. discriminate.
Defined.

End Leg1.

(** ** Pending redemptions *)

Module Redemption.

Import Demo.

Section OnePass.

Variable now : Z.
Variable ctf : DipArbPendingRedemption -> CtfOutcome.
Variable waitMs : Q.






End OnePass.


(** One entry without a CTF client: it always stays. *)
Lemma stepItem_without_ctf (now : Z) (ctf : DipArbPendingRedemption -> CtfOutcome)
    (waitMs : Q) (p : DipArbPendingRedemption) :
  exists p', stepItem now false ctf waitMs p = [p']
    /\ marketEndTime p' = marketEndTime p
    /\ (pastWait waitMs now p -> retryCount p' = S (retryCount p)).
Proof.
  unfold stepItem, processPending, pastWait.
  destruct (Qltb _ _) eqn:E; simpl.
  - exists p. split; [reflexivity |]. split; [reflexivity |].
    intros H. qprop. lra.
  - eexists. split; [reflexivity |]. simpl. auto.
Qed.

(** A removed entry was redeemed, or given up after more than 20
    attempts with a failed [settled] event. *)
Lemma processPending_remove (now : Z) (avail : bool)
    (ctf : DipArbPendingRedemption -> CtfOutcome) (waitMs : Q)
    (p : DipArbPendingRedemption) (r : DipArbSettleResult) :
  processPending now avail ctf waitMs p = Remove r ->
  pastWait waitMs now p /\ avail = true
  /\ ((exists ok usdc p', ctf p' = Redeemed ok usdc
         /\ st_success r = ok /\ amountReceived r = usdc)
      \/ ((20 < S (retryCount p))%nat /\ st_success r = false)).
Proof.
  unfold processPending, pastWait.
  destruct (Qltb _ _) eqn:W; [discriminate |]. qprop.
  destruct avail; simpl; [| discriminate].
  destruct (ctf _) eqn:C; simpl;
    try (destruct (20 <? S (retryCount p))%nat eqn:E; [| discriminate];
         intros H; inversion H; simpl;
         apply Nat.ltb_lt in E;
         split; [exact W |]; split; [reflexivity |]; right; auto; fail).
  intros H. inversion H. simpl.
  split; [exact W |]. split; [reflexivity |]. left.
  eexists. eexists. eexists. split; [exact C |]. split; reflexivity.
Qed.


















End Redemption.

(** ** Start, stop and rotation *)

Module Rotation.

Import Demo.

Lemma start_inr (now : Z) (m : DipArbMarketConfig) (st st' : DipArbService)
    (ev : list Event) :
  start now m st = inr (st', ev) ->
  stats st' = createDipArbInitialStats now
  /\ priceHistory st' = []
  /\ market st' = Some m
  /\ isRunning st' = true
  /\ ev = [EvStarted m].
Proof.
  unfold start.
  destruct (isRunning st); [discriminate |].
  destruct (_ || _)%bool; [discriminate |].
  intros H. inversion H. simpl. auto.
Qed.

Lemma stop_events (now : Z) (st : DipArbService) :
  existsb isRotate (snd (stop now st)) = false
  /\ isRunning (fst (stop now st)) = false.
Proof.
  unfold stop, stopRotateCheck. destruct (isRunning st) eqn:E; simpl; [| auto].
  destruct (rotateCheckInterval st); simpl;
    destruct (marketSubscription st); simpl;
    destruct (chainlinkSubscription st); simpl; auto.
Qed.

Lemma stopThenStart_inr (now : Z) (m : DipArbMarketConfig)
    (st st' : DipArbService) (ev : list Event) :
  stopThenStart now m st = inr (st', ev) ->
  stats st' = createDipArbInitialStats now
  /\ priceHistory st' = []
  /\ market st' = Some m
  /\ existsb isRotate ev = false.
Proof.
  unfold stopThenStart.
  destruct (stop_events now st) as [Hs _].
  destruct (stop now st) as [s ev1]. simpl in Hs.
  destruct (start now m s) as [e | [s' ev2]] eqn:E; [discriminate |].
  intros H. inversion H; subst st' ev.
  destruct (start_inr now m s s' ev2 E) as [H1 [H2 [H3 [_ H5]]]].
  repeat (split; [assumption |]).
  rewrite existsb_app, Hs, H5. reflexivity.
Qed.

(** After [stop], [start] cannot fail for being already running. *)
Lemma stopThenStart_error (now : Z) (m : DipArbMarketConfig)
    (st : DipArbService) (e : StartError) :
  stopThenStart now m st = inl e -> e = MissingTokenIds.
Proof.
  unfold stopThenStart.
  destruct (stop_events now st) as [_ Hr].
  destruct (stop now st) as [s ev1]. simpl in Hr.
  unfold start. rewrite Hr.
  destruct (_ || _)%bool; [| discriminate].
  intros H. inversion H. reflexivity.
Qed.

(** A rotation tick that emits [rotate] ends on the freshly started
    instance. *)
Lemma checkRotation_rotated (now : Z) (scanPreload scanSearch : list DipArbMarketConfig)
    (sell1 sell2 : OrderOutcome) (st st' : DipArbService) (ev : list Event)
    (err : option StartError) :
  checkRotation now scanPreload scanSearch sell1 sell2 st = (st', ev, err) ->
  existsb isRotate ev = true ->
  stats st' = createDipArbInitialStats now
  /\ priceHistory st' = []
  /\ err = None.
Proof.
  unfold checkRotation.
  destruct (enabled (autoRotateConfig st)); [| intros H; inversion H; discriminate].
  destruct (market st) as [m |]; [| intros H; inversion H; discriminate].
  set (s1 := match nextMarket st with
             | Some _ => st
             | None => _
             end).
  destruct (endTime m - now <=? 0)%Z; [| intros H; inversion H; discriminate].
  set (settled := match autoSettle (autoRotateConfig s1), currentRound s1 with
                  | true, Some r => _
                  | _, _ => _
                  end).
  assert (Hset : existsb isRotate (snd settled) = false).
  { unfold settled. destruct (autoSettle _); [| reflexivity].
    destruct (currentRound s1) as [r |]; [| reflexivity].
    destruct (leg1 r); [| reflexivity].
    destruct (settleStrategy _); reflexivity. }
  destruct settled as [s2 ev2]. simpl in Hset.
  assert (Hrot : forall newM s,
             match stopThenStart now newM s with
             | inl e => (fst (stop now s), ev2 ++ snd (stop now s), Some e)
             | inr (s', ev0) =>
                 (startRotateCheck s',
                  ev2 ++ ev0 ++ [EvRotate {| previousMarket := Some (conditionId m);
                                             newMarket := conditionId newM;
                                             reason := marketEnded;
                                             rot_timestamp := now |}],
                  None)
             end = (st', ev, err) ->
             existsb isRotate ev = true ->
             stats st' = createDipArbInitialStats now
             /\ priceHistory st' = [] /\ err = None).
  { intros newM s.
    destruct (stopThenStart now newM s) as [e | [s' ev0]] eqn:E.
    - intros H Hr. inversion H; subst.
      rewrite existsb_app, Hset in Hr.
      destruct (stop_events now s) as [Hs _]. rewrite Hs in Hr. discriminate.
    - intros H _. inversion H; subst.
      destruct (stopThenStart_inr now newM s s' ev0 E) as [H1 [H2 _]].
      simpl. auto. }
  destruct (nextMarket s2) as [newM |]; [apply Hrot |].
  destruct (findNextMarket scanSearch s2) as [newM |]; [apply Hrot |].
  intros H Hr. inversion H; subst.
  rewrite existsb_app, Hset in Hr.
  destruct (stop_events now s2) as [Hs _]. rewrite Hs in Hr. discriminate.
Qed.

(** C9.  Every successful start(market) resets the whole statistics record
    to its initial state (all counters and sums zero, startTime = now) and
    clears the price history, whatever they were; consequently the instance
    left by an auto-rotation (a rotation tick that emits rotate, having
    called stop and then start on the successor) carries none of the
    counters or profit accumulated on the previous market. *)
Theorem start_resets_statistics (now : Z) (st st' : DipArbService)
    (ev : list Event) :
  (forall m, start now m st = inr (st', ev) ->
     stats st' = createDipArbInitialStats now
     /\ priceHistory st' = []
     /\ stats_startTime (stats st') = now
     /\ roundsMonitored (stats st') = 0%nat
     /\ roundsCompleted (stats st') = 0%nat
     /\ roundsSuccessful (stats st') = 0%nat
     /\ roundsExpired (stats st') = 0%nat
     /\ signalsDetected (stats st') = 0%nat
     /\ leg1Filled (stats st') = 0%nat
     /\ leg2Filled (stats st') = 0%nat
     /\ totalSpent (stats st') = 0
     /\ totalProfit (stats st') = 0)
  /\ (forall scanPreload scanSearch sell1 sell2 err,
        checkRotation now scanPreload scanSearch sell1 sell2 st = (st', ev, err) ->
        existsb isRotate ev = true ->
        stats st' = createDipArbInitialStats now /\ priceHistory st' = []).
Proof.
  split.
  - intros m H. destruct (start_inr now m st st' ev H) as [H1 [H2 _]].
    rewrite H1. simpl. repeat split. exact H2.
  - intros sp ss s1 s2 err H Hr.
    destruct (checkRotation_rotated now sp ss s1 s2 st st' ev err H Hr) as [H1 [H2 _]].
    auto.
Qed.

(** The theorem at the rotation tick that follows the completed round: one
    successful round and 1.64 of profit before, nothing after. *)
Lemma start_resets_statistics_witness :
  (roundsSuccessful (stats rotating) = 1%nat
   /\ totalProfit (stats rotating) == 1.64)
  /\ stats (fst (fst afterRotation)) = createDipArbInitialStats 900500
  /\ priceHistory (fst (fst afterRotation)) = [].
Proof.
  split; [vm_compute; split; reflexivity |].
  destruct (start_resets_statistics 900500 rotating (fst (fst afterRotation))
              (snd (fst afterRotation))) as [_ H].
  apply (H [btcNext] [btcNext] OrderFilled OrderFilled (snd afterRotation));
    vm_compute; reflexivity.
Defined.

(** C10.  Every rotate event emitted by the manual rotateToNextMarket
    carries in previousMarket the conditionId of the market that has just
    been started, which is also its newMarket: the field is read from the
    instance after stop() and start(nextMarket). *)
Theorem manual_rotate_previous_is_new (now : Z) (scan : list DipArbMarketConfig)
    (st st' : DipArbService) (res : option DipArbMarketConfig)
    (ev : list Event) (err : option StartError) (e : DipArbRotateEvent) :
  rotateToNextMarket now scan st = (res, st', ev, err) ->
  In (EvRotate e) ev ->
  previousMarket e = Some (newMarket e)
  /\ option_map conditionId (market st') = Some (newMarket e)
  /\ option_map conditionId res = Some (newMarket e)
  /\ reason e = manual.
Proof.
  unfold rotateToNextMarket.
  destruct (negb _); [intros H; inversion H; subst; contradiction |].
  destruct (findNextMarket scan st) as [next |];
    [| intros H; inversion H; subst; contradiction].
  destruct (stopThenStart now next st) as [er | [s ev0]] eqn:E.
  - intros H Hin. inversion H; subst. exfalso.
    destruct (stop_events now st) as [Hs _].
    assert (Hc : existsb isRotate (snd (stop now st)) = true)
      by (apply existsb_exists; exists (EvRotate e); split; [exact Hin | reflexivity]).
    congruence.
  - intros H Hin. inversion H; subst.
    destruct (stopThenStart_inr now next st st' ev0 E) as [_ [_ [Hm Hno]]].
    apply in_app_or in Hin. destruct Hin as [Hin | Hin].
    + exfalso.
      assert (Hc : existsb isRotate ev0 = true)
        by (apply existsb_exists; exists (EvRotate e); split; [exact Hin | reflexivity]).
      congruence.
    + destruct Hin as [Hin | []]. inversion Hin; subst e. simpl.
      rewrite Hm. simpl. auto.
Qed.

(** The theorem at a manual rotation from the BTC market "0xbtc1" to its
    successor "0xbtc2": the event says previousMarket = "0xbtc2". *)
Lemma manual_rotate_previous_is_new_witness :
  option_map conditionId (market rotating) = Some "0xbtc1"%string
  /\ exists e, In (EvRotate e) (snd (fst afterManualRotation))
       /\ previousMarket e = Some "0xbtc2"%string
       /\ newMarket e = "0xbtc2"%string.
Proof.
  split; [vm_compute; reflexivity |].
  pose (e := {| previousMarket := Some "0xbtc2"%string; newMarket := "0xbtc2"%string;
                reason := manual; rot_timestamp := 600000 |}).
  assert (Hin : In (EvRotate e) (snd (fst afterManualRotation)))
    by (vm_compute; right; right; left; reflexivity).
  exists e. split; [exact Hin |].
  destruct (manual_rotate_previous_is_new 600000 [btcMarket; ethMarket; btcNext]
              rotating (snd (fst (fst afterManualRotation)))
              (fst (fst (fst afterManualRotation)))
              (snd (fst afterManualRotation)) (snd afterManualRotation) e)
    as [H _]; [vm_compute; reflexivity | exact Hin |].
  split; [exact H | reflexivity].
Defined.

End Rotation.

(** * Properties over binary64 numbers and awaited orders *)

(** ** The order of binary64 values *)

Module Float.

Import PrimFloat FloatOps.
#[local] Open Scope float_scope.

(** Swapping the arguments of a comparison mirrors its answer. *)
Lemma SFcompare_swap (a b : SpecFloat.spec_float) :
  SpecFloat.SFcompare b a = option_map CompOpp (SpecFloat.SFcompare a b).
Proof.
  destruct a as [sa | sa | | sa ma ea], b as [sb | sb | | sb mb eb]; simpl;
    try reflexivity;
    try (destruct sa; reflexivity);
    try (destruct sb; reflexivity);
    try (destruct sa, sb; reflexivity).
  destruct sa, sb; simpl; try reflexivity;
    rewrite (Z.compare_antisym ea eb);
    destruct (ea ?= eb)%Z; simpl; try reflexivity;
    rewrite (Pos.compare_cont_antisym ma mb Eq); simpl;
    try rewrite CompOpp_involutive; reflexivity.
Qed.

(** [x <= y] excludes [y < x]. *)
Lemma leb_ltb_false (x y : float) : (x <=? y) = true -> (y <? x) = false.
Proof.
  rewrite FloatAxioms.leb_spec, FloatAxioms.ltb_spec.
  unfold SpecFloat.SFleb, SpecFloat.SFltb.
  rewrite (SFcompare_swap (Prim2SF x) (Prim2SF y)).
  destruct (SpecFloat.SFcompare (Prim2SF x) (Prim2SF y)) as [[ | | ] |];
    simpl; congruence.
Qed.

(** [x < y] excludes [y <= x]. *)
Lemma ltb_leb_false (x y : float) : (x <? y) = true -> (y <=? x) = false.
Proof.
  rewrite FloatAxioms.leb_spec, FloatAxioms.ltb_spec.
  unfold SpecFloat.SFleb, SpecFloat.SFltb.
  rewrite (SFcompare_swap (Prim2SF x) (Prim2SF y)).
  destruct (SpecFloat.SFcompare (Prim2SF x) (Prim2SF y)) as [[ | | ] |];
    simpl; congruence.
Qed.








End Float.

(** ** One delivery of an orderbook snapshot *)

Module Update64.

Import PrimFloat Binary64.
#[local] Set Warnings "-inexact-float".
#[local] Open Scope float_scope.

Lemma profit_rate_inside (c : float) :
  (0 <? c) = true -> (c <? 1) = true -> calculateDipArbProfitRate c = (1 - c) / c.
Proof.
  intros H0 H1. unfold calculateDipArbProfitRate.
  rewrite (Float.ltb_leb_false c 1 H1), (Float.ltb_leb_false 0 c H0). reflexivity.
Qed.

Lemma profit_rate_outside (c : float) :
  (c <=? 0) = true \/ (1 <=? c) = true -> calculateDipArbProfitRate c = 0.
Proof.
  intros [H | H]; unfold calculateDipArbProfitRate; rewrite H;
    [rewrite orb_true_r |]; reflexivity.
Qed.

Lemma updateAsks_keeps (m : DipArbMarketConfig) (book : OrderbookSnapshot)
    (st : DipArbService) :
  market (updateAsks m book st) = market st
  /\ config (updateAsks m book st) = config st
  /\ currentRound (updateAsks m book st) = currentRound st.
Proof.
  unfold updateAsks.
  destruct (String.eqb (tokenId book) (upTokenId m)); [auto |].
  destruct (String.eqb (tokenId book) (downTokenId m)); auto.
Qed.

Lemma recordPriceHistory_keeps (now : Z) (st : DipArbService) :
  market (recordPriceHistory now st) = market st
  /\ config (recordPriceHistory now st) = config st
  /\ currentRound (recordPriceHistory now st) = currentRound st
  /\ upAsks (recordPriceHistory now st) = upAsks st
  /\ downAsks (recordPriceHistory now st) = downAsks st.
Proof.
  unfold recordPriceHistory.
  destruct ((bestAsk (upAsks st) 0 <=? 0) || (bestAsk (downAsks st) 0 <=? 0));
    [repeat split |].
  destruct (MAX_HISTORY_LENGTH <? _)%nat; repeat split.
Qed.

(** Round management changes neither the market nor the configuration
    nor the ladders, and emits no signal. *)
Lemma checkAndStartNewRound_keeps (now : Z) (st : DipArbService) :
  market (fst (checkAndStartNewRound now st)) = market st
  /\ config (fst (checkAndStartNewRound now st)) = config st
  /\ upAsks (fst (checkAndStartNewRound now st)) = upAsks st
  /\ downAsks (fst (checkAndStartNewRound now st)) = downAsks st
  /\ signalsOf (snd (checkAndStartNewRound now st)) = [].
Proof.
  unfold checkAndStartNewRound.
  destruct (market st) as [m |] eqn:Hm; [| simpl; rewrite Hm; repeat split].
  destruct (currentRound st) as [r |] eqn:Hr.
  - destruct (phase r) eqn:Hp; simpl.
    + rewrite Hr, Hp. simpl. rewrite Hm. repeat split.
    + rewrite Hr, Hp.
      destruct (leg2TimeoutSeconds (config st) <? _); simpl; rewrite Hm; repeat split.
    + destruct (endTime m <=? now)%Z; simpl; rewrite Hm; repeat split.
    + destruct (endTime m <=? now)%Z; simpl; rewrite Hm; repeat split.
  - simpl. destruct (endTime m <=? now)%Z; simpl; rewrite Hm; repeat split.
Qed.

Lemma afterRoundManagement_keeps (now : Z) (book : OrderbookSnapshot)
    (st : DipArbService) :
  market (fst (afterRoundManagement now book st)) = market st
  /\ config (fst (afterRoundManagement now book st)) = config st.
Proof.
  unfold afterRoundManagement. destruct (market st) as [m |] eqn:Hm; [| auto].
  destruct (checkAndStartNewRound_keeps now
              (recordPriceHistory now (updateAsks m book st))) as [A [B _]].
  destruct (recordPriceHistory_keeps now (updateAsks m book st)) as [C [D _]].
  destruct (updateAsks_keeps m book st) as [E [F _]].
  rewrite A, B, C, D, E, F. auto.
Qed.

Lemma signals_append (a b : list Event) :
  signalsOf (a ++ b) = signalsOf a ++ signalsOf b.
Proof. unfold signalsOf. apply flat_map_app. Qed.

(** [handleSignal] emits its signal once, whatever it executes. *)
Lemma handleSignal_emits_once (now : Z) (sg : DipArbSignal) (st : DipArbService) :
  signalsOf (snd (fst (handleSignal now sg st))) = [sg].
Proof.
  unfold handleSignal, executeLeg1_begin, executeLeg2_begin. cbn [config set_stats].
  destruct (autoExecute (config st) && negb (isExecuting _))%bool; [| reflexivity].
  destruct (executionCooldown (config st) <=? _); [| reflexivity].
  destruct sg; cbn [hasTradingService market currentRound set_stats];
    destruct (hasTradingService st), (market st), (currentRound st); reflexivity.
Qed.

(** The signals a delivery emits are what [detectSignal] finds after the
    round management of that delivery. *)
Lemma signals_of_update (now : Z) (book : OrderbookSnapshot) (st : DipArbService) :
  market st <> None ->
  signalsOf (snd (fst (handleOrderbookUpdate now book st)))
  = match detectSignal now (fst (afterRoundManagement now book st)) with
    | Some s => [s]
    | None => []
    end.
Proof.
  intros Hm. unfold handleOrderbookUpdate, afterRoundManagement.
  destruct (market st) as [m |]; [| contradiction].
  destruct (checkAndStartNewRound_keeps now
              (recordPriceHistory now (updateAsks m book st))) as [_ [_ [_ [_ Hs]]]].
  destruct (checkAndStartNewRound now (recordPriceHistory now (updateAsks m book st)))
    as [s ev1].
  simpl in Hs |- *.
  destruct (detectSignal now s) as [sg |]; [| exact Hs].
  pose proof (handleSignal_emits_once now sg s) as Hh.
  destruct (handleSignal now sg s) as [[s' ev2] a]. simpl in Hh |- *.
  rewrite signals_append, Hs, Hh. reflexivity.
Qed.

End Update64.

(** ** Leg2 admission *)

Module Leg2Gate.

Import PrimFloat Binary64 Demo64.
#[local] Set Warnings "-inexact-float".
#[local] Open Scope float_scope.

(** At the boundary the test follows binary64 addition: with Leg1 held at
    0.4, no slippage allowed and a DOWN ask of 0.55, the cost computed is
    0.9500000000000001, above [sumTarget = 0.95], and no signal is
    emitted. *)
Example leg2_gate_at_the_boundary :
  let st := holdingAt04 in
  leg_price (leg1Of st) = 0.4
  /\ maxSlippage (config st) = 0
  /\ sumTarget (config st) = 0.95
  /\ (0.95 <? 0.4 + 0.55 * (1 + 0)) = true
  /\ signalsOf (snd (fst (handleOrderbookUpdate 8000 (downBook 0.55) st))) = [].
Proof. vm_compute. repeat split; reflexivity. Qed.

(** C1 (amended).  In the leg1_filled phase, for every orderbook update
    (after the round management of that update), with ask the hedge side's
    best ask (1 for an empty ladder), targetPrice = ask * (1 + maxSlippage)
    and totalCost = leg1.price + targetPrice computed in binary64: a Leg2
    signal is emitted iff neither ask >= 1 nor totalCost > sumTarget holds,
    and nothing is emitted otherwise; in particular it is emitted when ask
    < 1 and totalCost <= sumTarget.  The signal carries currentPrice = ask,
    targetPrice, totalCost, and expectedProfitRate = (1 - totalCost) /
    totalCost when 0 < totalCost < 1 and 0 when totalCost <= 0 or
    totalCost >= 1. *)
Theorem leg2_signal_on_update (now : Z) (book : OrderbookSnapshot)
    (st : DipArbService) (r : DipArbRoundState) (l1 : DipArbLegInfo) :
  market st <> None ->
  let s1 := fst (afterRoundManagement now book st) in
  currentRound s1 = Some r -> phase r = leg1_filled -> leg1 r = Some l1 ->
  let ask := sideBestAsk s1 (opposite (leg_side l1)) 1 in
  let target := ask * (1 + maxSlippage (config st)) in
  let total := leg_price l1 + target in
  let emitted := signalsOf (snd (fst (handleOrderbookUpdate now book st))) in
  ((exists s, emitted = [Leg2Signal s])
   <-> (1 <=? ask) = false /\ (sumTarget (config st) <? total) = false)
  /\ (emitted = []
      <-> (1 <=? ask) = true \/ (sumTarget (config st) <? total) = true)
  /\ ((ask <? 1) = true -> (total <=? sumTarget (config st)) = true ->
      exists s, emitted = [Leg2Signal s])
  /\ (forall sg, In sg emitted ->
        exists s, sg = Leg2Signal s
          /\ s2_roundId s = roundId r
          /\ hedgeSide s = opposite (leg_side l1)
          /\ s2_leg1 s = l1
          /\ s2_currentPrice s = ask
          /\ s2_targetPrice s = target
          /\ totalCost s = total
          /\ s2_shares s = shares (config st)
          /\ ((0 <? total) = true -> (total <? 1) = true ->
              expectedProfitRate s = (1 - total) / total)
          /\ ((total <=? 0) = true \/ (1 <=? total) = true ->
              expectedProfitRate s = 0)).
Proof.
  intros Hm s1 Hr Hp Hl ask target total emitted.
  pose proof (Update64.signals_of_update now book st Hm) as E.
  fold s1 in E. fold emitted in E.
  destruct (Update64.afterRoundManagement_keeps now book st) as [Fm Fc].
  fold s1 in Fm, Fc.
  destruct (market st) as [m |] eqn:Hm0; [| contradiction].
  unfold detectSignal in E. rewrite Hr, Fm, Hp in E.
  unfold detectLeg2Signal in E. rewrite Hr, Fm, Hl, Fc in E.
  change (match opposite (leg_side l1) with
          | UP => bestAsk (upAsks s1) 1
          | DOWN => bestAsk (downAsks s1) 1
          end) with ask in E.
  fold target in E. fold total in E.
  destruct (1 <=? ask) eqn:A;
    [| destruct (sumTarget (config st) <? total) eqn:B]; simpl in E; rewrite E.
  - split; [split; [intros [s H]; discriminate | intros [H _]; discriminate] |].
    split; [split; [auto | reflexivity] |].
    split; [| intros sg []].
    intros H1 _. rewrite (Float.ltb_leb_false ask 1 H1) in A. discriminate.
  - split; [split; [intros [s H]; discriminate | intros [_ H]; discriminate] |].
    split; [split; [auto | reflexivity] |].
    split; [| intros sg []].
    intros _ H2. rewrite (Float.leb_ltb_false total _ H2) in B. discriminate.
  - split; [split; [auto | intros _; eexists; reflexivity] |].
    split; [split; [discriminate | intros [H | H]; discriminate] |].
    split; [intros _ _; eexists; reflexivity |].
    intros sg [<- | []]. eexists. split; [reflexivity |]. simpl.
    repeat (split; [reflexivity |]).
    split; [apply Update64.profit_rate_inside | apply Update64.profit_rate_outside].
Qed.

(** The theorem at the update that delivers a DOWN ask of 0.55 while Leg1
    is held at 0.357: the signal is emitted. *)
Lemma leg2_signal_on_update_witness :
  exists s,
    signalsOf (snd (fst (handleOrderbookUpdate 8000 (downBook 0.55) afterLeg1)))
    = [Leg2Signal s].
Proof.
  apply (leg2_signal_on_update 8000 (downBook 0.55) afterLeg1
           (roundOf (fst (afterRoundManagement 8000 (downBook 0.55) afterLeg1)))
           (leg1Of afterLeg1));
    [vm_compute; discriminate | vm_compute; reflexivity .. ].
Defined.

End Leg2Gate.

(** ** The Leg1 dip pattern *)

Module Leg1Dip.

Import PrimFloat Binary64 Demo64.
#[local] Set Warnings "-inexact-float".
#[local] Open Scope float_scope.

(** The backward scan stops at the latest entry that is old enough. *)
Lemma scan_finds_reference (h : list PricePoint) (t : float) (side : DipArbSide)
    (i : nat) (e : PricePoint) :
  h !! i = Some e ->
  (ofZ (timestamp e) <=? t) = true ->
  (forall (j : nat) (e' : PricePoint),
      (i < j)%nat -> h !! j = Some e' -> (ofZ (timestamp e') <=? t) = false) ->
  forall n, (i < n)%nat -> scanHistory h t side n = Some (sideAsk side e).
Proof.
  intros Hi Hle Hlater n. induction n as [| k IH]; [lia |].
  intros Hlt. simpl.
  destruct (Nat.eq_dec k i) as [-> | Hne].
  - rewrite Hi, Hle. reflexivity.
  - assert (Hik : (i < k)%nat) by lia.
    destruct (h !! k) as [e' |] eqn:E; [| apply IH; exact Hik].
    rewrite (Hlater k e' Hik E). apply IH. exact Hik.
Qed.

Lemma lookup_returns_reference (now : Z) (side : DipArbSide)
    (st : DipArbService) (e : PricePoint) :
  ringReference now st e ->
  getPriceFromHistory now side (slidingWindowMs (config st)) st
  = Some (sideAsk side e).
Proof.
  intros [i [Hi [Hle Hlater]]]. unfold getPriceFromHistory.
  apply (scan_finds_reference _ _ side i e Hi Hle Hlater).
  apply (lookup_lt_Some _ _ _ Hi).
Qed.

Lemma dip_fires (st : DipArbService) (r : DipArbRoundState)
    (m : DipArbMarketConfig) (side : DipArbSide) (ref cur other : float) :
  currentRound st = Some r -> market st = Some m ->
  (0 <? ref) = true -> dropped st ref cur = true ->
  (0 <? cur) = true -> (cur <? 1) = true ->
  exists s, dipPattern st side cur other (Some ref) = Some s
    /\ isDipSignal st side ref cur other s
    /\ estimatedProfitRate s = calculateDipArbProfitRate (estimatedTotalCost s).
Proof.
  intros Hr Hm Href Hdrop H0 H1. unfold dipPattern, dropped, instantDrop in *.
  rewrite Href, Hdrop.
  unfold createLeg1Signal. rewrite Hr, Hm.
  unfold validated, validateSignalProfitability. cbn [s1_currentPrice dropPercent].
  rewrite (Float.ltb_leb_false 0 cur H0), (Float.ltb_leb_false cur 1 H1),
    (Float.leb_ltb_false _ _ Hdrop).
  cbn [orb]. eexists. split; [reflexivity |].
  unfold isDipSignal, instantDrop. cbn. repeat split.
Qed.

Lemma dip_silent (st : DipArbService) (side : DipArbSide)
    (ref cur other : float) :
  dropped st ref cur = false \/ (cur <=? 0) = true ->
  dipPattern st side cur other (Some ref) = None.
Proof.
  intros H. unfold dipPattern, dropped, instantDrop in *.
  destruct (0 <? ref); [| reflexivity].
  destruct (dipThreshold (config st) <=? (ref - cur) / ref) eqn:D; [| reflexivity].
  destruct H as [H | H]; [discriminate |].
  unfold validated.
  destruct (createLeg1Signal st side cur other dip ((ref - cur) / ref) (Some ref))
    as [s |] eqn:E; [| reflexivity].
  unfold createLeg1Signal in E.
  destruct (currentRound st), (market st); try discriminate.
  inversion E; subst s; clear E.
  unfold validateSignalProfitability. cbn [s1_currentPrice].
  rewrite H. reflexivity.
Qed.

Lemma detector_past_guards (now : Z) (st : DipArbService)
    (r : DipArbRoundState) (m : DipArbMarketConfig) :
  currentRound st = Some r -> market st = Some m -> admissible now st r ->
  detectLeg1Signal now st =
    let upPrice := bestAsk (upAsks st) 1 in
    let downPrice := bestAsk (downAsks st) 1 in
    let upPriceAgo := getPriceFromHistory now UP (slidingWindowMs (config st)) st in
    let downPriceAgo := getPriceFromHistory now DOWN (slidingWindowMs (config st)) st in
    orElse (dipPattern st UP upPrice downPrice upPriceAgo)
   (orElse (dipPattern st DOWN downPrice upPrice downPriceAgo)
   (orElse (surgePattern st upPrice downPrice upPriceAgo downPriceAgo)
           (mispricingPattern st r upPrice downPrice))).
Proof.
  intros Hr Hm [Hw [Hu [Hd [Hou Hod]]]]. unfold detectLeg1Signal. rewrite Hr, Hm.
  rewrite (Float.leb_ltb_false _ _ Hw).
  rewrite (Float.ltb_leb_false _ _ Hu), (Float.ltb_leb_false _ _ Hd),
    (Float.ltb_leb_false _ _ Hou), (Float.ltb_leb_false _ _ Hod).
  reflexivity.
Qed.

(** At the boundary the dip test follows binary64 division: with the
    default threshold 0.15 and the UP ask falling from 0.60 to 0.51 the
    drop computed is 0.14999999999999997, and no signal is emitted. *)
Example dip_at_the_boundary :
  let st := openAt06 in
  dipThreshold (config st) = 0.15
  /\ map upAsk (priceHistory st) = [0.60]
  /\ (instantDrop 0.60 0.51 <? 0.15) = true
  /\ signalsOf (snd (fst (handleOrderbookUpdate 4500 (upBook 0.51) st))) = [].
Proof. vm_compute. repeat split; reflexivity. Qed.

(** C4 (amended).  In the waiting phase (after the round management of the
    update), within the windowMinutes admission window, with both best
    asks below 1 and both open prices of the round positive, let e be the
    ring reference (the most recent price-history entry with timestamp at
    or before now - slidingWindowMs), its asks positive.  With the drop
    (ref - current) / ref computed in binary64: if the UP drop is >=
    dipThreshold and the UP ask is positive, the update emits a Leg1 dip
    signal for UP, whatever DOWN did; if UP does not qualify (its drop is
    not >= dipThreshold, or its ask is <= 0) and the DOWN drop is >=
    dipThreshold with a positive DOWN ask, it emits a Leg1 dip signal for
    DOWN.  The signal records openPrice = ref, dropPercent = (ref -
    current) / ref, targetPrice = current * (1 + maxSlippage), oppositeAsk
    = the other side's best ask, estimatedTotalCost = targetPrice +
    oppositeAsk, and estimatedProfitRate = (1 - estimatedTotalCost) /
    estimatedTotalCost when 0 < estimatedTotalCost < 1 and 0 when
    estimatedTotalCost <= 0 or >= 1. *)
Theorem leg1_dip_signal_on_update (now : Z) (book : OrderbookSnapshot)
    (st : DipArbService) (r : DipArbRoundState) (e : PricePoint) :
  market st <> None ->
  let s1 := fst (afterRoundManagement now book st) in
  currentRound s1 = Some r -> phase r = waiting ->
  admissible now s1 r ->
  ringReference now s1 e -> (0 <? upAsk e) = true -> (0 <? downAsk e) = true ->
  let up := bestAsk (upAsks s1) 1 in
  let down := bestAsk (downAsks s1) 1 in
  let emitted := signalsOf (snd (fst (handleOrderbookUpdate now book st))) in
  let rateOk (s : DipArbLeg1Signal) :=
    ((0 <? estimatedTotalCost s) = true -> (estimatedTotalCost s <? 1) = true ->
     estimatedProfitRate s = (1 - estimatedTotalCost s) / estimatedTotalCost s)
    /\ ((estimatedTotalCost s <=? 0) = true \/ (1 <=? estimatedTotalCost s) = true ->
        estimatedProfitRate s = 0) in
  (dropped s1 (upAsk e) up = true -> (0 <? up) = true ->
   exists s, emitted = [Leg1Signal s]
     /\ isDipSignal s1 UP (upAsk e) up down s /\ rateOk s)
  /\ (dropped s1 (upAsk e) up = false \/ (up <=? 0) = true ->
      dropped s1 (downAsk e) down = true -> (0 <? down) = true ->
      exists s, emitted = [Leg1Signal s]
        /\ isDipSignal s1 DOWN (downAsk e) down up s /\ rateOk s).
Proof.
  intros Hm0 s1 Hr Hp Hadm Href Hup Hdown up down emitted rateOk.
  assert (Hrate : forall s,
             estimatedProfitRate s = calculateDipArbProfitRate (estimatedTotalCost s) ->
             rateOk s).
  { intros s E. unfold rateOk. rewrite E. split.
    - apply Update64.profit_rate_inside.
    - apply Update64.profit_rate_outside. }
  assert (Hu1 : (up <? 1) = true) by apply Hadm.
  assert (Hd1 : (down <? 1) = true) by apply Hadm.
  pose proof (Update64.signals_of_update now book st Hm0) as E.
  fold s1 in E. fold emitted in E.
  destruct (Update64.afterRoundManagement_keeps now book st) as [Fm _].
  fold s1 in Fm.
  destruct (market st) as [m |] eqn:Hm; [| contradiction].
  unfold detectSignal in E. rewrite Hr, Fm, Hp in E.
  rewrite (detector_past_guards now s1 r m Hr Fm Hadm) in E.
  rewrite (lookup_returns_reference now UP s1 e Href) in E.
  rewrite (lookup_returns_reference now DOWN s1 e Href) in E.
  cbv zeta in E. fold up in E. fold down in E. simpl sideAsk in E.
  split.
  - intros Hdrop H0.
    destruct (dip_fires s1 r m UP (upAsk e) up down Hr Fm Hup Hdrop H0 Hu1)
      as [s [D [Hs Hr']]].
    rewrite D in E. exists s. simpl in E. auto.
  - intros Hno Hdrop H0.
    rewrite (dip_silent s1 UP (upAsk e) up down Hno) in E.
    destruct (dip_fires s1 r m DOWN (downAsk e) down up Hr Fm Hdown Hdrop H0 Hd1)
      as [s [D [Hs Hr']]].
    rewrite D in E. exists s. simpl in E. auto.
Qed.

(** The theorem at the update that delivers an UP ask of 0.35 to an
    instance that recorded 0.50 / 0.50 3.5 s earlier. *)
Lemma leg1_dip_signal_on_update_witness :
  exists s,
    signalsOf (snd (fst (handleOrderbookUpdate 4500 (upBook 0.35) openAt05)))
    = [Leg1Signal s]
    /\ dipSide s = UP /\ openPrice s = 0.50 /\ s1_currentPrice s = 0.35.
Proof.
  pose (s1 := fst (afterRoundManagement 4500 (upBook 0.35) openAt05)).
  assert (Href : ringReference 4500 s1 openingEntry).
  { exists 0%nat. split; [vm_compute; reflexivity |].
    split; [vm_compute; reflexivity |].
    intros j e' Hj He'.
    destruct j as [| j]; [lia |].
    destruct j as [| j]; [| vm_compute in He'; destruct j; discriminate].
    vm_compute in He'. inversion He'. vm_compute. reflexivity. }
  assert (Hadm : admissible 4500 s1 (roundOf s1)).
  { unfold admissible. repeat split; vm_compute; reflexivity. }
  assert (Hm : market openAt05 <> None) by (vm_compute; discriminate).
  destruct (leg1_dip_signal_on_update 4500 (upBook 0.35) openAt05 (roundOf s1)
              openingEntry Hm eq_refl eq_refl Hadm Href eq_refl eq_refl)
    as [H _].
  destruct H as [s [E [Hs _]]]; [vm_compute; reflexivity | vm_compute; reflexivity |].
  exists s. split; [exact E |].
  destruct Hs as [A [_ [B [C _]]]]. split; [exact A |]. split; [exact C | exact B].
Defined.

End Leg1Dip.

(** ** Phase changes, step by step *)

Module PhaseSteps.

Import PrimFloat Binary64 Demo64.
#[local] Set Warnings "-inexact-float".
#[local] Open Scope float_scope.

(** Round management keeps the round, expires it, or replaces a completed
    or expired round by a new one. *)
Lemma round_management_cases (now : Z) (st : DipArbService)
    (r : DipArbRoundState) :
  currentRound st = Some r ->
  exists r', currentRound (fst (checkAndStartNewRound now st)) = Some r'
    /\ (r' = r
        \/ (phase r = leg1_filled /\ r' = set_phase expired r)
        \/ (terminal (phase r) = true /\ phase r' = waiting /\ startTime r' = now
            /\ leg1 r' = None /\ leg2 r' = None)).
Proof.
  intros Hr. unfold checkAndStartNewRound.
  destruct (market st) as [m |]; [| exists r; auto].
  rewrite Hr.
  destruct (phase r) eqn:Hp; simpl.
  - rewrite Hr, Hp. exists r. auto.
  - rewrite Hr, Hp.
    destruct (leg2TimeoutSeconds (config st) <? _); simpl.
    + eexists. split; [reflexivity |]. right. left. auto.
    + exists r. auto.
  - destruct (endTime m <=? now)%Z; simpl.
    + exists r. auto.
    + eexists. split; [reflexivity |]. right. right. repeat split.
  - destruct (endTime m <=? now)%Z; simpl.
    + exists r. auto.
    + eexists. split; [reflexivity |]. right. right. repeat split.
Qed.

(** [handleSignal], up to its first wait, leaves the round alone. *)
Lemma handleSignal_keeps_round (now : Z) (sg : DipArbSignal) (st : DipArbService) :
  currentRound (fst (fst (handleSignal now sg st))) = currentRound st.
Proof.
  unfold handleSignal, executeLeg1_begin, executeLeg2_begin. cbn [config set_stats].
  destruct (autoExecute (config st) && negb (isExecuting _))%bool; [| reflexivity].
  destruct (executionCooldown (config st) <=? _); [| reflexivity].
  destruct sg; cbn [hasTradingService market currentRound set_stats];
    destruct (hasTradingService st), (market st), (currentRound st) eqn:Hr;
    simpl; rewrite ?Hr; reflexivity.
Qed.

Lemma update_round_is_managed_round (now : Z) (book : OrderbookSnapshot)
    (st : DipArbService) :
  currentRound (fst (fst (handleOrderbookUpdate now book st)))
  = currentRound (fst (afterRoundManagement now book st)).
Proof.
  unfold handleOrderbookUpdate, afterRoundManagement.
  destruct (market st) as [m |]; [| reflexivity].
  destruct (checkAndStartNewRound now (recordPriceHistory now (updateAsks m book st)))
    as [s ev1].
  destruct (detectSignal now s) as [sg |]; [| reflexivity].
  pose proof (handleSignal_keeps_round now sg s) as H.
  destruct (handleSignal now sg s) as [[s' ev2] a]. exact H.
Qed.

(** A Leg2 order that fills after its round timed out and was replaced:
    the order was placed at 8000 in the leg1_filled phase; at 400000 the
    round expires, at 400001 a new round opens in the waiting phase; the
    fill at 400002 marks that new round completed, with a Leg2 and no
    Leg1.  Without the third delivery the expired round itself becomes
    completed. *)
Example late_leg2_fill :
  (let st := fst (fst (run lateLeg2Steps (afterLeg1, None))) in
   option_map phase (currentRound st) = Some completed
   /\ option_map startTime (currentRound st) = Some 400001%Z
   /\ option_map leg1 (currentRound st) = Some None
   /\ option_map (fun r => option_map leg_timestamp (leg2 r)) (currentRound st)
      = Some (Some 400002%Z))
  /\ (let before := fst (fst (run [ Delivers 8000 (downBook 0.55);
                                     Delivers 400000 (downBook 0.55) ]
                                   (afterLeg1, None))) in
      let after := fst (fst (run [ Delivers 8000 (downBook 0.55);
                                    Delivers 400000 (downBook 0.55);
                                    Settles 400002 OrderFilled ]
                                  (afterLeg1, None))) in
      option_map phase (currentRound before) = Some expired
      /\ option_map phase (currentRound after) = Some completed
      /\ option_map startTime (currentRound after) = Some 1000%Z).
Proof. vm_compute. repeat split; reflexivity. Qed.

(** What each step does to the round [r] of the instance. *)
Lemma phase_changes_by_step_cases (st : DipArbService) (r : DipArbRoundState) :
  currentRound st = Some r ->
  (forall now book, exists r',
      currentRound (fst (fst (handleOrderbookUpdate now book st))) = Some r'
      /\ (r' = r
          \/ (phase r = leg1_filled /\ r' = set_phase expired r)
          \/ (terminal (phase r) = true /\ phase r' = waiting /\ startTime r' = now
              /\ leg1 r' = None /\ leg2 r' = None)))
  /\ (forall now order sg,
        currentRound (fst (executeLeg1_settled now order sg st))
        = Some match order with
               | OrderFilled =>
                   set_phase leg1_filled (set_leg1 (Some (leg1Fill now sg)) r)
               | _ => r
               end)
  /\ (forall now order sg,
        currentRound (fst (fst (executeLeg2_settled now order sg st)))
        = Some match order with
               | OrderFilled =>
                   set_profit (Some (1 - totalCost sg))
                     (set_round_totalCost (Some (totalCost sg))
                        (set_phase completed
                           (set_leg2 (Some (leg2Fill now sg)) r)))
               | _ => r
               end)
  /\ (forall sg, currentRound (fst (executeLeg2_merged sg st)) = Some r).
Proof.
  intros Hr.
  split.
  { intros now book. rewrite update_round_is_managed_round.
    unfold afterRoundManagement.
    destruct (market st) as [m |]; [| exists r; auto].
    assert (Hr0 : currentRound (recordPriceHistory now (updateAsks m book st)) = Some r).
    { destruct (Update64.recordPriceHistory_keeps now (updateAsks m book st))
        as [_ [_ [C _]]].
      destruct (Update64.updateAsks_keeps m book st) as [_ [_ D]].
      rewrite C, D. exact Hr. }
    destruct (round_management_cases now _ r Hr0) as [r' [E H]].
    exists r'. split; [exact E | exact H]. }
  split.
  { intros now order sg. unfold executeLeg1_settled.
    destruct order; [rewrite Hr; reflexivity | exact Hr | exact Hr]. }
  split.
  { intros now order sg. unfold executeLeg2_settled.
    destruct order; [rewrite Hr | exact Hr | exact Hr].
    destruct (autoMerge _ && mergeAwaitsCtf _)%bool; reflexivity. }
  intros sg. exact Hr.
Qed.

(** C5 (amended).  For an instance whose round is r:
    - an orderbook update leaves the round as it is, or moves it from
      leg1_filled to expired, or replaces it, when it is completed or
      expired, by a new round in the waiting phase; placing an order
      changes nothing of the round;
    - when the order of executeLeg1 settles, a fill sets leg1 and the phase
      leg1_filled on the round that is current at that moment, whatever its
      phase; a failed or rejected order leaves it unchanged;
    - when the order of executeLeg2 settles, a fill sets leg2, totalCost,
      profit and the phase completed on the round that is current at that
      moment, whatever its phase; a failed or rejected order, and the merge
      that follows a fill, leave it unchanged;
    - so a fill is a forward move along waiting -> leg1_filled ->
      {completed, expired} when the Leg1 order settles in the waiting
      phase and the Leg2 order in the leg1_filled phase. *)
Theorem phase_changes_by_step (st : DipArbService) (r : DipArbRoundState) :
  currentRound st = Some r ->
  (forall now book, exists r',
      currentRound (fst (fst (handleOrderbookUpdate now book st))) = Some r'
      /\ (r' = r
          \/ (phase r = leg1_filled /\ r' = set_phase expired r
              /\ phase_step (phase r) (phase r'))
          \/ (terminal (phase r) = true /\ phase r' = waiting /\ startTime r' = now
              /\ leg1 r' = None /\ leg2 r' = None)))
  /\ (forall sg s', executeLeg1_begin sg st = inr s' -> currentRound s' = Some r)
  /\ (forall sg s', executeLeg2_begin sg st = inr s' -> currentRound s' = Some r)
  /\ (forall now order sg,
        currentRound (fst (executeLeg1_settled now order sg st))
        = Some match order with
               | OrderFilled =>
                   set_phase leg1_filled (set_leg1 (Some (leg1Fill now sg)) r)
               | _ => r
               end)
  /\ (forall now order sg,
        currentRound (fst (fst (executeLeg2_settled now order sg st)))
        = Some match order with
               | OrderFilled =>
                   set_profit (Some (1 - totalCost sg))
                     (set_round_totalCost (Some (totalCost sg))
                        (set_phase completed
                           (set_leg2 (Some (leg2Fill now sg)) r)))
               | _ => r
               end)
  /\ (forall sg, currentRound (fst (executeLeg2_merged sg st)) = Some r)
  /\ (forall now order a,
        currentRound (fst (fst (handleSignal_resume now order a st)))
        = match a with
          | Leg1Order sg => currentRound (fst (executeLeg1_settled now order sg st))
          | Leg2Order sg => currentRound (fst (fst (executeLeg2_settled now order sg st)))
          | Leg2Merge sg => currentRound (fst (executeLeg2_merged sg st))
          end)
  /\ (phase r = waiting ->
      forall now sg r',
        currentRound (fst (executeLeg1_settled now OrderFilled sg st)) = Some r' ->
        phase_step (phase r) (phase r'))
  /\ (phase r = leg1_filled ->
      forall now sg r',
        currentRound (fst (fst (executeLeg2_settled now OrderFilled sg st))) = Some r' ->
        phase_step (phase r) (phase r')).
Proof.
  intros Hr.
  destruct (phase_changes_by_step_cases st r Hr) as [Hup [H1 [H2 Hm]]].
  split.
  { intros now book. destruct (Hup now book) as [r' [E H]].
    exists r'. split; [exact E |].
    destruct H as [H | [[Hp ->] | H]]; [auto | | auto].
    right. left. split; [exact Hp |]. split; [reflexivity |].
    rewrite Hp. constructor. }
  split.
  { intros sg s'. unfold executeLeg1_begin.
    destruct (hasTradingService st), (market st); rewrite ?Hr; try discriminate.
    intros H. inversion H. exact Hr. }
  split.
  { intros sg s'. unfold executeLeg2_begin.
    destruct (hasTradingService st), (market st); rewrite ?Hr; try discriminate.
    intros H. inversion H. exact Hr. }
  split; [exact H1 |]. split; [exact H2 |].
  split; [exact Hm |].
  split.
  { intros now order a. unfold handleSignal_resume. destruct a as [sg | sg | sg].
    - destruct (executeLeg1_settled now order sg st) as [s res]. reflexivity.
    - destruct (executeLeg2_settled now order sg st) as [[s ev] [res |]]; reflexivity.
    - reflexivity. }
  split.
  - intros Hp now sg r' E. rewrite H1 in E. inversion E. rewrite Hp. constructor.
  - intros Hp now sg r' E. rewrite H2 in E. inversion E. rewrite Hp. constructor.
Qed.

(** The theorem at the instance that holds Leg1: a Leg2 order that settles
    as filled moves the round from leg1_filled to completed. *)
Lemma phase_changes_by_step_witness :
  phase (roundOf afterLeg1) = leg1_filled
  /\ exists r',
       currentRound
         (fst (fst (executeLeg2_settled 8010 OrderFilled leg2SignalAt055 afterLeg1)))
       = Some r'
       /\ phase r' = completed
       /\ phase_step (phase (roundOf afterLeg1)) (phase r').
Proof.
  assert (Hr : currentRound afterLeg1 = Some (roundOf afterLeg1))
    by (vm_compute; reflexivity).
  assert (Hp : phase (roundOf afterLeg1) = leg1_filled) by (vm_compute; reflexivity).
  split; [exact Hp |].
  destruct (phase_changes_by_step afterLeg1 (roundOf afterLeg1) Hr)
    as [_ [_ [_ [_ [E [_ [_ [_ H]]]]]]]].
  eexists. split; [exact (E 8010%Z OrderFilled leg2SignalAt055) |].
  split; [reflexivity |].
  exact (H Hp 8010%Z leg2SignalAt055 _ (E 8010%Z OrderFilled leg2SignalAt055)).
Defined.

End PhaseSteps.

(** ** Effective prices and arbitrage detection *)

Module Arbitrage64.

Import PrimFloat Binary64 Demo64.
#[local] Set Warnings "-inexact-float".
#[local] Open Scope float_scope.

(** Scenario 6 of the specification: YES 0.45 / 0.60 and NO 0.35 / 0.50
    give effective buy prices 0.60 and 0.50 and no opportunity. *)
Example effective_price_mirror_binary64 :
  let ob := processOrderbooks (book 0.45 0.60) (book 0.35 0.50) None None in
  effectiveBuyYes (effectivePrices (summary ob)) = 0.60
  /\ effectiveBuyNo (effectivePrices (summary ob)) = 0.50
  /\ detectArbitrage ob DEFAULT_ARB_THRESHOLD = None.
Proof. vm_compute. repeat split; reflexivity. Qed.

(** With a YES ask of 0.5 and a NO ask of 0.495 the long profit computed
    is 0.0050000000000000044, above the default threshold 0.005: a long
    opportunity is reported. *)
Example long_reported_at_the_boundary :
  let ob := processOrderbooks (asksOnly 0.5) (asksOnly 0.495) None None in
  (DEFAULT_ARB_THRESHOLD <? longArbProfit (summary ob)) = true
  /\ option_map arb_type (detectArbitrage ob DEFAULT_ARB_THRESHOLD) = Some long.
Proof. vm_compute. split; reflexivity. Qed.

(** With a YES ask of 0.05, a NO ask of 0.93 and a threshold of 0.02 the
    long profit computed is 0.019999999999999907 and the short profit
    0.020000000000000018: a short opportunity is reported. *)
Example short_reported :
  let ob := processOrderbooks (asksOnly 0.05) (asksOnly 0.93) None None in
  (0.02 <? longArbProfit (summary ob)) = false
  /\ (0.02 <? shortArbProfit (summary ob)) = true
  /\ option_map arb_type (detectArbitrage ob 0.02) = Some short.
Proof. vm_compute. repeat split; reflexivity. Qed.



(** [calculateRealtimeSpread] reports 'LONG' when the long profit exceeds
    0.001, otherwise 'SHORT' when the short profit does, otherwise no
    opportunity; the percentage is a hundred times the profit reported, 0
    when there is none; the spreads are the sums less 1.  The comparisons
    and products are those of binary64. *)
Theorem realtime_spread_opportunity (now : Z) (ob : ProcessedOrderbook) :
  let a := calculateRealtimeSpread now ob in
  let long := longArbProfit (summary ob) in
  let short := shortArbProfit (summary ob) in
  (arbOpportunity a = ArbLONG <-> (0.001 <? long) = true)
  /\ (arbOpportunity a = ArbSHORT <-> (0.001 <? long) = false /\ (0.001 <? short) = true)
  /\ (arbOpportunity a = ArbNone <-> (0.001 <? long) = false /\ (0.001 <? short) = false)
  /\ arbProfitPercent a
     = match arbOpportunity a with
       | ArbLONG => long * 100
       | ArbSHORT => short * 100
       | ArbNone => 0
       end
  /\ rs_longArbProfit a = long /\ rs_shortArbProfit a = short
  /\ askSpread a = askSum (summary ob) - 1
  /\ bidSpread a = bidSum (summary ob) - 1.
Proof.
  intros a long short. unfold a, calculateRealtimeSpread.
  fold long. fold short.
  destruct (0.001 <? long) eqn:L; [| destruct (0.001 <? short) eqn:S];
    cbn [arbOpportunity arbProfitPercent rs_longArbProfit rs_shortArbProfit
         askSpread bidSpread];
    repeat split; try reflexivity; try discriminate;
    intros H; try discriminate; destruct H; discriminate.
Qed.

End Arbitrage64.

(** ** The legs a round holds *)

Module RoundLegs.

Import PrimFloat Binary64 Demo64.
#[local] Set Warnings "-inexact-float".
#[local] Open Scope float_scope.

(** A round holds the legs of its phase (none while waiting, Leg1 only
    when leg1_filled or expired, both when completed) as long as every
    order settles in the phase it was placed for: an orderbook update
    keeps this, whatever order it places; so does a Leg1 order that
    settles while the round is waiting, a Leg2 order that settles while it
    is leg1_filled, a failed or rejected order in any phase, and the end of
    the merge. *)
Theorem round_legs_follow_phase (st : DipArbService) (r : DipArbRoundState) :
  currentRound st = Some r -> roundConsistent r ->
  (forall now book r',
      currentRound (fst (fst (handleOrderbookUpdate now book st))) = Some r' ->
      roundConsistent r')
  /\ (forall now order sg r',
        phase r = waiting \/ order <> OrderFilled ->
        currentRound (fst (executeLeg1_settled now order sg st)) = Some r' ->
        roundConsistent r')
  /\ (forall now order sg r',
        phase r = leg1_filled \/ order <> OrderFilled ->
        currentRound (fst (fst (executeLeg2_settled now order sg st))) = Some r' ->
        roundConsistent r')
  /\ (forall sg r',
        currentRound (fst (executeLeg2_merged sg st)) = Some r' -> roundConsistent r').
Proof.
  intros Hr Hc.
  destruct (PhaseSteps.phase_changes_by_step_cases st r Hr)
    as [Hup [H1 [H2 Hm]]].
  split; [| split; [| split]].
  - intros now book r' E. destruct (Hup now book) as [x [Ex Hx]].
    rewrite Ex in E. inversion E; subst x; clear E.
    destruct Hx as [-> | [[Hp ->] | [_ [Hp [_ [A B]]]]]].
    + exact Hc.
    + unfold roundConsistent in *. rewrite Hp in Hc. exact Hc.
    + unfold roundConsistent. rewrite Hp. auto.
  - intros now order sg r' Hp E. rewrite H1 in E. inversion E; subst r'; clear E.
    destruct order; try exact Hc.
    destruct Hp as [Hp | Hp]; [| congruence].
    unfold roundConsistent in *. rewrite Hp in Hc. destruct Hc as [_ Hc].
    simpl. split; [discriminate | exact Hc].
  - intros now order sg r' Hp E. rewrite H2 in E. inversion E; subst r'; clear E.
    destruct order; try exact Hc.
    destruct Hp as [Hp | Hp]; [| congruence].
    unfold roundConsistent in *. rewrite Hp in Hc. destruct Hc as [Hc _].
    simpl. split; [exact Hc | discriminate].
  - intros sg r' E. rewrite Hm in E. inversion E; subst r'. exact Hc.
Qed.

(** The theorem at the instance that holds Leg1, for the delivery that
    places the Leg2 order. *)
Lemma round_legs_follow_phase_witness :
  exists r',
    currentRound (fst (fst (handleOrderbookUpdate 8000 (downBook 0.55) afterLeg1)))
    = Some r'
    /\ roundConsistent r'.
Proof.
  assert (Hr : currentRound afterLeg1 = Some (roundOf afterLeg1))
    by (vm_compute; reflexivity).
  assert (Hc : roundConsistent (roundOf afterLeg1))
    by (vm_compute; split; [discriminate | reflexivity]).
  destruct (round_legs_follow_phase afterLeg1 (roundOf afterLeg1) Hr Hc) as [H _].
  exists (roundOf (fst (fst (handleOrderbookUpdate 8000 (downBook 0.55) afterLeg1)))).
  assert (E : currentRound
                (fst (fst (handleOrderbookUpdate 8000 (downBook 0.55) afterLeg1)))
              = Some (roundOf
                        (fst (fst (handleOrderbookUpdate 8000 (downBook 0.55)
                                     afterLeg1)))))
    by (vm_compute; reflexivity).
  split; [exact E | exact (H 8000%Z (downBook 0.55) _ E)].
Defined.

End RoundLegs.

(** * Further properties of the engine *)

Module Engine.

Import Demo DemoExtra.

(** Case analysis on every [match] and [if] of the goal. *)
Ltac break_goal :=
  repeat match goal with
  | |- context [match ?x with _ => _ end] =>
      match type of x with
      | sumbool _ _ => fail 1
      | _ => destruct x eqn:?
      end
  end.

(** Case analysis on the innermost [match] and [if] of a hypothesis, until
    none is left. *)
Ltac split_hyp H :=
  repeat match type of H with
         | context [match ?x with _ => _ end] =>
             lazymatch x with
             | context [match _ with _ => _ end] => fail
             | _ => destruct x eqn:?
             end
         end.

(** A property kept by one delivery is kept by a run of deliveries. *)
Lemma handleOrderbookUpdates_invariant (P : DipArbService -> Prop) :
  (forall now o book st, P st -> P (fst (handleOrderbookUpdate now o book st))) ->
  forall ds st, P st -> P (fst (handleOrderbookUpdates ds st)).
Proof.
  intros Hstep ds. induction ds as [| [[now o] book] rest IH]; intros st H; [exact H |].
  simpl. specialize (Hstep now o book st H).
  destruct (handleOrderbookUpdate now o book st) as [s ev]. simpl in Hstep.
  specialize (IH s Hstep).
  destruct (handleOrderbookUpdates rest s) as [s' ev']. exact IH.
Qed.

(** *** The price-history ring *)

(** Recording a valid pair of asks appends the point and keeps the most
    recent 100: the new history is a suffix of the old one followed by the
    point, its last entry is the point, and it has min(old length + 1, 100)
    entries.  With an ask that is not positive nothing is recorded. *)
Theorem recordPriceHistory_ring (now : Z) (st : DipArbService) :
  let up := bestAsk (upAsks st) 0 in
  let down := bestAsk (downAsks st) 0 in
  let pt := {| timestamp := now; upAsk := up; downAsk := down |} in
  let h := priceHistory st in
  let h' := priceHistory (recordPriceHistory now st) in
  (0 < up /\ 0 < down ->
   h' = drop (S (length h) - 100) (h ++ [pt])
   /\ last h' = Some pt
   /\ length h' = Nat.min (S (length h)) 100)
  /\ (up <= 0 \/ down <= 0 -> recordPriceHistory now st = st).
Proof.
  intros up down pt h h'. unfold h', recordPriceHistory. fold up down pt h.
  split.
  - intros [Hu Hd].
    apply Qle_bool_gt in Hu, Hd. rewrite Hu, Hd. simpl.
    assert (Hlen : length (h ++ [pt]) = S (length h))
      by (rewrite length_app; simpl; lia).
    assert (Hres : (if (MAX_HISTORY_LENGTH <? length (h ++ [pt]))%nat
                    then priceHistory
                           (set_priceHistory (slice_last MAX_HISTORY_LENGTH (h ++ [pt])) st)
                    else priceHistory (set_priceHistory (h ++ [pt]) st))
                   = drop (S (length h) - 100) (h ++ [pt])).
    { unfold MAX_HISTORY_LENGTH, slice_last. rewrite Hlen.
      destruct (100 <? S (length h))%nat eqn:E; [reflexivity |].
      apply Nat.ltb_ge in E. replace (S (length h) - 100)%nat with 0%nat by lia.
      reflexivity. }
    assert (Hgoal : priceHistory
                      (if (MAX_HISTORY_LENGTH <? length (h ++ [pt]))%nat
                       then set_priceHistory (slice_last MAX_HISTORY_LENGTH (h ++ [pt])) st
                       else set_priceHistory (h ++ [pt]) st)
                    = drop (S (length h) - 100) (h ++ [pt])).
    { rewrite <- Hres. destruct (_ <? _)%nat; reflexivity. }
    rewrite Hgoal. split; [reflexivity |]. split.
    + rewrite drop_app_le by lia. apply last_snoc.
    + rewrite length_drop, Hlen. lia.
  - intros H.
    destruct (Qle_bool up 0) eqn:A; [reflexivity |].
    destruct (Qle_bool down 0) eqn:B; [reflexivity |].
    qprop. lra.
Qed.

Lemma recordPriceHistory_ring_witness :
  last (priceHistory (recordPriceHistory 4500 dipState))
  = Some {| timestamp := 4500; upAsk := 0.35; downAsk := 0.50 |}.
Proof.
  destruct (recordPriceHistory_ring 4500 dipState) as [H _].
  destruct H as [_ [H _]]; [split; reflexivity |].
  exact H.
Defined.

Lemma handleOrderbookUpdate_history_bound (now : Z) (o : OrderOutcome)
    (book : OrderbookSnapshot) (st : DipArbService) :
  (length (priceHistory st) <= MAX_HISTORY_LENGTH)%nat ->
  (length (priceHistory (fst (handleOrderbookUpdate now o book st)))
   <= MAX_HISTORY_LENGTH)%nat.
Proof.
  intros H. unfold handleOrderbookUpdate.
  destruct (market st) as [m |]; [| exact H].
  assert (H0 : (length (priceHistory (updateAsks m book st)) <= MAX_HISTORY_LENGTH)%nat).
  { unfold updateAsks. destruct (String.eqb _ _); [exact H |].
    destruct (String.eqb _ _); exact H. }
  assert (H1 : (length (priceHistory (recordPriceHistory now (updateAsks m book st)))
                <= MAX_HISTORY_LENGTH)%nat).
  { destruct (recordPriceHistory_ring now (updateAsks m book st)) as [Hv Hi].
    destruct (Qlt_le_dec 0 (bestAsk (upAsks (updateAsks m book st)) 0)) as [Hu | Hu];
      [| rewrite Hi by (left; exact Hu); exact H0].
    destruct (Qlt_le_dec 0 (bestAsk (downAsks (updateAsks m book st)) 0)) as [Hd | Hd];
      [| rewrite Hi by (right; exact Hd); exact H0].
    destruct (Hv (conj Hu Hd)) as [_ [_ Hl]]. rewrite Hl.
    unfold MAX_HISTORY_LENGTH. lia. }
  destruct (Leg1.checkAndStartNewRound_history now
              (recordPriceHistory now (updateAsks m book st))) as [E | E];
    destruct (checkAndStartNewRound now _) as [s ev1]; simpl in E;
    (destruct (detectSignal now s) as [sg |];
     [ pose proof (Leg1.handleSignal_history now o sg s) as Hh;
       destruct (handleSignal now o sg s) as [s' ev2]; simpl in Hh |- *;
       rewrite Hh, E
     | simpl; rewrite E ]);
    first [exact H1 | simpl; lia].
Qed.

(** However long the engine monitors, the price history never holds more
    than 100 points: true after [start], and kept by every orderbook
    update. *)
Theorem history_capacity (now : Z) (m : DipArbMarketConfig)
    (st s : DipArbService) (ev : list Event) (ds : list Delivery) :
  start now m st = inr (s, ev) ->
  (length (priceHistory (fst (handleOrderbookUpdates ds s))) <= 100)%nat.
Proof.
  intros Hs.
  apply (handleOrderbookUpdates_invariant
           (fun x => (length (priceHistory x) <= MAX_HISTORY_LENGTH)%nat)).
  - intros n o b x. apply handleOrderbookUpdate_history_bound.
  - destruct (Rotation.start_inr now m st s ev Hs) as [_ [H _]].
    rewrite H. simpl. unfold MAX_HISTORY_LENGTH. lia.
Qed.

Lemma history_capacity_witness :
  (length (priceHistory (fst (afterDip 0.55))) <= 100)%nat.
Proof.
  apply (history_capacity 0 btcMarket (new_DipArbService 0 true true)
           (started btcMarket) [EvStarted btcMarket] (dipDeliveries 0.55)).
  vm_compute. reflexivity.
Defined.

(** *** Statistics *)

Lemma checkAndStartNewRound_stats (now : Z) (st : DipArbService) :
  let s' := stats (fst (checkAndStartNewRound now st)) in
  signalsDetected s' = signalsDetected (stats st)
  /\ leg1Filled s' = leg1Filled (stats st)
  /\ leg2Filled s' = leg2Filled (stats st)
  /\ roundsSuccessful s' = roundsSuccessful (stats st)
  /\ (roundsMonitored s' = roundsMonitored (stats st)
      \/ roundsMonitored s' = S (roundsMonitored (stats st)))
  /\ ((roundsExpired s' = roundsExpired (stats st)
       /\ roundsCompleted s' = roundsCompleted (stats st))
      \/ (roundsExpired s' = S (roundsExpired (stats st))
          /\ roundsCompleted s' = S (roundsCompleted (stats st)))).
Proof.
  unfold checkAndStartNewRound.
  destruct (market st); [| simpl; auto 10].
  destruct (currentRound st) as [r |] eqn:Hr.
  - destruct (phase r) eqn:Hp; simpl.
    + rewrite Hr, Hp. simpl. auto 10.
    + rewrite Hr, Hp. destruct (Qltb _ _); simpl; auto 10.
    + destruct (_ <=? _)%Z; simpl; auto 10.
    + destruct (_ <=? _)%Z; simpl; auto 10.
  - simpl. destruct (_ <=? _)%Z; simpl; auto 10.
Qed.

Lemma handleSignal_stats (now : Z) (o : OrderOutcome) (sg : DipArbSignal)
    (st : DipArbService) :
  let s' := stats (fst (handleSignal now o sg st)) in
  signalsDetected s' = S (signalsDetected (stats st))
  /\ roundsMonitored s' = roundsMonitored (stats st)
  /\ roundsExpired s' = roundsExpired (stats st)
  /\ roundsCompleted s' = roundsCompleted (stats st)
  /\ ((leg1Filled s' = leg1Filled (stats st) /\ leg2Filled s' = leg2Filled (stats st)
       /\ roundsSuccessful s' = roundsSuccessful (stats st))
      \/ (leg1Filled s' = S (leg1Filled (stats st))
          /\ leg2Filled s' = leg2Filled (stats st)
          /\ roundsSuccessful s' = roundsSuccessful (stats st))
      \/ (leg1Filled s' = leg1Filled (stats st)
          /\ leg2Filled s' = S (leg2Filled (stats st))
          /\ roundsSuccessful s' = S (roundsSuccessful (stats st)))).
Proof.
  unfold handleSignal, executeLeg1, executeLeg2.
  destruct (autoExecute _ && negb _)%bool; [| simpl; auto 10].
  destruct (Qle_bool _ _); [| simpl; auto 10].
  destruct sg; simpl;
    destruct (hasTradingService st), (market st), (currentRound st), o;
    simpl; auto 10.
Qed.




(** *** Rounds and their legs *)

(** *** Execution *)

(** A failed execution, whether the collaborators are missing, the order
    is refused or the call throws, changes neither the round nor the
    statistics nor the time of the last execution, and emits no
    roundComplete; an execution succeeds only on a filled order with a
    trading service, a market and a round. *)
Theorem failed_execution_changes_nothing (now : Z) (o : OrderOutcome)
    (st : DipArbService) :
  (forall sg,
     let res := executeLeg1 now o sg st in
     (ex_success (snd res) = false ->
      currentRound (fst res) = currentRound st
      /\ stats (fst res) = stats st
      /\ lastExecutionTime (fst res) = lastExecutionTime st)
     /\ (ex_success (snd res) = true ->
         o = OrderFilled /\ hasTradingService st = true
         /\ market st <> None /\ currentRound st <> None))
  /\ (forall sg,
        let res := executeLeg2 now o sg st in
        (ex_success (snd res) = false ->
         currentRound (fst (fst res)) = currentRound st
         /\ stats (fst (fst res)) = stats st
         /\ lastExecutionTime (fst (fst res)) = lastExecutionTime st
         /\ snd (fst res) = [])
        /\ (ex_success (snd res) = true ->
            o = OrderFilled /\ hasTradingService st = true
            /\ market st <> None /\ currentRound st <> None)).
Proof.
  split; intros sg; unfold executeLeg1, executeLeg2;
    destruct (hasTradingService st), (market st), (currentRound st) eqn:Hr, o; simpl;
    (split; intros H); try discriminate H;
    repeat split; try reflexivity; try discriminate; try exact Hr.
Qed.

Lemma failed_execution_changes_nothing_witness :
  currentRound (fst (executeLeg1 9000 OrderFailed staleLeg1Signal afterLeg1))
  = currentRound afterLeg1.
Proof.
  destruct (failed_execution_changes_nothing 9000 OrderFailed afterLeg1) as [H _].
  destruct (H staleLeg1Signal) as [H1 _].
  destruct H1 as [H1 _]; [vm_compute; reflexivity | exact H1].
Defined.

(** The part of the orderbook handler that runs before the detector. *)
Lemma beforeDetector_frame (now : Z) (m : DipArbMarketConfig)
    (book : OrderbookSnapshot) (st : DipArbService) :
  let res := checkAndStartNewRound now (recordPriceHistory now (updateAsks m book st)) in
  config (fst res) = config st
  /\ isExecuting (fst res) = isExecuting st
  /\ lastExecutionTime (fst res) = lastExecutionTime st
  /\ market (fst res) = market st
  /\ pendingRedemptions (fst res) = pendingRedemptions st
  /\ isRunning (fst res) = isRunning st
  /\ existsb isExecution (snd res) = false
  /\ existsb isSignal (snd res) = false.
Proof.
  assert (F1 : forall s, config (updateAsks m book s) = config s
                         /\ isExecuting (updateAsks m book s) = isExecuting s
                         /\ lastExecutionTime (updateAsks m book s) = lastExecutionTime s
                         /\ market (updateAsks m book s) = market s
                         /\ pendingRedemptions (updateAsks m book s) = pendingRedemptions s
                         /\ isRunning (updateAsks m book s) = isRunning s).
  { intros s. unfold updateAsks. destruct (String.eqb _ _); [repeat split; try reflexivity |].
    destruct (String.eqb _ _); repeat split; try reflexivity. }
  assert (F2 : forall s, config (recordPriceHistory now s) = config s
                         /\ isExecuting (recordPriceHistory now s) = isExecuting s
                         /\ lastExecutionTime (recordPriceHistory now s) = lastExecutionTime s
                         /\ market (recordPriceHistory now s) = market s
                         /\ pendingRedemptions (recordPriceHistory now s) = pendingRedemptions s
                         /\ isRunning (recordPriceHistory now s) = isRunning s).
  { intros s. unfold recordPriceHistory. destruct (_ || _)%bool; [repeat split; try reflexivity |].
    destruct (_ <? _)%nat; repeat split; try reflexivity. }
  assert (F3 : forall s,
             let res := checkAndStartNewRound now s in
             config (fst res) = config s
             /\ isExecuting (fst res) = isExecuting s
             /\ lastExecutionTime (fst res) = lastExecutionTime s
             /\ market (fst res) = market s
             /\ pendingRedemptions (fst res) = pendingRedemptions s
             /\ isRunning (fst res) = isRunning s
             /\ existsb isExecution (snd res) = false
             /\ existsb isSignal (snd res) = false).
  { intros s. unfold checkAndStartNewRound.
    destruct (market s) eqn:Hm; [| simpl; repeat split; try reflexivity; exact Hm].
    destruct (currentRound s) as [r |] eqn:Hr.
    - destruct (phase r) eqn:Hp; simpl.
      + rewrite Hr, Hp. simpl. repeat split; try reflexivity; exact Hm.
      + rewrite Hr, Hp. destruct (Qltb _ _); simpl; repeat split; try reflexivity; exact Hm.
      + destruct (_ <=? _)%Z; simpl; repeat split; try reflexivity; exact Hm.
      + destruct (_ <=? _)%Z; simpl; repeat split; try reflexivity; exact Hm.
    - simpl. destruct (_ <=? _)%Z; simpl; repeat split; try reflexivity; exact Hm. }
  intros res. unfold res.
  destruct (F3 (recordPriceHistory now (updateAsks m book st)))
    as [A1 [A2 [A3 [A4 [A5 [A6 [A7 A8]]]]]]].
  destruct (F2 (updateAsks m book st)) as [B1 [B2 [B3 [B4 [B5 B6]]]]].
  destruct (F1 st) as [C1 [C2 [C3 [C4 [C5 C6]]]]].
  repeat split; congruence.
Qed.

(** The orderbook handler places an order only when autoExecute is on, no
    execution is in flight and the cooldown since the last execution has
    elapsed; otherwise it emits no execution event and leaves the fill
    counters and the time of the last execution as they were. *)
Theorem execution_is_gated (now : Z) (o : OrderOutcome) (book : OrderbookSnapshot)
    (st : DipArbService) :
  autoExecute (config st) = false
  \/ isExecuting st = true
  \/ inject_Z (now - lastExecutionTime st) < executionCooldown (config st) ->
  let res := handleOrderbookUpdate now o book st in
  existsb isExecution (snd res) = false
  /\ leg1Filled (stats (fst res)) = leg1Filled (stats st)
  /\ leg2Filled (stats (fst res)) = leg2Filled (stats st)
  /\ lastExecutionTime (fst res) = lastExecutionTime st.
Proof.
  intros Hgate. unfold handleOrderbookUpdate.
  destruct (market st) as [m |]; [| simpl; auto].
  destruct (beforeDetector_frame now m book st)
    as [A1 [A2 [A3 [_ [_ [_ [A7 _]]]]]]].
  pose proof (checkAndStartNewRound_stats now
                (recordPriceHistory now (updateAsks m book st))) as Hc.
  assert (E0 : stats (recordPriceHistory now (updateAsks m book st)) = stats st).
  { destruct (Phase.recordPriceHistory_frame now (updateAsks m book st)) as [_ [_ H]].
    rewrite H. unfold updateAsks.
    destruct (String.eqb _ _); [reflexivity |]. destruct (String.eqb _ _); reflexivity. }
  rewrite E0 in Hc.
  destruct (checkAndStartNewRound now _) as [s ev1]. simpl in A1, A2, A3, A7, Hc.
  destruct Hc as [_ [Hl1 [Hl2 _]]].
  destruct (detectSignal now s) as [sg |]; [| simpl; auto].
  assert (Hs : handleSignal now o sg s
               = (set_stats (set_signalsDetected (S (signalsDetected (stats s))) (stats s)) s,
                  [EvSignal sg])).
  { unfold handleSignal. simpl. rewrite A1, A2, A3.
    destruct Hgate as [G | [G | G]].
    - rewrite G. reflexivity.
    - rewrite G. rewrite andb_false_r. reflexivity.
    - apply Qle_bool_gt in G. rewrite G.
      destruct (autoExecute (config st) && negb (isExecuting st))%bool; reflexivity. }
  rewrite Hs. simpl. rewrite existsb_app, A7. simpl. auto.
Qed.

Lemma execution_is_gated_witness :
  existsb isExecution (snd (afterDip 0.55)) = false
  /\ existsb isExecution
       (snd (handleOrderbookUpdate 4600 OrderFilled (downBook 0.55) (fst (afterDip 0.55))))
     = false.
Proof.
  split; [vm_compute; reflexivity |].
  apply (execution_is_gated 4600 OrderFilled (downBook 0.55) (fst (afterDip 0.55))).
  left. vm_compute. reflexivity.
Defined.

(** *** What the Leg1 detector returns *)

Lemma validated_facts (st : DipArbService) (side : DipArbSide) (p o : Q)
    (src : SignalSource) (d : Q) (ref : option Q) (s : DipArbLeg1Signal) :
  validated st (createLeg1Signal st side p o src d ref) = Some s ->
  0 < p /\ p < 1 /\ dipThreshold (config st) <= d
  /\ dipSide s = side /\ s1_currentPrice s = p /\ oppositeAsk s = o
  /\ dropPercent s = d /\ source s = src
  /\ s1_targetPrice s = p * (1 + maxSlippage (config st))
  /\ estimatedTotalCost s = p * (1 + maxSlippage (config st)) + o
  /\ s1_shares s = shares (config st)
  /\ exists r m, currentRound st = Some r /\ market st = Some m
       /\ s1_roundId s = roundId r
       /\ s1_tokenId s = match side with UP => upTokenId m | DOWN => downTokenId m end.
Proof.
  unfold validated, createLeg1Signal.
  destruct (currentRound st) as [r |]; [| discriminate].
  destruct (market st) as [m |]; [| discriminate].
  unfold validateSignalProfitability. simpl.
  destruct (Qle_bool p 0) eqn:A; [discriminate |].
  destruct (Qle_bool 1 p) eqn:B; [discriminate |].
  destruct (Qltb d (dipThreshold (config st))) eqn:C; [discriminate |].
  simpl. intros H. inversion H; subst s; clear H. simpl. qprop.
  repeat (split; [first [assumption | reflexivity] |]).
  exists r, m. auto.
Qed.

(** Every signal of the detector went through [createLeg1Signal] and
    [validateSignalProfitability] for one side and its current ask. *)
Lemma detectLeg1Signal_origin (now : Z) (st : DipArbService) (s : DipArbLeg1Signal) :
  detectLeg1Signal now st = Some s ->
  (exists r, currentRound st = Some r
     /\ inject_Z (now - startTime r) / 60000 <= windowMinutes (config st))
  /\ bestAsk (upAsks st) 1 < 1 /\ bestAsk (downAsks st) 1 < 1
  /\ exists side src d ref,
       validated st (createLeg1Signal st side (sideBestAsk st side 1)
                       (sideBestAsk st (opposite side) 1) src d ref) = Some s.
Proof.
  unfold detectLeg1Signal.
  destruct (currentRound st) as [r |]; [| discriminate].
  destruct (market st); [| discriminate].
  destruct (Qltb _ _) eqn:W; [discriminate |].
  destruct (Qle_bool 1 (bestAsk (upAsks st) 1)) eqn:U; [discriminate |].
  destruct (Qle_bool 1 (bestAsk (downAsks st) 1)) eqn:D; [discriminate |].
  destruct (_ || _)%bool; [discriminate |].
  qprop. intros H.
  split; [exists r; auto |]. split; [exact U |]. split; [exact D |].
  unfold dipPattern, surgePattern, mispricingPattern in H. unfold orElse in H.
  split_hyp H; try discriminate;
    try match type of H with Some _ = Some _ => inversion H; subst end;
    first [ exists UP; do 3 eexists; cbn [sideBestAsk opposite]; eassumption
          | exists DOWN; do 3 eexists; cbn [sideBestAsk opposite]; eassumption ].
Qed.

(** Every Leg1 signal the detector returns is for a side whose current best
    ask is strictly between 0 and 1 while the other side's is below 1,
    inside the admission window, with dropPercent >= dipThreshold, a
    target of ask * (1 + maxSlippage), the configured share count, and the
    round identifier and token of the current round and market. *)
Theorem leg1_signal_is_valid (now : Z) (st : DipArbService) (s : DipArbLeg1Signal) :
  detectLeg1Signal now st = Some s ->
  s1_currentPrice s = sideBestAsk st (dipSide s) 1
  /\ 0 < s1_currentPrice s /\ s1_currentPrice s < 1
  /\ oppositeAsk s = sideBestAsk st (opposite (dipSide s)) 1
  /\ oppositeAsk s < 1
  /\ dipThreshold (config st) <= dropPercent s
  /\ s1_targetPrice s = s1_currentPrice s * (1 + maxSlippage (config st))
  /\ estimatedTotalCost s = s1_targetPrice s + oppositeAsk s
  /\ s1_shares s = shares (config st)
  /\ exists r m, currentRound st = Some r /\ market st = Some m
       /\ inject_Z (now - startTime r) / 60000 <= windowMinutes (config st)
       /\ s1_roundId s = roundId r
       /\ s1_tokenId s = match dipSide s with
                         | UP => upTokenId m
                         | DOWN => downTokenId m
                         end.
Proof.
  intros H.
  destruct (detectLeg1Signal_origin now st s H)
    as [[r [Hr Hw]] [Hu [Hd [side [src [d [ref V]]]]]]].
  destruct (validated_facts _ _ _ _ _ _ _ _ V)
    as [P0 [P1 [T [S1 [S2 [S3 [S4 [S5 [S6 [S7 [S8 [r' [m [Hr' [Hm [S9 S10]]]]]]]]]]]]]]]].
  rewrite Hr in Hr'. inversion Hr'; subst r'.
  rewrite S1, S2, S3, S4, S6, S7.
  repeat (split; [first [assumption | reflexivity] |]).
  split; [destruct side; simpl; assumption |].
  repeat (split; [first [assumption | reflexivity] |]).
  exists r, m. auto.
Qed.

Lemma leg1_signal_is_valid_witness :
  exists s, detectLeg1Signal 4500 dipState = Some s
    /\ 0 < s1_currentPrice s /\ s1_currentPrice s < 1.
Proof.
  destruct (detectLeg1Signal 4500 dipState) as [s |] eqn:E;
    [| vm_compute in E; discriminate].
  exists s. split; [reflexivity |].
  destruct (leg1_signal_is_valid 4500 dipState s E) as [_ [H0 [H1 _]]].
  split; assumption.
Defined.

Lemma dipPattern_unreachable_threshold (st : DipArbService) (side : DipArbSide)
    (p o : Q) (ago : option Q) :
  1 <= dipThreshold (config st) ->
  dipPattern st side p o ago = None.
Proof.
  intros Ht. unfold dipPattern.
  destruct ago as [ref |]; [| reflexivity].
  destruct (Qltb 0 ref) eqn:R; [| reflexivity].
  destruct (Qle_bool _ _) eqn:D; [| reflexivity].
  destruct (validated st _) as [s |] eqn:V; [| reflexivity].
  exfalso.
  destruct (validated_facts _ _ _ _ _ _ _ _ V) as [P0 [_ [T _]]].
  qprop.
  assert (Hlt : (ref - p) / ref < 1).
  { apply Qlt_shift_div_r; [exact R | lra]. }
  lra.
Qed.

(** With dipThreshold >= 1 the detector never returns a dip signal: a
    price cannot drop by 100% and stay positive. *)
Theorem no_dip_signal_at_full_threshold (now : Z) (st : DipArbService)
    (s : DipArbLeg1Signal) :
  1 <= dipThreshold (config st) ->
  detectLeg1Signal now st = Some s ->
  source s <> dip.
Proof.
  intros Ht. unfold detectLeg1Signal.
  destruct (currentRound st) as [r |]; [| discriminate].
  destruct (market st); [| discriminate].
  destruct (Qltb _ _); [discriminate |].
  destruct (_ || _)%bool; [discriminate |].
  rewrite !(dipPattern_unreachable_threshold st _ _ _ _ Ht). simpl.
  unfold surgePattern, mispricingPattern. unfold orElse. intros H.
  split_hyp H; try discriminate;
    try match type of H with Some _ = Some _ => inversion H; subst end;
    match goal with
    | V : validated _ (createLeg1Signal _ _ _ _ ?src _ _) = Some s |- _ =>
        destruct (Leg1.validated_source _ _ _ _ _ _ _ _ V) as [E _];
        rewrite E; discriminate
    end.
Qed.

Lemma no_dip_signal_at_full_threshold_witness :
  detectLeg1Signal 4500 fullThreshold = None
  /\ forall s, detectLeg1Signal 4500 fullThreshold = Some s -> source s <> dip.
Proof.
  split; [vm_compute; reflexivity |].
  intros s. apply (no_dip_signal_at_full_threshold 4500 fullThreshold s).
  vm_compute. discriminate.
Defined.

(** *** Round management *)

Lemma updateAsks_recordPriceHistory_round (now : Z) (m : DipArbMarketConfig)
    (book : OrderbookSnapshot) (st : DipArbService) :
  let s := recordPriceHistory now (updateAsks m book st) in
  currentRound s = currentRound st /\ market s = market st
  /\ stats s = stats st /\ config s = config st
  /\ currentUnderlyingPrice s = currentUnderlyingPrice st.
Proof.
  unfold recordPriceHistory, updateAsks.
  destruct (String.eqb _ _); [| destruct (String.eqb _ _)];
    destruct (_ || _)%bool; try (destruct (_ <? _)%nat); simpl; auto.
Qed.

(** Handling a signal never touches what a round was opened with. *)
Lemma handleSignal_round_static (now : Z) (o : OrderOutcome) (sg : DipArbSignal)
    (st : DipArbService) (r : DipArbRoundState) :
  currentRound st = Some r ->
  exists r', currentRound (fst (handleSignal now o sg st)) = Some r'
    /\ roundId r' = roundId r /\ startTime r' = startTime r
    /\ openPrices_up r' = openPrices_up r
    /\ openPrices_down r' = openPrices_down r
    /\ priceToBeat r' = priceToBeat r.
Proof.
  intros Hr. unfold handleSignal, executeLeg1, executeLeg2. simpl. rewrite Hr.
  destruct (autoExecute _ && negb _)%bool; [| exists r; simpl; auto 10].
  destruct (Qle_bool _ _); [| exists r; simpl; auto 10].
  destruct sg; simpl; destruct (hasTradingService st), (market st), o; simpl;
    first [ exists r; simpl; rewrite ?Hr; auto 10; fail
          | eexists; split; [reflexivity |]; simpl; auto 10 ].
Qed.

(** The Leg2 timeout is checked before the detector runs: on the first
    orderbook update later than leg2TimeoutSeconds after the Leg1 fill, a
    leg1_filled round becomes expired, the only event is
    roundComplete(expired) carrying Leg1, roundsExpired grows by one, and
    no Leg2 signal is emitted however cheap the hedge is. *)
Theorem leg2_timeout_expires_round (now : Z) (o : OrderOutcome)
    (book : OrderbookSnapshot) (st : DipArbService) (m : DipArbMarketConfig)
    (r : DipArbRoundState) (l : DipArbLegInfo) :
  market st = Some m -> currentRound st = Some r ->
  phase r = leg1_filled -> leg1 r = Some l ->
  leg2TimeoutSeconds (config st)
  < inject_Z (now - int_or (leg_timestamp l) (startTime r)) / 1000 ->
  let res := handleOrderbookUpdate now o book st in
  currentRound (fst res) = Some (set_phase expired r)
  /\ snd res = [EvRoundComplete
                  {| rr_roundId := roundId r; rr_status := StExpired;
                     rr_leg1 := Some l; rr_leg2 := None; rr_totalCost := None;
                     rr_profit := None; rr_profitRate := None; rr_merged := false |}]
  /\ roundsExpired (stats (fst res)) = S (roundsExpired (stats st))
  /\ leg2Filled (stats (fst res)) = leg2Filled (stats st)
  /\ signalsDetected (stats (fst res)) = signalsDetected (stats st).
Proof.
  intros Hm Hr Hp Hl Ht. unfold handleOrderbookUpdate. rewrite Hm.
  destruct (updateAsks_recordPriceHistory_round now m book st)
    as [E1 [E2 [E3 [E4 _]]]].
  set (s0 := recordPriceHistory now (updateAsks m book st)) in *.
  assert (Hc : checkAndStartNewRound now s0
               = (set_stats
                    (set_roundsCompleted (S (roundsCompleted (stats st)))
                       (set_roundsExpired (S (roundsExpired (stats st))) (stats st)))
                    (set_currentRound (Some (set_phase expired r)) s0),
                  [EvRoundComplete
                     {| rr_roundId := roundId r; rr_status := StExpired;
                        rr_leg1 := Some l; rr_leg2 := None; rr_totalCost := None;
                        rr_profit := None; rr_profitRate := None;
                        rr_merged := false |}])).
  { unfold checkAndStartNewRound. rewrite E2, Hm, E1, Hr, Hp. simpl.
    rewrite E1, Hr, Hp, Hl, E4.
    apply Qltb_lt in Ht. rewrite Ht. simpl. rewrite E3. reflexivity. }
  rewrite Hc.
  assert (Hd : detectSignal now
                 (set_stats
                    (set_roundsCompleted (S (roundsCompleted (stats st)))
                       (set_roundsExpired (S (roundsExpired (stats st))) (stats st)))
                    (set_currentRound (Some (set_phase expired r)) s0)) = None).
  { unfold detectSignal. simpl. rewrite E2, Hm. reflexivity. }
  rewrite Hd. simpl. auto.
Qed.

Lemma leg2_timeout_expires_round_witness :
  option_map phase
    (currentRound (fst (handleOrderbookUpdate 305000 OrderFilled (downBook 0.40) afterLeg1)))
  = Some expired.
Proof.
  destruct (leg2_timeout_expires_round 305000 OrderFilled (downBook 0.40) afterLeg1
              (marketOf afterLeg1) (roundOf afterLeg1) (leg1Of afterLeg1))
    as [H _]; [vm_compute; reflexivity .. |].
  rewrite H. reflexivity.
Defined.

(** Once the market's end time has passed, an instance without a round, or
    whose round is completed or expired, opens no further round: the
    orderbook update emits nothing and leaves round and statistics as they
    are. *)
Theorem no_round_after_market_end (now : Z) (o : OrderOutcome)
    (book : OrderbookSnapshot) (st : DipArbService) (m : DipArbMarketConfig) :
  market st = Some m -> (endTime m <= now)%Z ->
  match currentRound st with
  | None => True
  | Some r => terminal (phase r) = true
  end ->
  let res := handleOrderbookUpdate now o book st in
  snd res = []
  /\ currentRound (fst res) = currentRound st
  /\ stats (fst res) = stats st.
Proof.
  intros Hm He Hround. unfold handleOrderbookUpdate. rewrite Hm.
  destruct (updateAsks_recordPriceHistory_round now m book st)
    as [E1 [E2 [E3 _]]].
  set (s0 := recordPriceHistory now (updateAsks m book st)) in *.
  assert (Hc : checkAndStartNewRound now s0 = (s0, [])).
  { unfold checkAndStartNewRound. rewrite E2, Hm, E1.
    apply Z.leb_le in He.
    destruct (currentRound st) as [r |].
    - destruct (phase r); try discriminate; simpl; rewrite He; reflexivity.
    - simpl. rewrite He. reflexivity. }
  rewrite Hc.
  assert (Hd : detectSignal now s0 = None).
  { unfold detectSignal. rewrite E1.
    destruct (currentRound st) as [r |]; [| reflexivity].
    rewrite E2, Hm. destruct (phase r); try discriminate; reflexivity. }
  rewrite Hd. simpl. auto.
Qed.

Lemma no_round_after_market_end_witness :
  snd (handleOrderbookUpdate 900001 OrderFilled (upBook 0.20) (fst (afterLeg2 0.55))) = [].
Proof.
  apply (no_round_after_market_end 900001 OrderFilled (upBook 0.20)
           (fst (afterLeg2 0.55)) btcMarket);
    vm_compute; first [reflexivity | discriminate].
Defined.

(** Before the market's end time, an orderbook update on an instance
    without a round, or whose round is completed or expired, opens a round:
    the first event is newRound, the round starts now in the waiting phase
    with the current best asks as open prices (0.5 for an empty ladder) and
    the latest oracle price as price-to-beat, roundsMonitored grows by one,
    and the price history starts empty again. *)
Theorem new_round_opens (now : Z) (o : OrderOutcome)
    (book : OrderbookSnapshot) (st : DipArbService) (m : DipArbMarketConfig) :
  market st = Some m -> (now < endTime m)%Z ->
  match currentRound st with
  | None => True
  | Some r => terminal (phase r) = true
  end ->
  let s0 := updateAsks m book st in
  let res := handleOrderbookUpdate now o book st in
  let opened := {| nr_roundId := (slug m, now);
                   nr_priceToBeat := num_or (currentUnderlyingPrice st) 0;
                   upOpen := bestAsk (upAsks s0) 0.5;
                   downOpen := bestAsk (downAsks s0) 0.5;
                   nr_startTime := now;
                   nr_endTime := (now + durationMinutes m * 60 * 1000)%Z |} in
  (exists rest, snd res = EvNewRound opened :: rest)
  /\ (exists r', currentRound (fst res) = Some r'
        /\ roundId r' = (slug m, now) /\ startTime r' = now
        /\ openPrices_up r' = upOpen opened
        /\ openPrices_down r' = downOpen opened
        /\ priceToBeat r' = nr_priceToBeat opened)
  /\ roundsMonitored (stats (fst res)) = S (roundsMonitored (stats st))
  /\ priceHistory (fst res) = [].
Proof.
  intros Hm He Hround s0 res opened. unfold res, handleOrderbookUpdate. rewrite Hm.
  fold s0.
  destruct (updateAsks_recordPriceHistory_round now m book st)
    as [E1 [E2 [E3 [E4 E5]]]].
  fold s0 in E1, E2, E3, E4, E5.
  assert (Eu : upAsks (recordPriceHistory now s0) = upAsks s0
               /\ downAsks (recordPriceHistory now s0) = downAsks s0).
  { unfold recordPriceHistory. destruct (_ || _)%bool; [auto |].
    destruct (_ <? _)%nat; auto. }
  destruct Eu as [Eu Ed].
  set (s1 := recordPriceHistory now s0) in *.
  set (fresh := createDipArbRoundState now (slug m, now)
                  (num_or (currentUnderlyingPrice st) 0)
                  (bestAsk (upAsks s0) 0.5) (bestAsk (downAsks s0) 0.5)
                  (durationMinutes m)).
  assert (Hc : checkAndStartNewRound now s1
               = (set_stats (set_roundsMonitored (S (roundsMonitored (stats st))) (stats st))
                    (set_leg1SignalEmitted false
                       (set_priceHistory [] (set_currentRound (Some fresh) s1))),
                  [EvNewRound opened])).
  { unfold checkAndStartNewRound. rewrite E2, Hm, E1.
    assert (Hlt : (endTime m <=? now)%Z = false) by (apply Z.leb_gt; exact He).
    destruct (currentRound st) as [r |].
    - destruct (phase r); try discriminate; simpl; rewrite Hlt; simpl;
        rewrite Eu, Ed, E5, E3; reflexivity.
    - simpl. rewrite Hlt. simpl. rewrite Eu, Ed, E5, E3. reflexivity. }
  rewrite Hc.
  set (s2 := set_stats _ _).
  destruct (detectSignal now s2) as [sg |].
  - pose proof (handleSignal_round_static now o sg s2 fresh eq_refl)
      as [r' [G1 [G2 [G3 [G4 [G4' G4'']]]]]].
    pose proof (handleSignal_stats now o sg s2) as [_ [G5 _]].
    pose proof (Leg1.handleSignal_history now o sg s2) as G6.
    destruct (handleSignal now o sg s2) as [s' ev2]. simpl in G1, G5, G6 |- *.
    split; [eexists; reflexivity |].
    split; [| split; [exact G5 | exact G6]].
    exists r'. rewrite G2, G3, G4, G4', G4''. simpl. auto 10.
  - simpl. split; [eexists; reflexivity |].
    split; [exists fresh; simpl; auto 10 | auto].
Qed.

Lemma new_round_opens_witness :
  roundsMonitored (stats (fst (handleOrderbookUpdate 9000 OrderFilled (upBook 0.45)
                                 (fst (afterLeg2 0.55))))) = 2%nat.
Proof.
  destruct (new_round_opens 9000 OrderFilled (upBook 0.45) (fst (afterLeg2 0.55)) btcMarket)
    as [_ [_ [H _]]]; [vm_compute; reflexivity .. |].
  rewrite H. vm_compute. reflexivity.
Defined.

(** *** The helper functions of dip-arb-types.ts *)





Lemma profitRate_antitone (c t : Q) :
  0 < c -> c <= t -> t < 1 ->
  (1 - t) / t <= calculateDipArbProfitRate c.
Proof.
  intros H0 Hle H1.
  rewrite (Leg2.calculateDipArbProfitRate_inside c H0) by lra.
  apply Qle_shift_div_l; [exact H0 |].
  assert (E : (1 - t) / t * c == (1 - t) * c / t) by (field; lra).
  rewrite E. apply Qle_shift_div_r; [lra |]. nra.
Qed.

(** The profit rate is never negative.  With sumTarget < 1, every Leg2
    signal of positive total cost has totalCost <= sumTarget, hence a
    profit per share of at least 1 - sumTarget and an expectedProfitRate of
    at least (1 - sumTarget) / sumTarget (1/19 with the default 0.95). *)
Theorem leg2_signal_profit_floor (st : DipArbService) (s : DipArbLeg2Signal) :
  (forall c, 0 <= calculateDipArbProfitRate c)
  /\ (detectLeg2Signal st = Some s ->
      totalCost s <= sumTarget (config st)
      /\ (sumTarget (config st) < 1 -> 0 < totalCost s ->
          1 - sumTarget (config st) <= 1 - totalCost s
          /\ (1 - sumTarget (config st)) / sumTarget (config st)
             <= expectedProfitRate s)).
Proof.
  split.
  - intros c. unfold calculateDipArbProfitRate.
    destruct (Qle_bool 1 c) eqn:A; [simpl; lra |].
    destruct (Qle_bool c 0) eqn:B; [simpl; lra |]. simpl. qprop.
    apply Qle_shift_div_l; lra.
  - unfold detectLeg2Signal.
    destruct (currentRound st) as [r |]; [| discriminate].
    destruct (market st) as [m |]; [| discriminate].
    destruct (leg1 r) as [l |]; [| discriminate].
    destruct (Qle_bool 1 _); [discriminate |].
    destruct (Qltb _ _) eqn:T; [discriminate |].
    intros H. inversion H; subst s; clear H. simpl. qprop.
    split; [exact T |]. intros H1 H0. split; [lra |].
    apply profitRate_antitone; assumption.
Qed.

Lemma leg2_signal_profit_floor_witness :
  let st := set_downAsks (asks (downBook 0.55)) afterLeg1 in
  match detectLeg2Signal st with
  | Some s => 0.05 / 0.95 <= expectedProfitRate s
  | None => False
  end.
Proof.
  intros st.
  destruct (detectLeg2Signal st) as [s |] eqn:E; [| vm_compute in E; discriminate].
  destruct (leg2_signal_profit_floor st s) as [_ H].
  destruct (H E) as [_ H'].
  assert (Hs : sumTarget (config st) == 0.95) by reflexivity.
  destruct H' as [_ H'];
    [ vm_compute; reflexivity
    | vm_compute in E; inversion E; vm_compute; reflexivity
    | ].
  assert (Hq : 0.05 / 0.95 == (1 - sumTarget (config st)) / sumTarget (config st))
    by reflexivity.
  rewrite Hq. exact H'.
Defined.

(** *** Start and stop *)

(** [start] succeeds exactly when the instance is not running and both
    token identifiers of the market are non-empty; the instance it returns
    is running on that market, so that a second [start] throws until
    [stop] is called. *)
Theorem start_succeeds_iff (now : Z) (m : DipArbMarketConfig) (st : DipArbService) :
  ((exists s ev, start now m st = inr (s, ev))
   <-> isRunning st = false /\ upTokenId m <> EmptyString /\ downTokenId m <> EmptyString)
  /\ (isRunning st = true -> start now m st = inl AlreadyRunning)
  /\ (forall s ev now' m',
        start now m st = inr (s, ev) ->
        start now' m' s = inl AlreadyRunning
        /\ market s = Some m /\ isRunning s = true).
Proof.
  assert (Htr : forall s, truthy s = true <-> s <> EmptyString).
  { intros s. unfold truthy. rewrite negb_true_iff.
    destruct (String.eqb_spec s EmptyString); split; congruence. }
  split; [| split].
  - unfold start. destruct (isRunning st).
    + split; [intros [s [ev H]]; discriminate | intros [H _]; discriminate].
    + destruct (truthy (upTokenId m)) eqn:U, (truthy (downTokenId m)) eqn:D; simpl.
      * split; [intros _ | intros _; eauto].
        split; [reflexivity |]. split; apply Htr; assumption.
      * split; [intros [s [ev H]]; discriminate |].
        intros [_ [_ H]]. apply Htr in H. congruence.
      * split; [intros [s [ev H]]; discriminate |].
        intros [_ [H _]]. apply Htr in H. congruence.
      * split; [intros [s [ev H]]; discriminate |].
        intros [_ [H _]]. apply Htr in H. congruence.
  - intros H. unfold start. rewrite H. reflexivity.
  - intros s ev now' m' H.
    destruct (Rotation.start_inr now m st s ev H) as [_ [_ [Hm [Hr _]]]].
    split; [unfold start; rewrite Hr; reflexivity | auto].
Qed.

Lemma start_succeeds_iff_witness :
  start 5 ethMarket (started btcMarket) = inl AlreadyRunning.
Proof.
  destruct (start_succeeds_iff 5 ethMarket (started btcMarket)) as [_ [H _]].
  apply H. vm_compute. reflexivity.
Defined.

(** [stop] is idempotent: a second call returns the instance unchanged and
    emits nothing.  The first call on a running instance clears the
    rotation timer and both subscriptions and records the running time; in
    every case the pending-redemption queue, the redemption timer, the
    market and the current round are left as they are. *)
Theorem stop_is_idempotent (now now' : Z) (st : DipArbService) :
  let s := fst (stop now st) in
  stop now' s = (s, [])
  /\ isRunning s = false
  /\ (isRunning st = true ->
      snd (stop now st) = [EvStopped]
      /\ rotateCheckInterval s = false
      /\ marketSubscription s = false
      /\ chainlinkSubscription s = false
      /\ runningTimeMs (stats s) = (now - stats_startTime (stats st))%Z)
  /\ (isRunning st = false -> stop now st = (st, []))
  /\ pendingRedemptions s = pendingRedemptions st
  /\ redeemCheckInterval s = redeemCheckInterval st
  /\ market s = market st
  /\ currentRound s = currentRound st.
Proof.
  unfold stop, stopRotateCheck.
  destruct (isRunning st) eqn:E; simpl.
  - destruct (rotateCheckInterval st) eqn:A; simpl;
      destruct (marketSubscription st) eqn:B; simpl;
      destruct (chainlinkSubscription st) eqn:C; simpl;
      repeat split; try reflexivity; try discriminate; try assumption.
  - rewrite E. simpl. repeat split; try reflexivity; try discriminate; try assumption.
Qed.

Lemma stop_is_idempotent_witness :
  snd (stop 10 (started btcMarket)) = [EvStopped]
  /\ stop 20 (fst (stop 10 (started btcMarket))) = (fst (stop 10 (started btcMarket)), []).
Proof.
  destruct (stop_is_idempotent 10 20 (started btcMarket)) as [H1 [_ [H2 _]]].
  split; [apply H2; vm_compute; reflexivity | exact H1].
Defined.

(** *** Rotation *)

Lemma findNextMarket_find (scan : list DipArbMarketConfig) (st : DipArbService) :
  findNextMarket scan st = List.find (eligible st) scan.
Proof.
  unfold findNextMarket, eligible.
  induction scan as [| m scan IH]; [reflexivity |].
  simpl. destruct (existsb _ _); simpl; [| exact IH].
  destruct (match market st with Some cur => _ | None => true end); simpl;
    [reflexivity | exact IH].
Qed.

(** The successor chosen by the rotation is the first market of the scan,
    in scan order, whose underlying is configured and whose conditionId
    differs from the current market's; there is none exactly when the scan
    holds no such market. *)
Theorem findNextMarket_first_eligible (scan : list DipArbMarketConfig)
    (st : DipArbService) :
  (forall m, findNextMarket scan st = Some m ->
     exists before after,
       scan = before ++ m :: after
       /\ Forall (fun x => eligible st x = false) before
       /\ In (underlying m) (underlyings (autoRotateConfig st))
       /\ (forall cur, market st = Some cur -> conditionId m <> conditionId cur))
  /\ (findNextMarket scan st = None <->
      Forall (fun x => eligible st x = false) scan).
Proof.
  rewrite findNextMarket_find. split.
  - intros m. induction scan as [| x scan IH]; [discriminate |].
    simpl. destruct (eligible st x) eqn:E.
    + intros H. inversion H; subst x. exists [], scan.
      split; [reflexivity |]. split; [constructor |].
      unfold eligible in E. apply andb_true_iff in E. destruct E as [E1 E2].
      split.
      * apply existsb_exists in E1. destruct E1 as [u [Hin Hu]].
        destruct (underlying m), u; simpl in Hu; try discriminate; exact Hin.
      * intros cur Hc. rewrite Hc in E2. apply negb_true_iff in E2.
        intros Heq. rewrite Heq, String.eqb_refl in E2. discriminate.
    + intros H. destruct (IH H) as [b [a [H1 [H2 H3]]]].
      exists (x :: b), a. split; [rewrite H1; reflexivity |].
      split; [constructor; assumption | exact H3].
  - induction scan as [| x scan IH]; [split; [constructor | reflexivity] |].
    simpl. destruct (eligible st x) eqn:E.
    + split; [discriminate |]. intros H. inversion H; subst. congruence.
    + split.
      * intros H. constructor; [exact E | apply IH; exact H].
      * intros H. inversion H; subst. apply IH. assumption.
Qed.

Lemma findNextMarket_first_eligible_witness :
  findNextMarket [btcMarket; ethMarket; btcNext] rotating = Some btcNext
  /\ exists before after,
       [btcMarket; ethMarket; btcNext] = before ++ btcNext :: after
       /\ Forall (fun x => eligible rotating x = false) before.
Proof.
  assert (H : findNextMarket [btcMarket; ethMarket; btcNext] rotating = Some btcNext)
    by (vm_compute; reflexivity).
  split; [exact H |].
  destruct (findNextMarket_first_eligible [btcMarket; ethMarket; btcNext] rotating)
    as [G _].
  destruct (G btcNext H) as [b [a [H1 [H2 _]]]].
  exists b, a. auto.
Defined.

Lemma stop_frame (now : Z) (st : DipArbService) :
  pendingRedemptions (fst (stop now st)) = pendingRedemptions st
  /\ market (fst (stop now st)) = market st
  /\ nextMarket (fst (stop now st)) = nextMarket st
  /\ isRunning (fst (stop now st)) = false
  /\ filter isSettled (snd (stop now st)) = []
  /\ existsb isRotate (snd (stop now st)) = false.
Proof.
  unfold stop, stopRotateCheck. destruct (isRunning st) eqn:E; simpl; [| auto 10].
  destruct (rotateCheckInterval st); simpl;
    destruct (marketSubscription st); simpl;
    destruct (chainlinkSubscription st); simpl; auto 10.
Qed.

Lemma stopThenStart_frame (now : Z) (newM : DipArbMarketConfig)
    (st : DipArbService) :
  match stopThenStart now newM st with
  | inl e => e = MissingTokenIds
  | inr (s, ev) =>
      pendingRedemptions s = pendingRedemptions st
      /\ nextMarket s = nextMarket st
      /\ market s = Some newM
      /\ isRunning s = true
      /\ ev = snd (stop now st) ++ [EvStarted newM]
  end.
Proof.
  unfold stopThenStart.
  destruct (stop_frame now st) as [H1 [_ [H3 [H4 _]]]].
  destruct (stop now st) as [s ev1]. simpl in *.
  unfold start. rewrite H4.
  destruct (_ || _)%bool; [reflexivity |]. simpl. auto.
Qed.



Lemma findNextMarket_ext (scan : list DipArbMarketConfig) (a b : DipArbService) :
  autoRotateConfig a = autoRotateConfig b -> market a = market b ->
  findNextMarket scan a = findNextMarket scan b.
Proof. unfold findNextMarket. intros -> ->. reflexivity. Qed.

(** The shape of a rotation tick at or after the end of the market: the
    settlement step leads to [s2] with the events [ev2], then the instance
    is stopped and, when there is a successor, started on it. *)
Lemma checkRotation_market_end (now : Z)
    (scanPreload scanSearch : list DipArbMarketConfig)
    (sell1 sell2 : OrderOutcome) (st : DipArbService) (m : DipArbMarketConfig) :
  enabled (autoRotateConfig st) = true -> market st = Some m ->
  (endTime m <= now)%Z ->
  exists s2 ev2,
    (pendingRedemptions s2, ev2)
    = match autoSettle (autoRotateConfig st), currentRound st with
      | true, Some r =>
          match leg1 r with
          | Some _ =>
              match settleStrategy (autoRotateConfig st) with
              | redeem => (pendingRedemptions st ++ [pendingFor now m r], [])
              | sell => (pendingRedemptions st,
                         [EvSettled (settleBySell sell1 sell2 st)])
              end
          | None => (pendingRedemptions st, [])
          end
      | _, _ => (pendingRedemptions st, [])
      end
    /\ market s2 = Some m
    /\ autoRotateConfig s2 = autoRotateConfig st
    /\ (forall n, nextMarket st = Some n -> nextMarket s2 = Some n)
    /\ (nextMarket st = None ->
        nextMarket s2 = None \/ nextMarket s2 = findNextMarket scanPreload st)
    /\ ((exists newM s0,
           ((nextMarket s2 = Some newM /\ s0 = set_nextMarket None s2)
            \/ (nextMarket s2 = None
                /\ findNextMarket scanSearch st = Some newM /\ s0 = s2))
           /\ checkRotation now scanPreload scanSearch sell1 sell2 st
              = match stopThenStart now newM s0 with
                | inl e => (fst (stop now s0), ev2 ++ snd (stop now s0), Some e)
                | inr (s', ev) =>
                    (startRotateCheck s',
                     ev2 ++ ev ++ [marketEndedEvent now m newM], None)
                end)
        \/ (nextMarket s2 = None
            /\ findNextMarket scanSearch st = None
            /\ checkRotation now scanPreload scanSearch sell1 sell2 st
               = (fst (stop now s2), ev2 ++ snd (stop now s2), None))).
Proof.
  intros He Hm Hle. unfold checkRotation. rewrite He, Hm.
  assert (Hz : (endTime m - now <=? 0)%Z = true) by (apply Z.leb_le; lia).
  rewrite Hz.
  set (s1 := match nextMarket st with
             | Some _ => st
             | None => _
             end).
  assert (H1 : pendingRedemptions s1 = pendingRedemptions st
               /\ market s1 = market st
               /\ autoRotateConfig s1 = autoRotateConfig st
               /\ currentRound s1 = currentRound st
               /\ settleBySell sell1 sell2 s1 = settleBySell sell1 sell2 st
               /\ (forall n, nextMarket st = Some n -> nextMarket s1 = Some n)
               /\ (nextMarket st = None ->
                   nextMarket s1 = None
                   \/ nextMarket s1 = findNextMarket scanPreload st)).
  { unfold s1. destruct (nextMarket st) eqn:Hn.
    - repeat split; try reflexivity; intros; congruence.
    - destruct (Qle_bool _ _); repeat split; try reflexivity;
        try discriminate; auto. }
  destruct H1 as [Hp [Hmk [Hc [Hr [Hs [Hn1 Hn2]]]]]].
  set (settled := match autoSettle (autoRotateConfig s1), currentRound s1 with
                  | true, Some r => _
                  | _, _ => _
                  end).
  assert (H2 : (pendingRedemptions (fst settled), snd settled)
               = match autoSettle (autoRotateConfig st), currentRound st with
                 | true, Some r =>
                     match leg1 r with
                     | Some _ =>
                         match settleStrategy (autoRotateConfig st) with
                         | redeem => (pendingRedemptions st ++ [pendingFor now m r], [])
                         | sell => (pendingRedemptions st,
                                    [EvSettled (settleBySell sell1 sell2 st)])
                         end
                     | None => (pendingRedemptions st, [])
                     end
                 | _, _ => (pendingRedemptions st, [])
                 end
               /\ market (fst settled) = Some m
               /\ autoRotateConfig (fst settled) = autoRotateConfig st
               /\ nextMarket (fst settled) = nextMarket s1).
  { unfold settled. rewrite Hc, Hr.
    destruct (autoSettle (autoRotateConfig st));
      [| simpl; rewrite ?Hp; repeat split; congruence].
    destruct (currentRound st) as [r |];
      [| simpl; rewrite ?Hp; repeat split; congruence].
    destruct (leg1 r);
      [| simpl; rewrite ?Hp; repeat split; congruence].
    destruct (settleStrategy (autoRotateConfig st));
      unfold addPendingRedemption, pendingFor; simpl;
      rewrite ?Hp, ?Hs; repeat split; congruence. }
  destruct settled as [s2 ev2]. simpl in H2.
  destruct H2 as [Hq [Hm2 [Hc2 Hn]]].
  exists s2, ev2.
  split; [exact Hq |]. split; [exact Hm2 |]. split; [exact Hc2 |].
  split; [intros n Hx; rewrite Hn; auto |].
  split; [intros Hx; rewrite Hn; auto |].
  assert (Hf : findNextMarket scanSearch s2 = findNextMarket scanSearch st)
    by (apply findNextMarket_ext; congruence).
  rewrite Hf.
  destruct (nextMarket s2) as [newM |] eqn:Hn2'.
  - left. exists newM, (set_nextMarket None s2). split; [left; auto |].
    unfold marketEndedEvent. reflexivity.
  - destruct (findNextMarket scanSearch st) as [newM |] eqn:Hfn.
    + left. exists newM, s2. split; [right; auto |].
      unfold marketEndedEvent. reflexivity.
    + right. auto.
Qed.



(** At the end of the market a rotation tick either ends on a freshly
    started successor or leaves the instance stopped.  In the first case
    the last two events are [started] for the successor and [rotate] with
    the ended market as previous market, the successor as new market and
    reason marketEnded; the rotation timer is armed again and no successor
    stays preloaded; a preloaded successor is preferred to a new search, and
    one found by the search is eligible.  In the second case no [rotate]
    event is emitted, the market is still the ended one, and [start] never
    failed for an instance already running. *)
Theorem market_end_rotates_or_stops (now : Z)
    (scanPreload scanSearch : list DipArbMarketConfig)
    (sell1 sell2 : OrderOutcome) (st s : DipArbService) (m : DipArbMarketConfig)
    (ev : list Event) (err : option StartError) :
  enabled (autoRotateConfig st) = true -> market st = Some m ->
  (endTime m <= now)%Z ->
  checkRotation now scanPreload scanSearch sell1 sell2 st = (s, ev, err) ->
  (isRunning s = true ->
   exists newM ev0,
     market s = Some newM
     /\ rotateCheckInterval s = true
     /\ nextMarket s = None
     /\ err = None
     /\ ev = ev0 ++ [EvStarted newM; marketEndedEvent now m newM]
     /\ existsb isRotate ev0 = false
     /\ (forall n, nextMarket st = Some n -> newM = n)
     /\ (nextMarket st = None ->
         findNextMarket scanPreload st = Some newM
         \/ findNextMarket scanSearch st = Some newM))
  /\ (isRunning s = false ->
      existsb isRotate ev = false
      /\ market s = Some m
      /\ err <> Some AlreadyRunning).
Proof.
  intros He Hm Hle Hrun.
  destruct (checkRotation_market_end now scanPreload scanSearch sell1 sell2 st m
              He Hm Hle) as [s2 [ev2 [Hq [Hm2 [_ [Hn1 [Hn2 Htail]]]]]]].
  assert (Hev2 : existsb isRotate ev2 = false).
  { destruct (autoSettle _); [| inversion Hq; reflexivity].
    destruct (currentRound st) as [r |]; [| inversion Hq; reflexivity].
    destruct (leg1 r); [| inversion Hq; reflexivity].
    destruct (settleStrategy _); inversion Hq; reflexivity. }
  destruct Htail as [[newM [s0 [Hs0 Heq]]] | [Hnone [Hfn Heq]]].
  - rewrite Hrun in Heq.
    assert (Hm0 : market s0 = Some m /\ nextMarket s0 = None).
    { destruct Hs0 as [[_ ->] | [Hx [_ ->]]]; simpl; auto. }
    destruct Hm0 as [Hm0 Hn0].
    pose proof (stopThenStart_frame now newM s0) as Hf.
    destruct (stop_frame now s0) as [_ [F2 [_ [F4 [_ F6]]]]].
    destruct (stopThenStart now newM s0) as [e | [s' ev0]].
    + inversion Heq; subst. split.
      * rewrite F4. discriminate.
      * intros _. rewrite existsb_app, Hev2, F6, F2. split; [reflexivity |].
        split; [exact Hm0 | discriminate].
    + destruct Hf as [_ [G2 [G3 [G4 G5]]]]. inversion Heq; subst. split.
      * intros _. exists newM, (ev2 ++ snd (stop now s0)).
        split; [exact G3 |]. split; [reflexivity |].
        split; [simpl; rewrite G2; exact Hn0 |]. split; [reflexivity |].
        split; [rewrite <- !app_assoc; reflexivity |].
        split; [rewrite existsb_app, Hev2, F6; reflexivity |].
        split.
        -- intros n Hn. apply Hn1 in Hn.
           destruct Hs0 as [[Hx _] | [Hx _]]; congruence.
        -- intros Hn. destruct Hs0 as [[Hx _] | [_ [Hx _]]]; [| auto].
           destruct (Hn2 Hn) as [Hy | Hy]; [congruence |].
           left. congruence.
      * simpl. rewrite G4. discriminate.
  - rewrite Hrun in Heq. inversion Heq; subst.
    destruct (stop_frame now s2) as [_ [F2 [_ [F4 [_ F6]]]]]. split.
    + rewrite F4. discriminate.
    + intros _. rewrite existsb_app, Hev2, F6, F2.
      split; [reflexivity |]. split; [exact Hm2 | discriminate].
Qed.

Lemma market_end_rotates_or_stops_witness :
  exists newM ev0,
    market (fst (fst afterRotation)) = Some newM
    /\ snd (fst afterRotation)
       = ev0 ++ [EvStarted newM; marketEndedEvent 900500 btcMarket newM].
Proof.
  destruct (market_end_rotates_or_stops 900500 [btcNext] [btcNext] OrderFilled
              OrderFilled rotating (fst (fst afterRotation)) btcMarket
              (snd (fst afterRotation)) (snd afterRotation)) as [H _].
  - vm_compute; reflexivity.
  - vm_compute; reflexivity.
  - simpl; lia.
  - unfold afterRotation. destruct (checkRotation _ _ _ _ _ _) as [[? ?] ?].
    reflexivity.
  - destruct H as [newM [ev0 [H1 [_ [_ [_ [H5 _]]]]]]];
      [vm_compute; reflexivity |].
    exists newM, ev0. auto.
Defined.

(** *** Settlement and merge *)

(** With a market and a round, [settle('sell')] is [settleBySell]: the
    settlement of the sell strategy in [checkRotation]. *)
Lemma settle_sell (ctf : CtfOutcome) (sell1 sell2 : OrderOutcome)
    (st : DipArbService) (m : DipArbMarketConfig) (r : DipArbRoundState) :
  market st = Some m -> currentRound st = Some r ->
  settle sell ctf sell1 sell2 st = settleBySell sell1 sell2 st.
Proof. unfold settle. intros -> ->. reflexivity. Qed.

(** The sell strategy reports success exactly when the trading service, a
    market and a round are there and no sell order throws - also when a sell
    order is rejected.  The amount it reports is, for every leg whose sell
    order was accepted, the leg's shares times the current best ask of the
    leg's side (0.5 for an empty ladder), and nothing for a rejected
    one. *)
Theorem settleBySell_success_and_amount (sell1 sell2 : OrderOutcome)
    (st : DipArbService) :
  (st_success (settleBySell sell1 sell2 st) = true <->
   hasTradingService st = true /\ market st <> None
   /\ exists r, currentRound st = Some r
        /\ (leg1 r = None \/ sell1 <> OrderThrew)
        /\ (leg2 r = None \/ sell2 <> OrderThrew))
  /\ (forall r, currentRound st = Some r ->
      st_success (settleBySell sell1 sell2 st) = true ->
      exists a, amountReceived (settleBySell sell1 sell2 st) = Some a
        /\ a == proceeds st (leg1 r) sell1 + proceeds st (leg2 r) sell2)
  /\ (st_success (settleBySell sell1 sell2 st) = false ->
      amountReceived (settleBySell sell1 sell2 st) = None).
Proof.
  unfold settleBySell, proceeds.
  destruct (hasTradingService st);
    [| split; [split; [discriminate | intros [H _]; discriminate] |
               split; [discriminate | reflexivity]]].
  destruct (market st) as [m |];
    [| split; [split; [discriminate | intros [_ [H _]]; congruence] |
               split; [discriminate | reflexivity]]].
  destruct (currentRound st) as [r |];
    [| split; [split; [discriminate | intros [_ [_ [r [H _]]]]; discriminate] |
               split; [discriminate | reflexivity]]].
  split; [| split].
  - split.
    + intros H. split; [reflexivity |]. split; [discriminate |].
      exists r. split; [reflexivity |].
      destruct (leg1 r), sell1, (leg2 r), sell2; simpl in H;
        try discriminate; split; auto; right; discriminate.
    + intros [_ [_ [r' [Hr [H1 H2]]]]]. inversion Hr; subst r'.
      destruct (leg1 r), sell1, (leg2 r), sell2; simpl; try reflexivity;
        destruct H1 as [H1 | H1]; destruct H2 as [H2 | H2]; congruence.
  - intros r' Hr H. inversion Hr; subst r'.
    destruct (leg1 r), sell1, (leg2 r), sell2; simpl in *; try discriminate;
      eexists; (split; [reflexivity | ring]).
  - destruct (leg1 r), sell1, (leg2 r), sell2; simpl; try discriminate; reflexivity.
Qed.

Lemma settleBySell_success_and_amount_witness :
  exists a,
    amountReceived (settleBySell OrderFilled OrderFailed (fst (afterLeg2 0.55)))
    = Some a
    /\ a == 7.
Proof.
  destruct (settleBySell_success_and_amount OrderFilled OrderFailed
              (fst (afterLeg2 0.55))) as [_ [H _]].
  destruct (H (roundOf (fst (afterLeg2 0.55)))) as [a [H1 H2]];
    [vm_compute; reflexivity | vm_compute; reflexivity |].
  exists a. split; [exact H1 |].
  rewrite H2. vm_compute. reflexivity.
Defined.

Lemma num_or_zero_pos (x : Q) : 0 < num_or x 0 -> num_or x 0 = x /\ 0 < x.
Proof.
  unfold num_or. destruct (Qeq_bool x 0); [intros H; lra | auto].
Qed.

(** [merge] succeeds exactly when the CTF client, a market and a round
    holding both legs with positive shares are there and the CTF merge
    reports success; it then merges the smaller of the two legs' shares.
    A failure reported by the CTF client still carries the shares, every
    other failure carries none. *)
Theorem merge_succeeds_iff (outcome : MergeOutcome) (st : DipArbService) :
  (ex_success (merge outcome st) = true <->
   hasCtf st = true /\ market st <> None
   /\ outcome = MergeReturned true
   /\ exists r l1 l2, currentRound st = Some r
        /\ leg1 r = Some l1 /\ leg2 r = Some l2
        /\ 0 < leg_shares l1 /\ 0 < leg_shares l2)
  /\ (forall r l1 l2, currentRound st = Some r ->
      leg1 r = Some l1 -> leg2 r = Some l2 ->
      ex_success (merge outcome st) = true ->
      ex_shares (merge outcome st) = Some (Qmin (leg_shares l1) (leg_shares l2)))
  /\ (ex_success (merge outcome st) = false ->
      outcome <> MergeReturned false ->
      ex_shares (merge outcome st) = None)
  /\ (forall r l1 l2 ok, hasCtf st = true -> market st <> None ->
      currentRound st = Some r -> leg1 r = Some l1 -> leg2 r = Some l2 ->
      0 < leg_shares l1 -> 0 < leg_shares l2 ->
      outcome = MergeReturned ok ->
      ex_success (merge outcome st) = ok
      /\ ex_shares (merge outcome st) = Some (Qmin (leg_shares l1) (leg_shares l2))).
Proof.
  assert (Hmin : forall r, Qle_bool (num_min (legShares (leg1 r)) (legShares (leg2 r))) 0
                           = false ->
                 exists l1 l2, leg1 r = Some l1 /\ leg2 r = Some l2
                   /\ 0 < leg_shares l1 /\ 0 < leg_shares l2
                   /\ legShares (leg1 r) = leg_shares l1
                   /\ legShares (leg2 r) = leg_shares l2).
  { intros r H. apply Qle_bool_gt in H. unfold num_min in H.
    assert (H1 : 0 < legShares (leg1 r))
      by (eapply Qlt_le_trans; [exact H | apply Q.le_min_l]).
    assert (H2 : 0 < legShares (leg2 r))
      by (eapply Qlt_le_trans; [exact H | apply Q.le_min_r]).
    unfold legShares in *.
    destruct (leg1 r) as [l1 |]; [| lra].
    destruct (leg2 r) as [l2 |]; [| lra].
    apply num_or_zero_pos in H1, H2.
    exists l1, l2. tauto. }
  assert (Hcarry : forall r l1 l2 ok, hasCtf st = true -> market st <> None ->
             currentRound st = Some r -> leg1 r = Some l1 -> leg2 r = Some l2 ->
             0 < leg_shares l1 -> 0 < leg_shares l2 ->
             outcome = MergeReturned ok ->
             ex_success (merge outcome st) = ok
             /\ ex_shares (merge outcome st)
                = Some (Qmin (leg_shares l1) (leg_shares l2))).
  { intros r l1 l2 ok Hc Hm Hr H1 H2 P1 P2 ->. unfold merge.
    rewrite Hc, Hr. destruct (market st) as [m |]; [| congruence].
    rewrite H1, H2. unfold legShares, num_or.
    destruct (Qeq_bool (leg_shares l1) 0) eqn:E1;
      [apply Qeq_bool_iff in E1; lra |].
    destruct (Qeq_bool (leg_shares l2) 0) eqn:E2;
      [apply Qeq_bool_iff in E2; lra |].
    destruct (Qle_bool (num_min (leg_shares l1) (leg_shares l2)) 0) eqn:E.
    - apply Qle_bool_iff in E. unfold num_min in E.
      destruct (Q.min_spec (leg_shares l1) (leg_shares l2)) as [[_ Hx] | [_ Hx]];
        rewrite Hx in E; lra.
    - split; reflexivity. }
  assert (Hmain :
    (ex_success (merge outcome st) = true <->
     hasCtf st = true /\ market st <> None
     /\ outcome = MergeReturned true
     /\ exists r l1 l2, currentRound st = Some r
          /\ leg1 r = Some l1 /\ leg2 r = Some l2
          /\ 0 < leg_shares l1 /\ 0 < leg_shares l2)
    /\ (forall r l1 l2, currentRound st = Some r ->
        leg1 r = Some l1 -> leg2 r = Some l2 ->
        ex_success (merge outcome st) = true ->
        ex_shares (merge outcome st) = Some (Qmin (leg_shares l1) (leg_shares l2)))
    /\ (ex_success (merge outcome st) = false ->
        outcome <> MergeReturned false ->
        ex_shares (merge outcome st) = None));
    [| destruct Hmain as [A [B C]]; auto].
  clear Hcarry.
  unfold merge.
  destruct (hasCtf st);
    [| split; [split; [discriminate | intros [H _]; discriminate] |
               split; [discriminate | reflexivity]]].
  destruct (market st) as [m |];
    [| split; [split; [discriminate | intros [_ [H _]]; congruence] |
               split; [discriminate | reflexivity]]].
  destruct (currentRound st) as [r |];
    [| split; [split; [discriminate
                      | intros [_ [_ [_ [r [l1 [l2 [H _]]]]]]]; discriminate] |
               split; [discriminate | reflexivity]]].
  destruct (Qle_bool _ 0) eqn:E.
  - split; [split; [discriminate |] | split; [discriminate | reflexivity]].
    intros [_ [_ [_ [r' [l1 [l2 [Hr [H1 [H2 [P1 P2]]]]]]]]]].
    inversion Hr; subst r'. apply Qle_bool_iff in E.
    rewrite H1, H2 in E. unfold legShares, num_min, num_or in E.
    destruct (Qeq_bool (leg_shares l1) 0) eqn:E1;
      [apply Qeq_bool_iff in E1; lra |].
    destruct (Qeq_bool (leg_shares l2) 0) eqn:E2;
      [apply Qeq_bool_iff in E2; lra |].
    destruct (Q.min_spec (leg_shares l1) (leg_shares l2)) as [[_ Hx] | [_ Hx]];
      rewrite Hx in E; lra.
  - destruct (Hmin r E) as [l1 [l2 [H1 [H2 [P1 [P2 [Q1 Q2]]]]]]].
    split; [| split].
    + split.
      * intros H. split; [reflexivity |]. split; [discriminate |].
        destruct outcome as [[|] |]; try discriminate.
        split; [reflexivity |]. exists r, l1, l2. auto 10.
      * intros [_ [_ [-> _]]]. reflexivity.
    + intros r' l1' l2' Hr H1' H2' H. inversion Hr; subst r'.
      destruct outcome as [[|] |]; try discriminate. simpl.
      unfold num_min. rewrite Q1, Q2. congruence.
    + intros H Hne. destruct outcome as [[|] |]; try discriminate;
        [congruence | reflexivity].
Qed.

Lemma merge_succeeds_iff_witness :
  ex_success (merge (MergeReturned false) (fst (afterLeg2 0.55))) = false
  /\ ex_shares (merge (MergeReturned false) (fst (afterLeg2 0.55))) = Some 20.
Proof.
  pose (st := fst (afterLeg2 0.55)).
  assert (Hc : hasCtf st = true) by (vm_compute; reflexivity).
  assert (Hm : market st <> None) by (vm_compute; discriminate).
  assert (Hr : currentRound st = Some (roundOf st)) by (vm_compute; reflexivity).
  assert (H1 : leg1 (roundOf st) = Some (leg1Of st)) by (vm_compute; reflexivity).
  assert (H2 : leg2 (roundOf st) = Some (leg2Of st)) by (vm_compute; reflexivity).
  assert (P1 : 0 < leg_shares (leg1Of st)) by (vm_compute; reflexivity).
  assert (P2 : 0 < leg_shares (leg2Of st)) by (vm_compute; reflexivity).
  pose proof (merge_succeeds_iff (MergeReturned false) st) as [_ [_ [_ H]]].
  pose proof (H (roundOf st) (leg1Of st) (leg2Of st) false Hc Hm Hr H1 H2 P1 P2 eq_refl)
    as [A B].
  split; [exact A |]. fold st. rewrite B. vm_compute. reflexivity.
Defined.

(** *** The pending-redemption queue *)




Lemma sumQ_app (a b : list Q) : sumQ (a ++ b) == sumQ a + sumQ b.
Proof.
  unfold sumQ. induction a as [| x a IH]; simpl; [ring | rewrite IH; ring].
Qed.

Lemma creditRedemption_profit (r : DipArbSettleResult) (st : DipArbService) :
  totalProfit (stats (creditRedemption r st))
  == totalProfit (stats st) + settledAmount (EvSettled r)
  /\ set_totalProfit 0 (stats (creditRedemption r st)) = set_totalProfit 0 (stats st)
  /\ set_stats (stats st) (creditRedemption r st) = st.
Proof.
  unfold creditRedemption. simpl.
  destruct (amountReceived r) as [a |].
  - destruct (Qeq_bool a 0) eqn:E.
    + apply Qeq_bool_iff in E. rewrite E.
      split; [ring |]. split; [reflexivity |]. destruct st; reflexivity.
    + simpl. split; [ring |]. split; [reflexivity |]. destruct st; reflexivity.
  - split; [ring |]. split; [reflexivity |]. destruct st; reflexivity.
Qed.

Lemma redeemLoop_profit (now : Z) (ctf : DipArbPendingRedemption -> CtfOutcome)
    (waitMs : Q) (n : nat) :
  forall (st : DipArbService) (ev : list Event),
    let res := redeemLoop now ctf waitMs n st ev in
    totalProfit (stats (fst res)) + sumQ (map settledAmount ev)
    == totalProfit (stats st) + sumQ (map settledAmount (snd res))
    /\ set_totalProfit 0 (stats (fst res)) = set_totalProfit 0 (stats st)
    /\ set_pendingRedemptions [] (set_stats (stats st) (fst res))
       = set_pendingRedemptions [] st.
Proof.
  induction n as [| i IH]; intros st ev.
  - simpl. split; [ring |]. split; [reflexivity |]. destruct st; reflexivity.
  - simpl. destruct (pendingRedemptions st !! i) as [p |]; [| apply IH].
    destruct (processPending now (hasCtf st) ctf waitMs p) as [| p' | r].
    + apply IH.
    + destruct (IH (set_pendingRedemptions (<[i := p']> (pendingRedemptions st)) st) ev)
        as [H1 [H2 H3]].
      split; [exact H1 |]. split; [exact H2 |]. exact H3.
    + set (st1 := creditRedemption r
                    (set_pendingRedemptions (delete i (pendingRedemptions st)) st)).
      destruct (IH st1 (ev ++ [EvSettled r])) as [H1 [H2 H3]].
      destruct (creditRedemption_profit r
                  (set_pendingRedemptions (delete i (pendingRedemptions st)) st))
        as [C1 [C2 C3]].
      fold st1 in C1, C2, C3.
      split; [| split].
      * rewrite map_app, sumQ_app in H1.
        assert (Hone : sumQ (map settledAmount [EvSettled r])
                       == settledAmount (EvSettled r))
          by (unfold sumQ; simpl; ring).
        rewrite Hone, C1 in H1.
        change (stats (set_pendingRedemptions (delete i (pendingRedemptions st)) st))
          with (stats st) in H1.
        lra.
      * rewrite H2. exact C2.
      * apply (f_equal (set_stats (stats st))) in H3.
        transitivity (set_pendingRedemptions [] (set_stats (stats st) st1));
          [exact H3 |].
        transitivity (set_pendingRedemptions []
                        (set_pendingRedemptions (delete i (pendingRedemptions st)) st));
          [exact (f_equal (set_pendingRedemptions []) C3) | reflexivity].
Qed.

(** A redemption pass credits what it redeems: totalProfit grows by exactly
    the sum of the amounts reported by the [settled] events of the pass
    (the whole amount received, not the gain over the cost), and apart from
    totalProfit and the queue the instance and its statistics are left as
    they were. *)
Theorem redemption_credits_settled_amounts (now : Z)
    (ctf : DipArbPendingRedemption -> CtfOutcome) (st : DipArbService) :
  let res := processPendingRedemptions now ctf st in
  totalProfit (stats (fst res))
  == totalProfit (stats st) + sumQ (map settledAmount (snd res))
  /\ set_totalProfit 0 (stats (fst res)) = set_totalProfit 0 (stats st)
  /\ set_pendingRedemptions [] (set_stats (stats st) (fst res))
     = set_pendingRedemptions [] st.
Proof.
  unfold processPendingRedemptions.
  destruct (pendingRedemptions st) eqn:Hq.
  - simpl. split; [unfold sumQ; simpl; ring |]. split; [reflexivity |].
    destruct st; reflexivity.
  - rewrite <- Hq.
    destruct (redeemLoop_profit now ctf (redeemWaitMs st)
                (length (pendingRedemptions st)) st []) as [H1 [H2 H3]].
    split; [| split; assumption].
    change (sumQ (map settledAmount [])) with 0 in H1. lra.
Qed.

End Engine.

(** * Further properties of the market service *)

Module Analytics.

Import Demo DemoExtra.



Lemma Forall_firstn {A : Type} (P : A -> Prop) (n : nat) (l : list A) :
  Forall P l -> Forall P (firstn n l).
Proof.
  intros H. revert n. induction H; intros [| n]; simpl; constructor; auto.
Qed.

Lemma filter_map_all {A B : Type} (p : B -> bool) (f : A -> B) (l : list A) :
  (forall x, p (f x) = true) -> List.filter p (map f l) = map f l.
Proof.
  intros H. induction l as [| x l IH]; [reflexivity |].
  simpl. rewrite H, IH. reflexivity.
Qed.

(** Every signal of [detectMarketSignals] is justified by its details: a
    volume surge by a 24 h volume above twice a seventh of the total
    volume, a depth imbalance by a ratio above 1.5 or below 0.67 (never with
    severity low, buy pressure exactly above 1.5), a whale trade by one of
    the trades worth more than 1000.  At most five signals are returned,
    none of type momentum, and the whale trades are the first three large
    trades.  Without a data API client the call throws. *)
Theorem detectMarketSignals_sound (market : MarketVolume)
    (orderbook : ProcessedOrderbook) :
  detectMarketSignals None market orderbook = None
  /\ forall trades, exists sigs,
       detectMarketSignals (Some trades) market orderbook = Some sigs
       /\ Forall (signalJustified market orderbook trades) sigs
       /\ Forall (fun s => sig_type s <> momentum) sigs
       /\ (length sigs <= 5)%nat
       /\ length (List.filter isWhale sigs)
          = Nat.min 3 (length (List.filter isLargeTrade trades))
       /\ map details (List.filter isWhale sigs)
          = map whaleDetailsOf (firstn 3 (List.filter isLargeTrade trades)).
Proof.
  split; [reflexivity |]. intros trades. eexists. split; [reflexivity |].
  set (vs := match volume24hr market with Some _ => _ | None => _ end).
  set (ds := if (Qltb 1.5 _ || Qltb _ 0.67)%bool then _ else _).
  set (ws := map _ (firstn 3 _)).
  assert (Hvs : Forall (signalJustified market orderbook trades) vs
                /\ Forall (fun s => sig_type s <> momentum) vs
                /\ (length vs <= 1)%nat /\ List.filter isWhale vs = []).
  { unfold vs. destruct (volume24hr market) as [v24 |] eqn:Hv;
      [| simpl; auto using Forall_nil].
    destruct (negb (Qeq_bool v24 0) && Qltb 0 (volume market))%bool eqn:Hc;
      [| simpl; auto using Forall_nil].
    apply andb_true_iff in Hc. destruct Hc as [_ Hpos]. apply Qltb_lt in Hpos.
    destruct (Qltb 2 _) eqn:H2; [| simpl; auto using Forall_nil].
    apply Qltb_lt in H2.
    split; [| split; [constructor; [discriminate | constructor] | split; auto]].
    constructor; [| constructor]. unfold signalJustified. simpl.
    split; [reflexivity |]. split; [exact Hv |]. split; [exact Hpos |].
    split; [reflexivity |]. split; [reflexivity |]. split; [exact H2 |].
    destruct (Qltb 5 _) eqn:H5.
    - apply Qltb_lt in H5. split; split; try discriminate; auto.
      intros H. lra.
    - apply Qltb_ge in H5. destruct (Qltb 3 _) eqn:H3.
      + apply Qltb_lt in H3. split; split; try discriminate; intros H; lra.
      + apply Qltb_ge in H3. split; split; try discriminate; auto.
        intros H; lra. }
  assert (Hds : Forall (signalJustified market orderbook trades) ds
                /\ Forall (fun s => sig_type s <> momentum) ds
                /\ (length ds <= 1)%nat /\ List.filter isWhale ds = []).
  { unfold ds. set (r := imbalanceRatio (summary orderbook)).
    destruct (Qltb 1.5 r || Qltb r 0.67)%bool eqn:Hc;
      [| simpl; auto using Forall_nil].
    split; [| split; [constructor; [discriminate | constructor] | split; auto]].
    constructor; [| constructor]. unfold signalJustified. simpl. fold r.
    assert (Hr : 1.5 < r \/ r < 0.67).
    { apply orb_true_iff in Hc. destruct Hc as [H | H]; apply Qltb_lt in H; auto. }
    split; [reflexivity |]. split; [reflexivity |]. split; [exact Hr |].
    split; [destruct (Qltb 3 r || Qltb r 0.33)%bool; discriminate |].
    split.
    - destruct (Qltb 3 r || Qltb r 0.33)%bool eqn:H3.
      + apply orb_true_iff in H3. split; [intros _ | reflexivity].
        destruct H3 as [H | H]; apply Qltb_lt in H; auto.
      + apply orb_false_iff in H3. destruct H3 as [A B].
        apply Qltb_ge in A, B. split; [discriminate |].
        intros [H | H]; lra.
    - destruct (Qltb 1 r) eqn:H1.
      + apply Qltb_lt in H1. split; [intros _ | reflexivity].
        destruct Hr; [assumption | lra].
      + apply Qltb_ge in H1. split; [discriminate | intros H; lra]. }
  assert (Hws : Forall (signalJustified market orderbook trades) ws
                /\ Forall (fun s => sig_type s <> momentum) ws
                /\ List.filter isWhale ws = ws
                /\ length ws = Nat.min 3 (length (List.filter isLargeTrade trades))).
  { unfold ws.
    assert (Hl : Forall (fun t => In t trades /\ 1000 < tr_size t * tr_price t)
                   (firstn 3 (List.filter
                                (fun t => Qltb 1000 (tr_size t * tr_price t)) trades))).
    { apply Forall_firstn. apply List.Forall_forall. intros t Ht.
      apply filter_In in Ht. destruct Ht as [Hin Hq]. apply Qltb_lt in Hq. auto. }
    split; [| split; [| split]].
    - apply Forall_map. eapply Forall_impl; [exact Hl |].
      intros t [Hin Hq]. unfold signalJustified. simpl.
      split; [reflexivity |]. split; [exists t; auto |].
      split; [reflexivity |]. split; [exact Hq |].
      destruct (Qltb 10000 _) eqn:H5.
      + apply Qltb_lt in H5. split; split; try discriminate; auto.
        intros H. lra.
      + apply Qltb_ge in H5. destruct (Qltb 5000 _) eqn:H3.
        * apply Qltb_lt in H3. split; split; try discriminate; intros H; lra.
        * apply Qltb_ge in H3. split; split; try discriminate; auto.
          intros H; lra.
    - apply Forall_map. apply List.Forall_forall. intros t _. discriminate.
    - apply filter_map_all. intros t. reflexivity.
    - rewrite length_map, length_firstn. reflexivity. }
  destruct Hvs as [V1 [V2 [V3 V4]]]. destruct Hds as [D1 [D2 [D3 D4]]].
  destruct Hws as [W1 [W2 [W3 W4]]].
  split; [repeat (apply Forall_app; split); assumption |].
  split; [repeat (apply Forall_app; split); assumption |].
  split; [rewrite !length_app, W4; lia |].
  split.
  - rewrite !List.filter_app, V4, D4, W3. simpl. exact W4.
  - rewrite !List.filter_app, V4, D4, W3. simpl. unfold ws.
    rewrite map_map. reflexivity.
Qed.

Lemma detectMarketSignals_sound_witness :
  exists sigs,
    detectMarketSignals (Some someTrades) {| volume24hr := Some 900; volume := 2100 |}
      (processOrderbooks longYesBook longNoBook None None) = Some sigs
    /\ length (List.filter isWhale sigs) = 3%nat
    /\ map details (List.filter isWhale sigs)
       = map whaleDetailsOf (firstn 3 (List.filter isLargeTrade someTrades)).
Proof.
  destruct (detectMarketSignals_sound {| volume24hr := Some 900; volume := 2100 |}
              (processOrderbooks longYesBook longNoBook None None)) as [_ H].
  destruct (H someTrades) as [sigs [H1 [_ [_ [_ [H5 H6]]]]]].
  exists sigs. split; [exact H1 |]. split; [| exact H6].
  rewrite H5. vm_compute. reflexivity.
Defined.

End Analytics.

(** * Market discovery *)

Module Discovery.

Import Demo DemoExtra.

Lemma underlying_eqb_eq (a b : DipArbUnderlying) :
  underlying_eqb a b = true <-> a = b.
Proof. destruct a, b; simpl; split; intros H; congruence. Qed.

Lemma find_split {A : Type} (p : A -> bool) (l : list A) (x : A) :
  List.find p l = Some x ->
  p x = true
  /\ exists before after, l = before ++ x :: after
       /\ Forall (fun y => p y = false) before.
Proof.
  induction l as [| y l IH]; [discriminate |].
  simpl. destruct (p y) eqn:E.
  - intros H. inversion H; subst y. split; [exact E |].
    exists [], l. split; [reflexivity | constructor].
  - intros H. destruct (IH H) as [Hp [b [a [-> Hb]]]].
    split; [exact Hp |]. exists (y :: b), a.
    split; [reflexivity | constructor; assumption].
Qed.

(** [findAndStart] starts the first scanned market of the preferred
    underlying when there is one, and the first scanned market otherwise; it
    returns null without touching the instance when the scan is empty, and
    rejects, the instance unchanged, when the instance is already
    running. *)
Theorem findAndStart_choice (now : Z) (coin : option DipArbUnderlying)
    (markets : list DipArbMarketConfig) (st : DipArbService) :
  (markets = [] -> findAndStart now coin markets st = (None, st, [], None))
  /\ (forall m s ev err,
        findAndStart now coin markets st = (Some m, s, ev, err) ->
        market s = Some m /\ isRunning s = true /\ isRunning st = false
        /\ ev = [EvStarted m] /\ err = None
        /\ exists before after,
             markets = before ++ m :: after
             /\ ((exists c, coin = Some c /\ underlying m = c
                            /\ Forall (fun x => underlying x <> c) before)
                 \/ (before = []
                     /\ forall c, coin = Some c ->
                          Forall (fun x => underlying x <> c) markets)))
  /\ (isRunning st = true -> markets <> [] ->
      findAndStart now coin markets st = (None, st, [], Some AlreadyRunning)).
Proof.
  split; [intros ->; reflexivity |]. split.
  - intros m s ev err. unfold findAndStart.
    destruct markets as [| first rest]; [discriminate |].
    set (best := match coin with Some c => _ | None => first end).
    destruct (start now best st) as [e | [s' ev']] eqn:Hs; [discriminate |].
    intros H. inversion H; subst m s' ev' err. clear H.
    destruct (Rotation.start_inr now best st s ev Hs) as [_ [_ [Hm [Hr He]]]].
    split; [exact Hm |]. split; [exact Hr |].
    split; [unfold start in Hs; destruct (isRunning st); [discriminate | reflexivity] |].
    split; [exact He |]. split; [reflexivity |].
    unfold best. destruct coin as [c |].
    + destruct (List.find _ (first :: rest)) as [cm |] eqn:Hf.
      * destruct (find_split _ _ _ Hf) as [Hp [b [a [Hl Hb]]]].
        exists b, a. split; [exact Hl |]. left. exists c.
        split; [reflexivity |]. split; [apply underlying_eqb_eq; exact Hp |].
        eapply Forall_impl; [exact Hb |]. intros x Hx Heq.
        apply underlying_eqb_eq in Heq. congruence.
      * exists [], rest. split; [reflexivity |]. right.
        split; [reflexivity |]. intros c' Hc. inversion Hc; subst c'.
        apply List.Forall_forall. intros x Hx Heq.
        apply underlying_eqb_eq in Heq.
        pose proof (find_none _ _ Hf x Hx) as Hn. simpl in Hn. congruence.
    + exists [], rest. split; [reflexivity |]. right.
      split; [reflexivity | discriminate].
  - intros Hr Hne. unfold findAndStart.
    destruct markets as [| first rest]; [congruence |].
    unfold start. rewrite Hr. reflexivity.
Qed.

Lemma findAndStart_choice_witness :
  market (snd (fst (fst (findAndStart 0 (Some ETH) [btcMarket; ethMarket; btcNext] idle))))
  = Some ethMarket.
Proof.
  destruct (findAndStart_choice 0 (Some ETH) [btcMarket; ethMarket; btcNext] idle)
    as [_ [H _]].
  destruct (H ethMarket
              (snd (fst (fst (findAndStart 0 (Some ETH)
                                [btcMarket; ethMarket; btcNext] idle))))
              [EvStarted ethMarket] None) as [H1 _];
    [vm_compute; reflexivity | exact H1].
Defined.

(** ** Slugs *)

Lemma digits_no_m (u : Decimal.uint) :
  hasChar "m" (NilEmpty.string_of_uint u) = false.
Proof. induction u; simpl; auto. Qed.

Lemma numberToString_no_m (z : Z) : hasChar "m" (numberToString z) = false.
Proof.
  unfold numberToString, NilZero.string_of_int, NilZero.string_of_uint.
  destruct (Z.to_int z) as [u | u]; destruct u; simpl;
    try reflexivity; apply digits_no_m.
Qed.

Lemma startsWith_nil (s : string) : startsWith s "" = true.
Proof. destruct s; reflexivity. Qed.

Lemma startsWith_hasChar (c : ascii) (p : string) :
  forall t, startsWith t p = true -> hasChar c p = true -> hasChar c t = true.
Proof.
  induction p as [| a p IH]; intros t Hs Hc; [discriminate |].
  destruct t as [| b t]; [discriminate |].
  cbn [startsWith] in Hs. apply andb_true_iff in Hs. destruct Hs as [E Hs].
  apply Ascii.eqb_eq in E. subst b.
  cbn [hasChar] in *. apply orb_true_iff in Hc. apply orb_true_iff.
  destruct Hc as [Hc | Hc]; [left; exact Hc | right; apply IH; assumption].
Qed.

Lemma startsWith_needs_m (t : string) :
  hasChar "m" t = false ->
  startsWith t "-5m-" = false /\ startsWith t "5m-" = false
  /\ startsWith t "m-" = false.
Proof.
  intros H.
  split; [| split];
    match goal with
    | |- startsWith t ?p = false =>
        destruct (startsWith t p) eqn:E; [| reflexivity];
        apply (startsWith_hasChar "m") in E; [congruence | reflexivity]
    end.
Qed.

Lemma includes_needs_m (t : string) :
  hasChar "m" t = false -> includes t "-5m-" = false.
Proof.
  induction t as [| a t IH]; [reflexivity |].
  intros H. pose proof (startsWith_needs_m (String a t) H) as [P _].
  cbn [includes]. rewrite P. simpl in H. apply orb_false_iff in H.
  destruct H as [_ H]. simpl. apply IH. exact H.
Qed.

(** The slugs that [scanCryptoShortTermMarkets] generates are read back
    correctly by the parsers of the engine: whatever the slot, the slug of
    a coin and a duration parses to that underlying and to that number of
    minutes. *)
Theorem slug_round_trip (c : DipArbUnderlying) (d : Duration) (slotStart : Z) :
  In (toLowerCase (underlyingName c)) (targetCoins None)
  /\ targetCoins (Some c) = [toLowerCase (underlyingName c)]
  /\ parseUnderlyingFromSlug (slugOf (toLowerCase (underlyingName c)) d slotStart) = c
  /\ parseDurationFromSlug (slugOf (toLowerCase (underlyingName c)) d slotStart)
     = durationMinutesOf d.
Proof.
  split; [destruct c; simpl; auto |]. split; [reflexivity |].
  split; [destruct c; reflexivity |].
  pose proof (numberToString_no_m slotStart) as Hm.
  pose proof (startsWith_needs_m _ Hm) as [P1 [P2 P3]].
  pose proof (includes_needs_m _ Hm) as I1.
  assert (Hn : toLowerCase (underlyingName c)
               = match c with
                 | BTC => "btc" | ETH => "eth" | SOL => "sol" | XRP => "xrp"
                 end%string)
    by (destruct c; reflexivity).
  rewrite Hn. unfold parseDurationFromSlug, slugOf.
  destruct c, d; cbn -[numberToString];
    rewrite ?startsWith_nil, ?P1, ?P2, ?P3, ?I1; reflexivity.
Qed.

(** ** Time slots *)

Lemma slotLoop_covers (d : Duration) (coins : list string) (coinName : string)
    (hi : Z) (fuel : nat) :
  forall (j : nat) (start : Z),
    (j < fuel)%nat ->
    (start + Z.of_nat j * durationIntervals d <= hi)%Z ->
    In coinName coins ->
    In (slugOf coinName d (start + Z.of_nat j * durationIntervals d)%Z)
       (slotLoop fuel start hi d coins).
Proof.
  assert (Hpos : (0 < durationIntervals d)%Z) by (destruct d; reflexivity).
  induction fuel as [| fuel IH]; intros j start Hj Hle Hin; [lia |].
  cbn [slotLoop].
  assert (Hs : (start <=? hi)%Z = true) by (apply Z.leb_le; nia).
  rewrite Hs. apply in_or_app. destruct j as [| j].
  - left. replace (start + Z.of_nat 0 * durationIntervals d)%Z with start by lia.
    apply (in_map (fun c => slugOf c d start)). exact Hin.
  - right.
    replace (start + Z.of_nat (S j) * durationIntervals d)%Z
      with ((start + durationIntervals d) + Z.of_nat j * durationIntervals d)%Z
      by lia.
    apply IH; [lia | lia | exact Hin].
Qed.

(** The bound on the iterations is never what ends the loop: once the
    slot has passed [hi], further fuel adds nothing, and the fuel of
    [slugsToFetch] reaches that point. *)
Lemma slotLoop_fuel (d : Duration) (coins : list string) (hi : Z) (fuel : nat) :
  forall (start : Z) (n : nat),
    (hi < start + Z.of_nat fuel * durationIntervals d)%Z ->
    slotLoop (fuel + n) start hi d coins = slotLoop fuel start hi d coins.
Proof.
  induction fuel as [| fuel IH]; intros start n H.
  - simpl. destruct n; [reflexivity |]. cbn [slotLoop].
    assert (Hs : (start <=? hi)%Z = false) by (apply Z.leb_gt; lia).
    rewrite Hs. reflexivity.
  - cbn [Nat.add slotLoop]. destruct (start <=? hi)%Z; [| reflexivity].
    f_equal. apply IH. lia.
Qed.

Lemma slugsToFetch_fuel (d : Duration) (lo hi : Z) :
  (hi < lo + Z.of_nat (Z.to_nat ((hi - lo) / durationIntervals d + 1))
          * durationIntervals d)%Z.
Proof.
  assert (HI : (0 < durationIntervals d)%Z) by (destruct d; reflexivity).
  destruct (Z.lt_ge_cases ((hi - lo) / durationIntervals d + 1) 0) as [Hn | Hn].
  - assert (Hz : Z.to_nat ((hi - lo) / durationIntervals d + 1) = 0%nat) by lia.
    rewrite Hz.
    assert (hi - lo < 0)%Z; [| lia].
    apply Z.nle_gt. intros Hge.
    pose proof (Z.div_pos (hi - lo) (durationIntervals d) Hge HI). lia.
  - rewrite Z2Nat.id by exact Hn.
    pose proof (Z.mul_succ_div_gt (hi - lo) (durationIntervals d) HI). lia.
Qed.

Lemma slot_bounds (nowMs : Z) (minM maxM : Q) (d : Duration) (k : Z) :
  inject_Z (nowMs / 1000) + minM * 60
  <= inject_Z (k * durationIntervals d + durationIntervals d) ->
  inject_Z (k * durationIntervals d + durationIntervals d)
  <= inject_Z (nowMs / 1000) + maxM * 60 ->
  exists a b, minSlotStart nowMs minM d = (a * durationIntervals d)%Z
    /\ maxSlotStart nowMs maxM d = (b * durationIntervals d)%Z
    /\ (a <= k <= b)%Z.
Proof.
  intros Hlo Hhi. unfold minSlotStart, maxSlotStart.
  set (I := durationIntervals d) in *.
  assert (HI : 0 < inject_Z I) by (destruct d; reflexivity).
  rewrite inject_Z_plus, inject_Z_mult in Hlo, Hhi.
  eexists. eexists. split; [reflexivity |]. split; [reflexivity |]. split.
  - rewrite <- (Qfloor_Z k). apply Qfloor_resp_le.
    apply Qle_shift_div_r; [exact HI | lra].
  - rewrite <- (Qceiling_Z k). apply Qceiling_resp_le.
    apply Qle_shift_div_l; [exact HI | lra].
Qed.

(** The scan misses no slot: for every requested duration and coin, the
    slug of every market slot (a start time that is a multiple of the
    duration's interval) whose end time lies between now + minMinutesUntilEnd
    and now + maxMinutesUntilEnd is among the slugs that
    [scanCryptoShortTermMarkets] fetches. *)
Theorem scan_covers_every_slot (nowMs : Z) (minMinutesUntilEnd maxMinutesUntilEnd : Q)
    (duration : option Duration) (coin : option DipArbUnderlying)
    (d : Duration) (coinName : string) (k : Z) :
  In d (targetDurations duration) ->
  In coinName (targetCoins coin) ->
  let intervalSeconds := durationIntervals d in
  let slotStart := (k * intervalSeconds)%Z in
  let nowSeconds := (nowMs / 1000)%Z in
  inject_Z nowSeconds + minMinutesUntilEnd * 60
  <= inject_Z (slotStart + intervalSeconds) ->
  inject_Z (slotStart + intervalSeconds)
  <= inject_Z nowSeconds + maxMinutesUntilEnd * 60 ->
  In (slugOf coinName d slotStart)
     (slugsToFetch nowMs minMinutesUntilEnd maxMinutesUntilEnd duration coin).
Proof.
  intros Hd Hc I slotStart nowSeconds Hlo Hhi.
  unfold slugsToFetch. apply in_flat_map. exists d. split; [exact Hd |].
  destruct (slot_bounds nowMs minMinutesUntilEnd maxMinutesUntilEnd d k Hlo Hhi)
    as [a [b [Ha [Hb [Hak Hkb]]]]].
  rewrite Ha, Hb. fold I.
  assert (HI : (0 < I)%Z) by (unfold I; destruct d; reflexivity).
  replace ((b * I - a * I) / I)%Z with (b - a)%Z
    by (rewrite <- Z.mul_sub_distr_r, Z.div_mul; lia).
  replace slotStart with (a * I + Z.of_nat (Z.to_nat (k - a)) * I)%Z
    by (unfold slotStart; rewrite Z2Nat.id; lia).
  apply slotLoop_covers; [lia | | exact Hc].
  rewrite Z2Nat.id by lia. nia.
Qed.

Lemma scan_covers_every_slot_witness :
  In "btc-updown-15m-1767165300"%string
     (slugsToFetch 1767164700123 5 30 (Some D15m) None).
Proof.
  apply (scan_covers_every_slot 1767164700123 5 30 (Some D15m) None D15m
           "btc"%string 1963517);
    [left; reflexivity | left; reflexivity
    | vm_compute; discriminate | vm_compute; discriminate].
Defined.

End Discovery.
